(** * View-buffer synthesis and Z-ratio filter of the EDF/BDF browser

    A shallow embedding of
      - [filt/z_ratio_filter.c]  (module [ZRatio]),
      - [filt/math_func.c]  (module [MathFunc]),
      - [viewbuf.cpp], function [UI_Mainwindow::setup_viewbuf] (module [ViewBuf]),
    together with the properties of the view-buffer specification that
    concern them.

    Conventions.
      - C integers are embedded in [Z]; [/] and [%] of C are [Z.quot] and
        [Z.rem] (truncation toward zero).  Signed overflow is undefined in C
        and is not modelled; the narrowing conversions of the code
        (to [int]) are written out with [wrap_int].
      - C [double]s are IEEE-754 binary64 values, embedded as [spec_float]
        with the operations of the Standard Library's [SpecFloat]
        (round to nearest even), so that every expression of the source can
        be evaluated.
      - Arrays are lists, indexed with stdpp's lookup and insert. *)

From Stdlib Require Import ZArith Lia Bool String.
From Stdlib Require Import SpecFloat.
From stdpp Require Import base list gmap.

Open Scope Z_scope.

(** ** C doubles *)
Module Dbl.

Definition prec : Z := 53.
Definition emax : Z := 1024.

Definition double := spec_float.

(** [(double)n] for an integer [n]. *)
Definition of_Z (n : Z) : double := binary_normalize prec emax n 0 false.

Definition zero : double := S754_zero false.
Definition add : double -> double -> double := SFadd prec emax.
Definition sub : double -> double -> double := SFsub prec emax.
Definition mul : double -> double -> double := SFmul prec emax.
Definition div : double -> double -> double := SFdiv prec emax.
Definition ltb : double -> double -> bool := SFltb.
Definition leb : double -> double -> bool := SFleb.
Definition eqb : double -> double -> bool := SFeqb.

(** A finite double [m * 2^e] that is an integer. *)
Definition is_whole (m : positive) (e : Z) : bool :=
  match e with
  | Zneg p => Zpos m =? Z.shiftl (Z.shiftr (Zpos m) (Zpos p)) (Zpos p)
  | _ => true
  end.

(** The integer part of a finite double (truncation toward zero), as the
    conversions [(int)x] and [(long long)x] compute it. *)
Definition trunc (x : double) : Z :=
  match x with
  | S754_finite s m e =>
      cond_Zopp s
        match e with
        | Zneg p => Z.shiftr (Zpos m) (Zpos p)
        | _ => Z.shiftl (Zpos m) e
        end
  | _ => 0
  end.

(** The least integer that is not below a finite double. *)
Definition ceil (x : double) : Z :=
  match x with
  | S754_finite s m e => trunc x + (if is_whole m e || s then 0 else 1)
  | _ => 0
  end.

Definition is_finite (x : double) : bool :=
  match x with
  | S754_zero _ | S754_finite _ _ _ => true
  | _ => false
  end.

(** Conversion to a signed integer of [w] bits.  Outside the range of the
    target type (and for NaN) the conversion is undefined in ISO C; the
    value given here is the one the x86-64 conversion instruction
    delivers, the most negative integer. *)
Definition cast_signed (w : Z) (x : double) : Z :=
  let v := trunc x in
  if is_finite x && (- 2 ^ (w - 1) <=? v) && (v <? 2 ^ (w - 1)) then v
  else - 2 ^ (w - 1).

Definition cast_int : double -> Z := cast_signed 32.
Definition cast_ll : double -> Z := cast_signed 64.

(** A number other than zero: finite and nonzero, or infinite. *)
Definition is_nonzero_number (x : double) : bool :=
  match x with
  | S754_finite _ _ _ | S754_infinity _ => true
  | _ => false
  end.

Definition is_zero (x : double) : bool :=
  match x with
  | S754_zero _ => true
  | _ => false
  end.

End Dbl.

Abbreviation double := Dbl.double.

(** [int] wrap-around, for narrowing assignments. *)
Definition wrap_int (n : Z) : Z := (n + 2 ^ 31) mod 2 ^ 32 - 2 ^ 31.

(** [for(i=0; i<n; i++)]: the indices the loop visits. *)
Definition upto (n : Z) : list Z := map Z.of_nat (seq 0 (Z.to_nat n)).

(** ** The Z-ratio filter: [filt/z_ratio_filter.c] *)
Module ZRatio.

Definition ZRATIO_EPOCH_LEN : Z := 2.
Definition ZRATIO_F0 : double := Dbl.div (Dbl.of_Z 1) (Dbl.of_Z 2).
Definition ZRATIO_F1 : double := Dbl.of_Z 3.
Definition ZRATIO_F3 : double := Dbl.of_Z 12.
Definition ZRATIO_F4 : double := Dbl.of_Z 25.
Definition ZR_TIME_FIXP_SCALING : Z := 10000000.

(** [kiss_fft_cpx]: real and imaginary part. *)
Definition kiss_fft_cpx : Type := double * double.

(** [zratiofiltset_t].  The header that declares it is not part of the
    sources at hand; the fields are the ones [z_ratio_filter.c] uses, the
    counters and band limits being [int]s and the rest [double]s. *)
Record zratiofiltset_t := mk_zratio {
  crossoverfreq : double;
  dftblocksize : Z;
  samplefreq : double;
  fft_outputbufsize : Z;
  freqstep : double;
  f0 : Z;
  f1 : Z;
  f2 : Z;
  f3 : Z;
  f4 : Z;
  fft_inputbuf : list double;
  fft_inputbuf_bu : list double;
  fft_outputbuf : list double;
  kiss_fftbuf : list kiss_fft_cpx;
  smpls_in_inputbuf : Z;
  smpls_in_inputbuf_bu : Z;
  zratio_value : double;
  zratio_value_bu : double;
  bitvalue : double
}.

(** Assignments to the running state. *)
Definition set_running (buf : list double) (n : Z) (v : double)
    (s : zratiofiltset_t) : zratiofiltset_t :=
  mk_zratio (crossoverfreq s) (dftblocksize s) (samplefreq s)
    (fft_outputbufsize s) (freqstep s) (f0 s) (f1 s) (f2 s) (f3 s) (f4 s)
    buf (fft_inputbuf_bu s) (fft_outputbuf s) (kiss_fftbuf s)
    n (smpls_in_inputbuf_bu s) v (zratio_value_bu s) (bitvalue s).

Definition set_spectrum (out : list double) (k : list kiss_fft_cpx)
    (s : zratiofiltset_t) : zratiofiltset_t :=
  mk_zratio (crossoverfreq s) (dftblocksize s) (samplefreq s)
    (fft_outputbufsize s) (freqstep s) (f0 s) (f1 s) (f2 s) (f3 s) (f4 s)
    (fft_inputbuf s) (fft_inputbuf_bu s) out k
    (smpls_in_inputbuf s) (smpls_in_inputbuf_bu s) (zratio_value s)
    (zratio_value_bu s) (bitvalue s).

Definition set_backup (buf : list double) (n : Z) (v : double)
    (s : zratiofiltset_t) : zratiofiltset_t :=
  mk_zratio (crossoverfreq s) (dftblocksize s) (samplefreq s)
    (fft_outputbufsize s) (freqstep s) (f0 s) (f1 s) (f2 s) (f3 s) (f4 s)
    (fft_inputbuf s) buf (fft_outputbuf s) (kiss_fftbuf s)
    (smpls_in_inputbuf s) n (zratio_value s) v (bitvalue s).

Section Filter.

(** What the filter calls but does not define. *)

(** [dblcmp] of the utilities: the sign of a tolerant comparison. *)
Variable dblcmp : double -> double -> Z.

(** [kiss_fftr cfg in out], the configuration being given by the
    transform length: the spectrum of a block of real samples. *)
Variable kiss_fftr : Z -> list double -> list kiss_fft_cpx.

(** [splice_bytes n src dst]: the double whose first [n] bytes in memory
    are those of [src] and whose other bytes are those of [dst]
    ([0 < n < 8]); what a [memcpy] that stops inside a double leaves. *)
Variable splice_bytes : Z -> double -> double -> double.

(** [create_zratio_filter].  [heap_in] and [heap_bu] are the contents
    of the two blocks [malloc] returns for the input buffer and its
    backup, which C leaves indeterminate; a failing allocation is not
    modelled. *)
Definition create_zratio_filter (heap_in heap_bu : list double)
    (smp_per_record long_data_record_duration : Z)
    (crossoverf bitval : double) : option zratiofiltset_t :=
  let dftblocksize :=
    wrap_int (Z.quot (smp_per_record * (ZRATIO_EPOCH_LEN * ZR_TIME_FIXP_SCALING))
                     long_data_record_duration) in
  if dftblocksize <? ZRATIO_EPOCH_LEN * 100 then None else
  let samplefreq :=
    Dbl.div (Dbl.of_Z smp_per_record)
            (Dbl.div (Dbl.of_Z long_data_record_duration)
                     (Dbl.of_Z ZR_TIME_FIXP_SCALING)) in
  if dblcmp samplefreq (Dbl.of_Z 100) <? 0 then None else
  let fft_outputbufsize := Z.quot dftblocksize 2 in
  let freqstep := Dbl.div samplefreq (Dbl.of_Z dftblocksize) in
  if 0 <? dblcmp freqstep (Dbl.of_Z 1) then None else
  let f2 := Dbl.cast_int (Dbl.div crossoverf freqstep) in
  let f0 := Dbl.cast_int (Dbl.div ZRATIO_F0 freqstep) in
  let f0 := if f0 <? 1 then 1 else f0 in
  let f1 := Dbl.cast_int (Dbl.div ZRATIO_F1 freqstep) in
  let f3 := Dbl.cast_int (Dbl.div ZRATIO_F3 freqstep) in
  let f4 := Dbl.cast_int (Dbl.div ZRATIO_F4 freqstep) in
  Some (mk_zratio crossoverf dftblocksize samplefreq fft_outputbufsize
          freqstep f0 f1 f2 f3 f4
          (take (Z.to_nat dftblocksize) heap_in)
          (take (Z.to_nat dftblocksize) heap_bu)
          (replicate (Z.to_nat fft_outputbufsize) Dbl.zero)
          []
          0 0 Dbl.zero Dbl.zero bitval).

(** The band powers the loop of [run_zratio_filter] accumulates. *)
Record powers := mk_powers {
  power_delta : double;
  power_theta : double;
  power_alpha : double;
  power_beta : double
}.

Definition cpx_at (l : list kiss_fft_cpx) (i : Z) : kiss_fft_cpx :=
  default (Dbl.zero, Dbl.zero) (l !! Z.to_nat i).

(** One turn of the loop over the spectrum. *)
Definition band_step (s : zratiofiltset_t) (acc : list double * powers)
    (i : Z) : list double * powers :=
  let '(out, p) := acc in
  let '(re, im) := cpx_at (kiss_fftbuf s) i in
  let v := Dbl.div (Dbl.add (Dbl.mul re re) (Dbl.mul im im))
                   (Dbl.of_Z (fft_outputbufsize s)) in
  let out := <[Z.to_nat i := v]> out in
  let d := if (f0 s <=? i) && (i <? f1 s)
           then Dbl.add (power_delta p) v else power_delta p in
  let t := if (f1 s <=? i) && (i <? f2 s)
           then Dbl.add (power_theta p) v else power_theta p in
  let a := if (f2 s <=? i) && (i <? f3 s)
           then Dbl.add (power_alpha p) v else power_alpha p in
  let b := if (f3 s <=? i) && (i <=? f4 s)
           then Dbl.add (power_beta p) v else power_beta p in
  (out, mk_powers d t a b).

(** The body of [if(smpls_in_inputbuf >= dftblocksize)]. *)
Definition finish_block (s : zratiofiltset_t) : zratiofiltset_t :=
  let s := set_running (fft_inputbuf s) 0 (zratio_value s) s in
  let s := set_spectrum (fft_outputbuf s)
             (kiss_fftr (dftblocksize s) (fft_inputbuf s)) s in
  let '(out, p) :=
    fold_left (band_step s) (upto (fft_outputbufsize s))
      (fft_outputbuf s, mk_powers Dbl.zero Dbl.zero Dbl.zero Dbl.zero) in
  let s := set_spectrum out (kiss_fftbuf s) s in
  let power_total :=
    Dbl.add (Dbl.add (Dbl.add (power_delta p) (power_theta p))
                     (power_alpha p)) (power_beta p) in
  let v :=
    if 0 <? dblcmp power_total Dbl.zero
    then Dbl.div (Dbl.sub (Dbl.add (power_delta p) (power_theta p))
                          (Dbl.add (power_alpha p) (power_beta p)))
                 power_total
    else Dbl.zero in
  set_running (fft_inputbuf s) (smpls_in_inputbuf s) v s.

(** [run_zratio_filter]: the value returned and the filter afterwards.
    A store outside the input buffer is undefined in C; here it leaves
    the buffer as it is. *)
Definition run_zratio_filter (new_sample : double) (s : zratiofiltset_t)
    : double * zratiofiltset_t :=
  let s :=
    set_running
      (<[Z.to_nat (smpls_in_inputbuf s) := new_sample]> (fft_inputbuf s))
      (smpls_in_inputbuf s + 1) (zratio_value s) s in
  let s := if dftblocksize s <=? smpls_in_inputbuf s
           then finish_block s else s in
  (Dbl.div (zratio_value s) (bitvalue s), s).

(** [memcpy(dst, src, n)] between two arrays of doubles, [n] counting
    bytes and a double taking eight of them. *)
Definition memcpy_doubles (dst src : list double) (n : Z) : list double :=
  let q := Z.to_nat (n / 8) in
  take q src ++
  (if n mod 8 =? 0 then drop q dst
   else match src !! q, dst !! q with
        | Some x, Some y => splice_bytes (n mod 8) x y :: drop (S q) dst
        | _, _ => drop q dst
        end).

(** [zratio_filter_save_buf]. *)
Definition zratio_filter_save_buf (s : zratiofiltset_t) : zratiofiltset_t :=
  set_backup
    (memcpy_doubles (fft_inputbuf_bu s) (fft_inputbuf s) (dftblocksize s))
    (smpls_in_inputbuf s) (zratio_value s) s.

(** [zratio_filter_restore_buf]. *)
Definition zratio_filter_restore_buf (s : zratiofiltset_t) : zratiofiltset_t :=
  set_running
    (memcpy_doubles (fft_inputbuf s) (fft_inputbuf_bu s) (dftblocksize s))
    (smpls_in_inputbuf_bu s) (zratio_value_bu s) s.

(** [reset_zratio_filter]. *)
Definition reset_zratio_filter (s : zratiofiltset_t) : zratiofiltset_t :=
  set_running (fft_inputbuf s) 0 Dbl.zero s.

(** The filter run over consecutive samples: the values it returns, in
    order, and the filter afterwards. *)
Fixpoint run_samples (xs : list double) (s : zratiofiltset_t)
    : list double * zratiofiltset_t :=
  match xs with
  | [] => ([], s)
  | x :: xs =>
      let '(y, s) := run_zratio_filter x s in
      let '(ys, s) := run_samples xs s in
      (y :: ys, s)
  end.

End Filter.

(** The input buffer and the sample counter by themselves: what a call of
    [run_zratio_filter] does to them, whatever the spectrum is ([n] is
    [dftblocksize]). *)
Definition store_sample (n : Z) (st : list double * Z) (x : double)
    : list double * Z :=
  let '(buf, k) := st in
  (<[Z.to_nat k := x]> buf, if n <=? k + 1 then 0 else k + 1).

Definition input_after (n : Z) (xs : list double) (st : list double * Z)
    : list double * Z :=
  fold_left (store_sample n) xs st.

(** The doubles [from], [from + 1], ... ([n] of them), as samples. *)
Definition numbered (from n : Z) : list double :=
  map (fun i => Dbl.of_Z (from + i)) (upto n).

(** A filter whose counters and buffers fit its block length: the input
    buffer and its backup hold [dftblocksize] doubles, and the counter and
    its backup are indices into them. *)
Definition fits_block (s : zratiofiltset_t) : Prop :=
  0 < dftblocksize s
  /\ 0 <= smpls_in_inputbuf s < dftblocksize s
  /\ 0 <= smpls_in_inputbuf_bu s < dftblocksize s
  /\ Z.of_nat (length (fft_inputbuf s)) = dftblocksize s
  /\ Z.of_nat (length (fft_inputbuf_bu s)) = dftblocksize s.

(** A filter for a signal of 100 Hz in records of one second
    ([dftblocksize] 200), 100 samples into a block: where a warm-up that
    ends in the middle of an epoch leaves it. *)
Definition at_checkpoint : zratiofiltset_t :=
  mk_zratio (Dbl.of_Z 8) 200 (Dbl.of_Z 100) 100
    (Dbl.div (Dbl.of_Z 1) (Dbl.of_Z 2)) 1 6 16 24 50
    (numbered 1 100 ++ replicate 100 Dbl.zero)
    (replicate 200 Dbl.zero) (replicate 100 Dbl.zero) []
    100 0 Dbl.zero Dbl.zero (Dbl.of_Z 1).

End ZRatio.

(** ** Math functions: [filt/math_func.c] *)
Module MathFunc.

(** The function codes, in the order of the table of descriptions. *)
Inductive math_func := MATH_FUNC_NONE | MATH_FUNC_SQUARE | MATH_FUNC_SQRT
  | MATH_FUNC_ABS | MATH_FUNC_PK_HOLD.

Record mathfuncset_t := mk_mathfunc {
  func : option math_func;
  pk_hold_smpls_set : Z;
  pk_hold_smpl_cntr : Z;
  pk_hold_val : double
}.

Definition lt_zero (val : double) : bool := Dbl.ltb val Dbl.zero.

(** [run_math_func]; a code outside the table ([None]) returns 0. *)
Definition run_math_func (val : double) (st : mathfuncset_t)
    : double * mathfuncset_t :=
  match func st with
  | Some MATH_FUNC_SQUARE =>
      (if lt_zero val then Dbl.mul (SFopp val) val else Dbl.mul val val, st)
  | Some MATH_FUNC_SQRT =>
      (if lt_zero val then SFopp (SFsqrt Dbl.prec Dbl.emax (SFopp val))
       else SFsqrt Dbl.prec Dbl.emax val, st)
  | Some MATH_FUNC_ABS => (SFabs val, st)
  | Some MATH_FUNC_PK_HOLD =>
      let cntr := pk_hold_smpl_cntr st + 1 in
      if Dbl.ltb (pk_hold_val st) val || (pk_hold_smpls_set st <=? cntr)
      then (val, mk_mathfunc (func st) (pk_hold_smpls_set st) 0 val)
      else (pk_hold_val st,
            mk_mathfunc (func st) (pk_hold_smpls_set st) cntr (pk_hold_val st))
  | Some MATH_FUNC_NONE => (val, st)
  | None => (Dbl.zero, st)
  end.

(** [MATH_MAX_FUNCS], the number of rows of the table of descriptions. *)
Definition MATH_MAX_FUNCS : Z := 5.

(** The code of a function: its row in the table of descriptions. *)
Definition code_of (f : math_func) : Z :=
  match f with
  | MATH_FUNC_NONE => 0
  | MATH_FUNC_SQUARE => 1
  | MATH_FUNC_SQRT => 2
  | MATH_FUNC_ABS => 3
  | MATH_FUNC_PK_HOLD => 4
  end.

Definition func_of_code (func_f : Z) : option math_func :=
  match func_f with
  | 0 => Some MATH_FUNC_NONE
  | 1 => Some MATH_FUNC_SQUARE
  | 2 => Some MATH_FUNC_SQRT
  | 3 => Some MATH_FUNC_ABS
  | 4 => Some MATH_FUNC_PK_HOLD
  | _ => None
  end.

(** [create_math_func]: [None] is the NULL it returns.  The block comes
    zeroed from [calloc]; the text [descr] it also fills in is read by the
    dialogs only and is not a field of [mathfuncset_t] here. *)
Definition create_math_func (func_f pk_smpls : Z) : option mathfuncset_t :=
  if (func_f <? 0) || (MATH_MAX_FUNCS <=? func_f) then None
  else
    let st := mk_mathfunc (func_of_code func_f) 0 0 Dbl.zero in
    if func_f =? code_of MATH_FUNC_PK_HOLD then
      if pk_smpls <? 1 then None
      else Some (mk_mathfunc (func st) pk_smpls (pk_hold_smpl_cntr st)
                             (pk_hold_val st))
    else Some st.

(** [run_math_func] on one sample after the other, as the sample loop of
    [setup_viewbuf] calls it: the outputs in order and the block afterwards. *)
Fixpoint run_math_samples (xs : list double) (st : mathfuncset_t)
    : list double * mathfuncset_t :=
  match xs with
  | [] => ([], st)
  | x :: xs' =>
      let (y, st1) := run_math_func x st in
      let (ys, st2) := run_math_samples xs' st1 in
      (y :: ys, st2)
  end.

(** A peak-hold block whose counter is below the number of samples it was
    created for. *)
Definition holding (st : mathfuncset_t) : Prop :=
  func st = Some MATH_FUNC_PK_HOLD
  /\ 1 <= pk_hold_smpls_set st
  /\ 0 <= pk_hold_smpl_cntr st < pk_hold_smpls_set st.

End MathFunc.

(** ** The filters [setup_viewbuf] drives but does not define

    First-order, spike, moving-average, FIR, fidlib, powerline and ECG
    filters, [dblcmp] and the FFT are defined in files that are not part of
    the sources at hand.  [setup_viewbuf] is embedded over this interface:
    each filter is a state with the operations the code calls, an operation
    that changes the filter returning the filter afterwards. *)
Class FilterLib := {
  (** [filter.c]: the first-order filter and the fields the code reads. *)
  first_order_filter_t : Type;
  cutoff_frequency : first_order_filter_t -> double;
  old_input : first_order_filter_t -> double;
  old_output : first_order_filter_t -> double;
  first_order_filter :
    double -> first_order_filter_t -> double * first_order_filter_t;
  (** [spike_filter.c] *)
  spikefiltset_t : Type;
  run_spike_filter : double -> spikefiltset_t -> double * spikefiltset_t;
  spike_filter_save_buf : spikefiltset_t -> spikefiltset_t;
  (** [ravg_filter.c]; [ravg_size] is the field [size]. *)
  ravgfiltset_t : Type;
  ravg_size : ravgfiltset_t -> Z;
  run_ravg_filter : double -> ravgfiltset_t -> double * ravgfiltset_t;
  reset_ravg_filter : double -> ravgfiltset_t -> ravgfiltset_t;
  ravg_filter_save_buf : ravgfiltset_t -> ravgfiltset_t;
  (** [fir_filter.c] *)
  firfiltset_t : Type;
  fir_filter_size : firfiltset_t -> Z;
  run_fir_filter : double -> firfiltset_t -> double * firfiltset_t;
  fir_filter_save_buf : firfiltset_t -> firfiltset_t;
  (** fidlib: a run buffer and the call [fidfuncp[j](fidbuf[j], v)]. *)
  fidbuf_t : Type;
  fidfuncp : fidbuf_t -> double -> double * fidbuf_t;
  (** [plif_ecg_subtract_filter.c], [plif_eeg_subtract_filter.c] *)
  plifecgfiltset_t : Type;
  plif_ecg_run_subtract_filter :
    double -> plifecgfiltset_t -> double * plifecgfiltset_t;
  plifeegfiltset_t : Type;
  plif_eeg_run_subtract_filter :
    double -> plifeegfiltset_t -> double * plifeegfiltset_t;
  (** [ecg_filter.c] *)
  ecgfiltset_t : Type;
  reset_ecg_filter : ecgfiltset_t -> ecgfiltset_t;
  run_ecg_filter : double -> ecgfiltset_t -> double * ecgfiltset_t;
  ecg_filter_save_buf : ecgfiltset_t -> ecgfiltset_t;
  (** What [z_ratio_filter.c] calls. *)
  dblcmp : double -> double -> Z;
  kiss_fftr : Z -> list double -> list ZRatio.kiss_fft_cpx;
  splice_bytes : Z -> double -> double -> double
}.

(** ** The view buffer: [viewbuf.cpp] *)
Module ViewBuf.

Definition TIME_FIXP_SCALING : Z := 10000000.
Definition UINT_MAX : Z := 4294967295.

(** A byte of allocated memory: [malloc] leaves it indeterminate. *)
Inductive cell := Undef | Byte (b : Z).

(** An open stream: the bytes of the file and the file position. *)
Record stream := mk_stream {
  content : list Z;
  fpos : Z
}.

(** The texts of the error dialogs: the memory limit (either platform), the
    two allocation failures, and "A read error occurred." with its number. *)
Inductive message :=
  | msg_memory_limit
  | msg_alloc_prefilterbuf
  | msg_alloc_resources
  | msg_read_error (n : Z).

(** What the function asks of the window system and of the C library.
    [remove_all_signals] is a method of the window that is defined outside
    the sources at hand: the call is recorded, what it does is not
    modelled (every call is followed by [return]). *)
Inductive event :=
  | QMessageBox_critical (text : message)
  | remove_all_signals
  | fseeko_call (hdl : Z) (pos : Z)
  | fread_call (hdl : Z) (size : Z) (ok : bool).

(** The fields of [edfparamblock] and [edfhdrblock] the function uses. *)
Record edfparamblock := mk_edfparam {
  smp_per_record : Z;
  datrec_offset : Z;
  offset : double;
  sf_f : double
}.

Record edfhdrblock := mk_edfhdr {
  file_hdl : Z;
  viewtime : Z;
  prefiltertime : Z;
  long_data_record_duration : Z;
  recordsize : Z;
  hdrsize : Z;
  datarecords : Z;
  bdf : bool;
  edf : bool;
  edfparam : list edfparamblock
}.

Definition set_prefiltertime (v : Z)
    (c : edfhdrblock) : edfhdrblock :=
  mk_edfhdr (file_hdl c) (viewtime c) v (long_data_record_duration c)
    (recordsize c) (hdrsize c) (datarecords c) (bdf c) (edf c) (edfparam c).

(** The course of the function: [Next] where it goes on, [Return] where it
    returns early, each with the state at that point. *)
Inductive flow (A : Type) :=
  | Next (a : A)
  | Return (a : A).
Arguments Next {A} a.
Arguments Return {A} a.

(** The state as the function leaves it, whichever way. *)
Definition final {A : Type} (r : flow A) : A :=
  match r with
  | Next a => a
  | Return a => a
  end.

(** [r; k]: [k] runs unless [r] returned from the function. *)
Definition and_then {A B : Type} (r : flow A) (k : A -> flow B) (early : A -> B)
    : flow B :=
  match r with
  | Next a => k a
  | Return a => Return (early a)
  end.

Section Window.

Context {FL : FilterLib}.

(** A fidlib filter of a composition: entry [k] of the arrays
    [fidfilter_order], [fidfilter_freq], [fidbuf] and [fidbuf2]. *)
Record fidfilter_t := mk_fidfilter {
  fidfilter_order : Z;
  fidfilter_freq : double;
  fidbuf : fidbuf_t;
  fidbuf2 : fidbuf_t
}.

(** [signalcompblock]: the fields the function uses.  [edfhdr] is a pointer
    to a header, here its index in [edfheaderlist]; [edfparam_0] points to
    the parameters of the first signal, which nothing changes; an array and
    its count ([filter] and [filter_cnt], ...) are a list and its length. *)
Record signalcompblock := mk_signalcomp {
  edfhdr : nat;
  edfparam_0 : edfparamblock;
  edfsignal : list Z;
  factor : list double;
  spike_filter : option spikefiltset_t;
  math_func_before : list MathFunc.mathfuncset_t;
  filter : list first_order_filter_t;
  filterpreset_a : list double;
  filterpreset_b : list double;
  ravg_filter : list ravgfiltset_t;
  fidfilter : list fidfilter_t;
  fir_filter : list firfiltset_t;
  math_func_after : list MathFunc.mathfuncset_t;
  plif_ecg_filter : option plifecgfiltset_t;
  plif_ecg_filter_sav : option plifecgfiltset_t;
  plif_eeg_filter : option plifeegfiltset_t;
  plif_eeg_filter_sav : option plifeegfiltset_t;
  ecg_filter : option ecgfiltset_t;
  zratio_filter : option ZRatio.zratiofiltset_t;
  records_in_viewbuf : Z;
  viewbufsize : Z;
  viewbufoffset : Z;
  samples_in_prefilterbuf : Z;
  prefilter_starttime : Z;
  prefilter_reset_sample : Z;
  samples_on_screen : Z;
  sample_start : Z;
  sample_stop : Z;
  sample_timeoffset : Z;
  sample_timeoffset_part : double
}.

Definition num_of_signals (c : signalcompblock) : Z := Z.of_nat (length (edfsignal c)).

(** The assignments of the first planning loop. *)
Definition set_prefilter_plan (riv : Z) (size : Z) (off : Z) (smpls : Z)
    (c : signalcompblock) : signalcompblock :=
  mk_signalcomp (edfhdr c) (edfparam_0 c) (edfsignal c) (factor c)
    (spike_filter c) (math_func_before c) (filter c) (filterpreset_a c)
    (filterpreset_b c) (ravg_filter c) (fidfilter c) (fir_filter c)
    (math_func_after c) (plif_ecg_filter c) (plif_ecg_filter_sav c)
    (plif_eeg_filter c) (plif_eeg_filter_sav c) (ecg_filter c)
    (zratio_filter c) riv size off smpls (prefilter_starttime c)
    (prefilter_reset_sample c) (samples_on_screen c) (sample_start c)
    (sample_stop c) (sample_timeoffset c) (sample_timeoffset_part c).

Definition set_viewbufsize (size : Z)
    (c : signalcompblock) : signalcompblock :=
  mk_signalcomp (edfhdr c) (edfparam_0 c) (edfsignal c) (factor c)
    (spike_filter c) (math_func_before c) (filter c) (filterpreset_a c)
    (filterpreset_b c) (ravg_filter c) (fidfilter c) (fir_filter c)
    (math_func_after c) (plif_ecg_filter c) (plif_ecg_filter_sav c)
    (plif_eeg_filter c) (plif_eeg_filter_sav c) (ecg_filter c)
    (zratio_filter c) (records_in_viewbuf c) size (viewbufoffset c)
    (samples_in_prefilterbuf c) (prefilter_starttime c)
    (prefilter_reset_sample c) (samples_on_screen c) (sample_start c)
    (sample_stop c) (sample_timeoffset c) (sample_timeoffset_part c).

Definition set_prefilter_starttime (v : Z)
    (c : signalcompblock) : signalcompblock :=
  mk_signalcomp (edfhdr c) (edfparam_0 c) (edfsignal c) (factor c)
    (spike_filter c) (math_func_before c) (filter c) (filterpreset_a c)
    (filterpreset_b c) (ravg_filter c) (fidfilter c) (fir_filter c)
    (math_func_after c) (plif_ecg_filter c) (plif_ecg_filter_sav c)
    (plif_eeg_filter c) (plif_eeg_filter_sav c) (ecg_filter c)
    (zratio_filter c) (records_in_viewbuf c) (viewbufsize c)
    (viewbufoffset c) (samples_in_prefilterbuf c) v
    (prefilter_reset_sample c) (samples_on_screen c) (sample_start c)
    (sample_stop c) (sample_timeoffset c) (sample_timeoffset_part c).

Definition set_prefilter_reset_sample (v : Z)
    (c : signalcompblock) : signalcompblock :=
  mk_signalcomp (edfhdr c) (edfparam_0 c) (edfsignal c) (factor c)
    (spike_filter c) (math_func_before c) (filter c) (filterpreset_a c)
    (filterpreset_b c) (ravg_filter c) (fidfilter c) (fir_filter c)
    (math_func_after c) (plif_ecg_filter c) (plif_ecg_filter_sav c)
    (plif_eeg_filter c) (plif_eeg_filter_sav c) (ecg_filter c)
    (zratio_filter c) (records_in_viewbuf c) (viewbufsize c)
    (viewbufoffset c) (samples_in_prefilterbuf c) (prefilter_starttime c) v
    (samples_on_screen c) (sample_start c) (sample_stop c)
    (sample_timeoffset c) (sample_timeoffset_part c).

(** The assignments of the second planning loop. *)
Definition set_view_plan (riv : Z) (size : Z) (off : Z) (sos : Z) (start : Z) (toff : Z) (tpart : double)
    (c : signalcompblock) : signalcompblock :=
  mk_signalcomp (edfhdr c) (edfparam_0 c) (edfsignal c) (factor c)
    (spike_filter c) (math_func_before c) (filter c) (filterpreset_a c)
    (filterpreset_b c) (ravg_filter c) (fidfilter c) (fir_filter c)
    (math_func_after c) (plif_ecg_filter c) (plif_ecg_filter_sav c)
    (plif_eeg_filter c) (plif_eeg_filter_sav c) (ecg_filter c)
    (zratio_filter c) riv size off (samples_in_prefilterbuf c)
    (prefilter_starttime c) (prefilter_reset_sample c) sos start
    (sample_stop c) toff tpart.

Definition set_sample_stop (v : Z)
    (c : signalcompblock) : signalcompblock :=
  mk_signalcomp (edfhdr c) (edfparam_0 c) (edfsignal c) (factor c)
    (spike_filter c) (math_func_before c) (filter c) (filterpreset_a c)
    (filterpreset_b c) (ravg_filter c) (fidfilter c) (fir_filter c)
    (math_func_after c) (plif_ecg_filter c) (plif_ecg_filter_sav c)
    (plif_eeg_filter c) (plif_eeg_filter_sav c) (ecg_filter c)
    (zratio_filter c) (records_in_viewbuf c) (viewbufsize c)
    (viewbufoffset c) (samples_in_prefilterbuf c) (prefilter_starttime c)
    (prefilter_reset_sample c) (samples_on_screen c) (sample_start c) v
    (sample_timeoffset c) (sample_timeoffset_part c).

Definition set_ravg_filter (v : list ravgfiltset_t)
    (c : signalcompblock) : signalcompblock :=
  mk_signalcomp (edfhdr c) (edfparam_0 c) (edfsignal c) (factor c)
    (spike_filter c) (math_func_before c) (filter c) (filterpreset_a c)
    (filterpreset_b c) v (fidfilter c) (fir_filter c) (math_func_after c)
    (plif_ecg_filter c) (plif_ecg_filter_sav c) (plif_eeg_filter c)
    (plif_eeg_filter_sav c) (ecg_filter c) (zratio_filter c)
    (records_in_viewbuf c) (viewbufsize c) (viewbufoffset c)
    (samples_in_prefilterbuf c) (prefilter_starttime c)
    (prefilter_reset_sample c) (samples_on_screen c) (sample_start c)
    (sample_stop c) (sample_timeoffset c) (sample_timeoffset_part c).

(** The filters before the ECG filter, after a sample went through them. *)
Definition set_front_filters (sp : option spikefiltset_t) (mb : list MathFunc.mathfuncset_t) (fo : list first_order_filter_t) (ra : list ravgfiltset_t) (fi : list fidfilter_t) (fr : list firfiltset_t) (ma : list MathFunc.mathfuncset_t) (pe : option plifecgfiltset_t) (pg : option plifeegfiltset_t)
    (c : signalcompblock) : signalcompblock :=
  mk_signalcomp (edfhdr c) (edfparam_0 c) (edfsignal c) (factor c) sp mb fo
    (filterpreset_a c) (filterpreset_b c) ra fi fr ma pe
    (plif_ecg_filter_sav c) pg (plif_eeg_filter_sav c) (ecg_filter c)
    (zratio_filter c) (records_in_viewbuf c) (viewbufsize c)
    (viewbufoffset c) (samples_in_prefilterbuf c) (prefilter_starttime c)
    (prefilter_reset_sample c) (samples_on_screen c) (sample_start c)
    (sample_stop c) (sample_timeoffset c) (sample_timeoffset_part c).

Definition set_ecg_filter (v : option ecgfiltset_t)
    (c : signalcompblock) : signalcompblock :=
  mk_signalcomp (edfhdr c) (edfparam_0 c) (edfsignal c) (factor c)
    (spike_filter c) (math_func_before c) (filter c) (filterpreset_a c)
    (filterpreset_b c) (ravg_filter c) (fidfilter c) (fir_filter c)
    (math_func_after c) (plif_ecg_filter c) (plif_ecg_filter_sav c)
    (plif_eeg_filter c) (plif_eeg_filter_sav c) v (zratio_filter c)
    (records_in_viewbuf c) (viewbufsize c) (viewbufoffset c)
    (samples_in_prefilterbuf c) (prefilter_starttime c)
    (prefilter_reset_sample c) (samples_on_screen c) (sample_start c)
    (sample_stop c) (sample_timeoffset c) (sample_timeoffset_part c).

Definition set_zratio_filter (v : option ZRatio.zratiofiltset_t)
    (c : signalcompblock) : signalcompblock :=
  mk_signalcomp (edfhdr c) (edfparam_0 c) (edfsignal c) (factor c)
    (spike_filter c) (math_func_before c) (filter c) (filterpreset_a c)
    (filterpreset_b c) (ravg_filter c) (fidfilter c) (fir_filter c)
    (math_func_after c) (plif_ecg_filter c) (plif_ecg_filter_sav c)
    (plif_eeg_filter c) (plif_eeg_filter_sav c) (ecg_filter c) v
    (records_in_viewbuf c) (viewbufsize c) (viewbufoffset c)
    (samples_in_prefilterbuf c) (prefilter_starttime c)
    (prefilter_reset_sample c) (samples_on_screen c) (sample_start c)
    (sample_stop c) (sample_timeoffset c) (sample_timeoffset_part c).

(** The filters of a composition after their state was saved. *)
Definition set_saved_filters (sp : option spikefiltset_t) (pa : list double) (pb : list double) (ra : list ravgfiltset_t) (fi : list fidfilter_t) (fr : list firfiltset_t) (pe : option plifecgfiltset_t) (pg : option plifeegfiltset_t) (ec : option ecgfiltset_t) (zr : option ZRatio.zratiofiltset_t)
    (c : signalcompblock) : signalcompblock :=
  mk_signalcomp (edfhdr c) (edfparam_0 c) (edfsignal c) (factor c) sp
    (math_func_before c) (filter c) pa pb ra fi fr (math_func_after c)
    (plif_ecg_filter c) pe (plif_eeg_filter c) pg ec zr
    (records_in_viewbuf c) (viewbufsize c) (viewbufoffset c)
    (samples_in_prefilterbuf c) (prefilter_starttime c)
    (prefilter_reset_sample c) (samples_on_screen c) (sample_start c)
    (sample_stop c) (sample_timeoffset c) (sample_timeoffset_part c).

(** [UI_Mainwindow]: the fields the function uses, the open streams and the
    calls made so far.  [files_open] and [signalcomps] are the lengths of
    [edfheaderlist] and [signalcomp]; [viewbuf] is [None] for [NULL]. *)
Record window := mk_window {
  edfheaderlist : list edfhdrblock;
  signalcomp : list signalcompblock;
  viewbuf : option (list cell);
  totalviewbufsize_bytes : Z;
  pagetime : Z;
  live_stream_active : bool;
  files : gmap Z stream;
  events : list event
}.

Definition set_edfheaderlist (v : list edfhdrblock)
    (c : window) : window :=
  mk_window v (signalcomp c) (viewbuf c) (totalviewbufsize_bytes c)
    (pagetime c) (live_stream_active c) (files c) (events c).

Definition set_signalcomp (v : list signalcompblock)
    (c : window) : window :=
  mk_window (edfheaderlist c) v (viewbuf c) (totalviewbufsize_bytes c)
    (pagetime c) (live_stream_active c) (files c) (events c).

Definition set_viewbuf (v : option (list cell)) (n : Z)
    (c : window) : window :=
  mk_window (edfheaderlist c) (signalcomp c) v n (pagetime c)
    (live_stream_active c) (files c) (events c).

Definition set_pagetime (v : Z)
    (c : window) : window :=
  mk_window (edfheaderlist c) (signalcomp c) (viewbuf c)
    (totalviewbufsize_bytes c) v (live_stream_active c) (files c) (events c).

Definition set_live_stream_active (v : bool)
    (c : window) : window :=
  mk_window (edfheaderlist c) (signalcomp c) (viewbuf c)
    (totalviewbufsize_bytes c) (pagetime c) v (files c) (events c).

Definition set_files (v : gmap Z stream)
    (c : window) : window :=
  mk_window (edfheaderlist c) (signalcomp c) (viewbuf c)
    (totalviewbufsize_bytes c) (pagetime c) (live_stream_active c) v
    (events c).

Definition set_events (v : list event)
    (c : window) : window :=
  mk_window (edfheaderlist c) (signalcomp c) (viewbuf c)
    (totalviewbufsize_bytes c) (pagetime c) (live_stream_active c) (files c)
    v.

(** The platform: whether the build is a 64-bit one ([__LP64__] or
    [__MINGW64__]), and the sizes [malloc] cannot provide. *)
Variable lp64 : bool.
Variable malloc_fails : Z -> bool.

(** *** Pointers, loops and early return *)

Definition null_hdr : edfhdrblock := mk_edfhdr 0 0 0 0 0 0 0 false false [].
Definition null_param : edfparamblock := mk_edfparam 0 0 Dbl.zero Dbl.zero.

(** [c->edfhdr]; a pointer to no header of the list is not modelled. *)
Definition hdr_of (hdrs : list edfhdrblock) (c : signalcompblock) : edfhdrblock :=
  default null_hdr (hdrs !! edfhdr c).

Definition log (e : event) (w : window) : window :=
  set_events (events w ++ [e]) w.

(** The search [for(j=0; j<i; j++)] for an earlier composition on the same
    open file: [done] are the compositions before [c], in order. *)
Definition shares_file (hdrs : list edfhdrblock) (c d : signalcompblock) : bool :=
  file_hdl (hdr_of hdrs c) =? file_hdl (hdr_of hdrs d).

Definition earlier_on_file (hdrs : list edfhdrblock)
    (done : list signalcompblock) (c : signalcompblock) : option signalcompblock :=
  List.find (shares_file hdrs c) done.

(** A loop over the compositions that changes the current one and a state
    [S]: the body sees the compositions before the current one as the loop
    left them. *)
Fixpoint for_comps {S : Type}
    (body : list signalcompblock -> signalcompblock -> S -> signalcompblock * S)
    (done todo : list signalcompblock) (s : S) : list signalcompblock * S :=
  match todo with
  | [] => (done, s)
  | c :: todo =>
      let '(c, s) := body done c s in
      for_comps body (done ++ [c]) todo s
  end.

(** The same with a body that may [return] from the function. *)
Fixpoint for_comps_return {S : Type}
    (body : list signalcompblock -> signalcompblock -> S -> flow (signalcompblock * S))
    (done todo : list signalcompblock) (s : S) : flow (list signalcompblock * S) :=
  match todo with
  | [] => Next (done, s)
  | c :: todo =>
      match body done c s with
      | Next (c, s) => for_comps_return body (done ++ [c]) todo s
      | Return (c, s) => Return (done ++ c :: todo, s)
      end
  end.

Definition nonnull {A : Type} (p : option A) : bool :=
  match p with Some _ => true | None => false end.

(** A count that is not zero. *)
Definition cnt {A : Type} (l : list A) : bool :=
  match l with [] => false | _ => true end.

(** *** Memory and streams *)

Definition malloc (n : Z) : list cell := replicate (Z.to_nat n) Undef.

(** A store of [data] at [viewbuf + off]; a store through [NULL] or past
    the end of the block is not modelled. *)
Definition store (off : Z) (data : list cell) (buf : list cell) : list cell :=
  take (Z.to_nat off) buf ++ data ++ drop (Z.to_nat off + length data) buf.

Definition store_viewbuf (off : Z) (data : list cell) (w : window) : window :=
  match viewbuf w with
  | Some buf => set_viewbuf (Some (store off data buf)) (totalviewbufsize_bytes w) w
  | None => w
  end.

(** [memset(viewbuf + off, 0, n)]. *)
Definition memset0 (off n : Z) (w : window) : window :=
  store_viewbuf off (replicate (Z.to_nat n) (Byte 0)) w.

(** [fseeko(hdl, pos, SEEK_SET)]: a negative position is refused and the
    stream stays where it is; the function never looks at the result. *)
Definition fseeko (hdl pos : Z) (w : window) : window :=
  let w := log (fseeko_call hdl pos) w in
  match files w !! hdl with
  | Some f =>
      if pos <? 0 then w
      else set_files (<[hdl := mk_stream (content f) pos]> (files w)) w
  | None => w
  end.

(** The bytes a read of [size] bytes finds at the position of a stream. *)
Definition bytes_at (f : stream) (size : Z) : list Z :=
  take (Z.to_nat size) (drop (Z.to_nat (fpos f)) (content f)).

(** [fread(viewbuf + off, size, 1, hdl) == 1]: one item of [size] bytes.  The
    result is 1 when the item is read whole; a [size] of 0 reads nothing
    and gives 0; a short read stores the bytes there are. *)
Definition fread (off size hdl : Z) (w : window) : bool * window :=
  match files w !! hdl with
  | Some f =>
      let data := bytes_at f size in
      let ok := (0 <? size) && (Z.of_nat (length data) =? size) in
      let w := store_viewbuf off (map Byte data) w in
      let w := set_files
                 (<[hdl := mk_stream (content f) (fpos f + Z.of_nat (length data))]>
                    (files w)) w in
      (ok, log (fread_call hdl size ok) w)
  | None => (false, log (fread_call hdl size false) w)
  end.

(** *** The required warm-up time *)

(** [if(pre_time < t) pre_time = t;] *)
Definition raise_to (t pre_time : double) : double :=
  if Dbl.ltb pre_time t then t else pre_time.

(** A composition with a filter that has a state: the condition of lines
    175-177, whose negation is the one of lines 389-391. *)
Definition has_filters (c : signalcompblock) : bool :=
  cnt (filter c) || nonnull (spike_filter c) || cnt (ravg_filter c)
  || cnt (fidfilter c) || cnt (fir_filter c) || nonnull (plif_ecg_filter c)
  || nonnull (plif_eeg_filter c) || nonnull (ecg_filter c)
  || nonnull (zratio_filter c).

(** The turn of the first loop for one composition: [pre_time] and
    [hasprefilter] afterwards, and the composition with its moving-average
    filters reset. *)
Definition pre_time_step (acc : double * bool) (c : signalcompblock)
    : double * bool * signalcompblock :=
  let '(pre_time, hasprefilter) := acc in
  let sf := sf_f (edfparam_0 c) in
  let pre_time :=
    fold_left
      (fun pt f => raise_to (Dbl.div (Dbl.of_Z 1) (cutoff_frequency f)) pt)
      (filter c) pre_time in
  let pre_time :=
    if nonnull (spike_filter c) then raise_to (Dbl.of_Z 5) pre_time else pre_time in
  let pre_time :=
    if nonnull (plif_ecg_filter c) then raise_to (Dbl.of_Z 2) pre_time else pre_time in
  let pre_time :=
    if nonnull (plif_eeg_filter c) then raise_to (Dbl.of_Z 1) pre_time else pre_time in
  let pre_time :=
    fold_left
      (fun pt f => raise_to (Dbl.div (Dbl.of_Z (ravg_size f + 3)) sf) pt)
      (ravg_filter c) pre_time in
  let c := set_ravg_filter (map (reset_ravg_filter Dbl.zero) (ravg_filter c)) c in
  let pre_time :=
    fold_left
      (fun pt f => raise_to (Dbl.div (Dbl.of_Z (fir_filter_size f + 3)) sf) pt)
      (fir_filter c) pre_time in
  let pre_time :=
    if nonnull (ecg_filter c) then raise_to (Dbl.of_Z 10) pre_time else pre_time in
  let pre_time :=
    if nonnull (zratio_filter c) then raise_to (Dbl.of_Z 4) pre_time else pre_time in
  let pre_time :=
    fold_left
      (fun pt f =>
         raise_to (Dbl.div (Dbl.mul (Dbl.of_Z 2) (Dbl.of_Z (fidfilter_order f)))
                           (fidfilter_freq f)) pt)
      (fidfilter c) pre_time in
  (pre_time, hasprefilter || has_filters c, c).

Definition pre_time_loop (comps : list signalcompblock)
    : list signalcompblock * (double * bool) :=
  for_comps (fun _ c acc => let '(acc, c) := pre_time_step acc c in (c, acc))
    [] comps (Dbl.zero, false).

(** Lines 179-184: the warm-up time of a recording, from [pre_time] and the
    view time. *)
Definition clamp_prefiltertime (pre_time : double) (viewtime : Z) : Z :=
  let t := Dbl.cast_ll (Dbl.mul pre_time (Dbl.of_Z TIME_FIXP_SCALING)) in
  if viewtime <? t then (if viewtime <? 0 then 0 else viewtime) else t.

Definition set_prefiltertimes (pre_time : double)
    (comps : list signalcompblock) (hdrs : list edfhdrblock) : list edfhdrblock :=
  fold_left
    (fun hdrs c =>
       if has_filters c
       then <[edfhdr c :=
               set_prefiltertime
                 (clamp_prefiltertime pre_time (viewtime (hdr_of hdrs c)))
                 (hdr_of hdrs c)]> hdrs
       else hdrs)
    comps hdrs.

(** *** The warm-up buffer *)

(** [(int)(((double)t / (double)d) * (double)n)]: the samples, out of the
    [n] of a record of duration [d], that lie in the time [t]. *)
Definition samples_in (t d n : Z) : Z :=
  Dbl.cast_int (Dbl.mul (Dbl.div (Dbl.of_Z t) (Dbl.of_Z d)) (Dbl.of_Z n)).

(** The first planning loop (lines 190-238), one composition. *)
Definition plan_prefilter_step (hdrs : list edfhdrblock)
    (done : list signalcompblock) (c : signalcompblock) (totalsize : Z)
    : signalcompblock * Z :=
  let h := hdr_of hdrs c in
  let d := long_data_record_duration h in
  let spr := smp_per_record (edfparam_0 c) in
  let riv :=
    if prefiltertime h =? 0 then 0
    else Z.quot (viewtime h) d - Z.quot (viewtime h - prefiltertime h) d + 1 in
  let size := riv * recordsize h in
  let smpls :=
    if prefiltertime h =? 0 then 0
    else (riv - 1) * spr + samples_in (Z.rem (viewtime h) d) d spr in
  match done with
  | [] => (set_prefilter_plan riv size 0 smpls c, size)
  | _ =>
      match earlier_on_file hdrs done c with
      | Some e =>
          (set_prefilter_plan (records_in_viewbuf e) (viewbufsize e)
             (viewbufoffset e) smpls c, totalsize)
      | None => (set_prefilter_plan riv size totalsize smpls c, totalsize + size)
      end
  end.

Definition capacity_ceiling : Z := if lp64 then UINT_MAX * 32 else UINT_MAX.

(** What every error path does before it returns. *)
Definition report_error (m : message) (w : window) : window :=
  log remove_all_signals
    (log (QMessageBox_critical m) (set_live_stream_active false w)).

(** [if(pagetime > TIME_FIXP_SCALING) pagetime = TIME_FIXP_SCALING;] *)
Definition clamp_pagetime (w : window) : window :=
  if TIME_FIXP_SCALING <? pagetime w then set_pagetime TIME_FIXP_SCALING w else w.

(** [free(viewbuf)] when it is not [NULL]. *)
Definition free_viewbuf (w : window) : window :=
  match viewbuf w with
  | Some _ => set_viewbuf None 0 w
  | None => w
  end.

(** The capacity check and the allocation, which both phases make:
    [m] is the text of a failed allocation. *)
Definition allocate (m : message) (totalsize : Z) (w : window) : flow window :=
  if capacity_ceiling <=? totalsize
  then Return (clamp_pagetime (report_error msg_memory_limit w))
  else if malloc_fails totalsize
  then Return (clamp_pagetime
                 (set_viewbuf None 0 (report_error m w)))
  else Next (set_viewbuf (Some (malloc totalsize)) totalsize w).

(** The loop that reads the warm-up records (lines 283-347), one
    composition: only the first composition on a file reads. *)
Definition read_prefilter_step (done : list signalcompblock)
    (c : signalcompblock) (w : window) : flow (signalcompblock * window) :=
  let hdrs := edfheaderlist w in
  let h := hdr_of hdrs c in
  let first_on_file :=
    match done with
    | [] => true
    | _ => negb (nonnull (earlier_on_file hdrs done c))
    end in
  if first_on_file then
    let datarecs :=
      Z.quot (viewtime h - prefiltertime h) (long_data_record_duration h) in
    let c := set_prefilter_starttime (datarecs * long_data_record_duration h) c in
    if (0 <? viewbufsize c) && (datarecs <? datarecords h) then
      let w := fseeko (file_hdl h) (hdrsize h + datarecs * recordsize h) w in
      let c :=
        if (datarecords h - datarecs) * recordsize h <? viewbufsize c
        then set_viewbufsize ((datarecords h - datarecs) * recordsize h) c
        else c in
      let '(ok, w) := fread (viewbufoffset c) (viewbufsize c) (file_hdl h) w in
      if ok then Next (c, w)
      else Return (c, report_error (msg_read_error (match done with [] => 2 | _ => 3 end)) w)
    else Next (c, w)
  else Next (c, w).

(** Lines 349-385: the sample of the warm-up at which the Z-ratio filter is
    reset, from the time at which the warm-up buffer starts. *)
Definition zratio_reset_sample (starttime d spr : Z) : Z :=
  let l_temp := Z.rem starttime (TIME_FIXP_SCALING * 2) in
  if l_temp =? 0 then 0
  else
    let temp := wrap_int (TIME_FIXP_SCALING * 2 - l_temp) in
    let l_temp := temp in
    Z.quot l_temp d * spr + samples_in (Z.rem l_temp d) d spr.

Definition reset_sample_step (hdrs : list edfhdrblock) (c : signalcompblock)
    : signalcompblock :=
  if nonnull (zratio_filter c)
  then set_prefilter_reset_sample
         (zratio_reset_sample (prefilter_starttime c)
            (long_data_record_duration (hdr_of hdrs c))
            (smp_per_record (edfparam_0 c))) c
  else c.
(** *** The warm-up of the filters (lines 387-509) *)

(** [viewbuf[pos]]; a byte that was never stored, or one outside the block,
    is indeterminate in C and reads as 0 here. *)
Definition byte_at (w : window) (pos : Z) : Z :=
  match viewbuf w with
  | Some buf =>
      if pos <? 0 then 0
      else match buf !! Z.to_nat pos with
           | Some (Byte b) => b
           | _ => 0
           end
  | None => 0
  end.

(** The three bytes of a BDF sample, sign-extended through the union. *)
Definition bdf_sample (w : window) (pos : Z) : Z :=
  let v := byte_at w pos + 256 * byte_at w (pos + 1) + 65536 * byte_at w (pos + 2) in
  if Z.land (byte_at w (pos + 2)) 128 =? 0 then v else v - 16777216.

(** The two bytes of an EDF sample, read as a [short]. *)
Definition edf_sample (w : window) (pos : Z) : Z :=
  let v := byte_at w pos + 256 * byte_at w (pos + 1) in
  if v <? 32768 then v else v - 65536.

(** One turn of [for(k=0; k<num_of_signals; k++)] at sample [s]: [dig_value]
    and [d_temp] afterwards. *)
Definition add_signal (w : window) (c : signalcompblock) (s : Z)
    (acc : double * double) (k : Z) : double * double :=
  let '(dig_value, d_temp) := acc in
  let h := hdr_of (edfheaderlist w) c in
  let p := default null_param
             (edfparam h !! Z.to_nat (default 0 (edfsignal c !! Z.to_nat k))) in
  let rec_start :=
    viewbufoffset c + recordsize h * Z.quot s (smp_per_record p) + datrec_offset p in
  let d_temp :=
    if bdf h
    then Dbl.of_Z (bdf_sample w (rec_start + Z.rem s (smp_per_record p) * 3))
    else d_temp in
  let d_temp :=
    if edf h
    then Dbl.of_Z (edf_sample w (rec_start + 2 * Z.rem s (smp_per_record p)))
    else d_temp in
  let d_temp := Dbl.add d_temp (offset p) in
  let d_temp := Dbl.mul d_temp (default Dbl.zero (factor c !! Z.to_nat k)) in
  (Dbl.add dig_value d_temp, d_temp).

(** A sample through the filters of one kind, in order. *)
Fixpoint run_chain {F : Type} (run : double -> F -> double * F)
    (fs : list F) (v : double) : double * list F :=
  match fs with
  | [] => (v, [])
  | f :: fs =>
      let '(v, f) := run v f in
      let '(v, fs) := run_chain run fs v in
      (v, f :: fs)
  end.

(** A sample through a filter that may be absent. *)
Definition run_opt {F : Type} (run : double -> F -> double * F)
    (f : option F) (v : double) : double * option F :=
  match f with
  | Some f => let '(v, f) := run v f in (v, Some f)
  | None => (v, None)
  end.

Definition run_fidfilter (v : double) (f : fidfilter_t) : double * fidfilter_t :=
  let '(v, b) := fidfuncp (fidbuf f) v in
  (v, mk_fidfilter (fidfilter_order f) (fidfilter_freq f) b (fidbuf2 f)).

(** Lines 395-487: the sample [s] of the warm-up buffer, summed over the
    signals and sent through the filters before the ECG filter. *)
Definition front_stage (w : window) (c : signalcompblock) (d_temp : double)
    (s : Z) : double * signalcompblock * double :=
  let '(dig_value, d_temp) :=
    fold_left (add_signal w c s) (upto (num_of_signals c)) (Dbl.zero, d_temp) in
  let '(v, sp) := run_opt run_spike_filter (spike_filter c) dig_value in
  let '(v, mb) := run_chain MathFunc.run_math_func (math_func_before c) v in
  let '(v, fo) := run_chain first_order_filter (filter c) v in
  let '(v, ra) := run_chain run_ravg_filter (ravg_filter c) v in
  let '(v, fi) := run_chain run_fidfilter (fidfilter c) v in
  let '(v, fr) := run_chain run_fir_filter (fir_filter c) v in
  let '(v, ma) := run_chain MathFunc.run_math_func (math_func_after c) v in
  let '(v, pe) := run_opt plif_ecg_run_subtract_filter (plif_ecg_filter c) v in
  let '(v, pg) := run_opt plif_eeg_run_subtract_filter (plif_eeg_filter c) v in
  (v, set_front_filters sp mb fo ra fi fr ma pe pg c, d_temp).

(** Lines 489-497. *)
Definition ecg_stage (s : Z) (v : double) (c : signalcompblock)
    : double * signalcompblock :=
  match ecg_filter c with
  | Some e =>
      let e := if s =? 0 then reset_ecg_filter e else e in
      let '(v, e) := run_ecg_filter v e in
      (v, set_ecg_filter (Some e) c)
  | None => (v, c)
  end.

(** Lines 499-507. *)
Definition zratio_stage (s : Z) (v : double) (c : signalcompblock)
    : double * signalcompblock :=
  match zratio_filter c with
  | Some z =>
      let z := if s =? prefilter_reset_sample c
               then ZRatio.reset_zratio_filter z else z in
      let '(v, z) := ZRatio.run_zratio_filter dblcmp kiss_fftr v z in
      (v, set_zratio_filter (Some z) c)
  | None => (v, c)
  end.

(** One turn of [for(s=0; s<samples_in_prefilterbuf; s++)]. *)
Definition warmup_sample (w : window) (acc : signalcompblock * double) (s : Z)
    : signalcompblock * double :=
  let '(c, d_temp) := acc in
  let '(v, c, d_temp) := front_stage w c d_temp s in
  let '(v, c) := ecg_stage s v c in
  let '(v, c) := zratio_stage s v c in
  (c, d_temp).

(** One turn of the loop of lines 387-509. *)
Definition warmup_comp (w : window) (c : signalcompblock) (d_temp : double)
    : signalcompblock * double :=
  if has_filters c
  then fold_left (warmup_sample w) (upto (samples_in_prefilterbuf c)) (c, d_temp)
  else (c, d_temp).

(** Lines 511-561: the state of the filters is saved. *)
Definition save_step (c : signalcompblock) : signalcompblock :=
  if 0 <? samples_in_prefilterbuf c then
    set_saved_filters
      (option_map spike_filter_save_buf (spike_filter c))
      (map old_input (filter c) ++ drop (length (filter c)) (filterpreset_a c))
      (map old_output (filter c) ++ drop (length (filter c)) (filterpreset_b c))
      (map ravg_filter_save_buf (ravg_filter c))
      (map (fun f => mk_fidfilter (fidfilter_order f) (fidfilter_freq f)
                       (fidbuf f) (fidbuf f)) (fidfilter c))
      (map fir_filter_save_buf (fir_filter c))
      (match plif_ecg_filter c with
       | Some f => Some f
       | None => plif_ecg_filter_sav c
       end)
      (match plif_eeg_filter c with
       | Some f => Some f
       | None => plif_eeg_filter_sav c
       end)
      (option_map ecg_filter_save_buf (ecg_filter c))
      (option_map (ZRatio.zratio_filter_save_buf splice_bytes) (zratio_filter c))
      c
  else c.

(** Lines 171-562, the body of [if(hasprefilter)]. *)
Definition warm_up (pre_time : double) (w : window) : flow window :=
  let w := set_edfheaderlist
             (set_prefiltertimes pre_time (signalcomp w) (edfheaderlist w)) w in
  let '(comps, totalsize) :=
    for_comps (plan_prefilter_step (edfheaderlist w)) [] (signalcomp w) 0 in
  let w := free_viewbuf (set_signalcomp comps w) in
  and_then (allocate msg_alloc_prefilterbuf totalsize w)
    (fun w =>
       and_then (for_comps_return read_prefilter_step [] (signalcomp w) w)
         (fun '(comps, w) =>
            let comps := map (reset_sample_step (edfheaderlist w)) comps in
            let '(comps, _) := for_comps (fun _ => warmup_comp w) [] comps Dbl.zero in
            Next (set_signalcomp (map save_step comps) w))
         (fun '(comps, w) => set_signalcomp comps w))
    id.

(** *** The buffer of the page (lines 564-839) *)

Definition half : double := Dbl.div (Dbl.of_Z 1) (Dbl.of_Z 2).

(** [((double)t / (double)d) * (double)n] *)
Definition samples_in_dbl (t d n : Z) : double :=
  Dbl.mul (Dbl.div (Dbl.of_Z t) (Dbl.of_Z d)) (Dbl.of_Z n).

(** Lines 578-595. *)
Definition first_sample (viewtime d spr : Z) : Z :=
  if viewtime <? 0 then
    let start := Dbl.cast_ll (Dbl.add (samples_in_dbl (- viewtime) d spr) half) in
    if 2147483647 <? start then 2147483647 else start
  else 0.

(** Lines 597-620: [sample_timeoffset] and [sample_timeoffset_part]. *)
Definition time_offset (viewtime d spr : Z) : Z * double :=
  if 0 <=? viewtime then
    let part := samples_in_dbl (Z.rem viewtime d) d spr in
    let toff := Dbl.cast_int part in
    (toff, Dbl.sub part (Dbl.of_Z toff))
  else
    let part := samples_in_dbl (Z.rem (- viewtime) d) d spr in
    let toff := Dbl.cast_int part in
    let part := Dbl.sub part (Dbl.of_Z toff) in
    let part := if Dbl.leb half part then Dbl.sub part (Dbl.of_Z 1) else part in
    (0, SFopp part).

(** Lines 568-569: the records the page touches. *)
Definition records_of_page (pagetime viewtime d : Z) : Z :=
  if 0 <=? viewtime
  then Z.quot (pagetime + Z.rem viewtime d) d + 1
  else Z.quot (pagetime + Z.rem (- viewtime) d) d + 1.

(** The second planning loop (lines 566-649), one composition. *)
Definition plan_view_step (hdrs : list edfhdrblock) (pagetime : Z)
    (done : list signalcompblock) (c : signalcompblock) (totalsize : Z)
    : signalcompblock * Z :=
  let h := hdr_of hdrs c in
  let d := long_data_record_duration h in
  let spr := smp_per_record (edfparam_0 c) in
  let riv := records_of_page pagetime (viewtime h) d in
  let size := riv * recordsize h in
  let sos := samples_in pagetime d spr in
  let start := first_sample (viewtime h) d spr in
  let '(toff, tpart) := time_offset (viewtime h) d spr in
  match done with
  | [] => (set_view_plan riv size 0 sos start toff tpart c, size)
  | _ =>
      match earlier_on_file hdrs done c with
      | Some e =>
          (set_view_plan (records_in_viewbuf e) (viewbufsize e) (viewbufoffset e)
             sos start toff tpart c, totalsize)
      | None =>
          (set_view_plan riv size totalsize sos start toff tpart c,
           totalsize + size)
      end
  end.

(** Lines 702-709: the first record of the page. *)
Definition first_record (h : edfhdrblock) : Z :=
  if 0 <=? viewtime h then Z.quot (viewtime h) (long_data_record_duration h) else 0.

(** The loop that fills the buffer (lines 698-839), one composition: a
    composition whose file an earlier one is on ([skip]) neither clears nor
    reads. *)
Definition read_view_step (done : list signalcompblock)
    (c : signalcompblock) (w : window) : flow (signalcompblock * window) :=
  let hdrs := edfheaderlist w in
  let h := hdr_of hdrs c in
  let skip :=
    match done with
    | [] => false
    | _ => nonnull (earlier_on_file hdrs done c)
    end in
  let datarecs := first_record h in
  let dif := datarecords h - datarecs in
  let whole := records_in_viewbuf c * recordsize h in
  let finish c w := Next (set_sample_stop (sample_stop c + sample_start c) c, w) in
  if dif <=? 0 then
    let w := if skip then w else memset0 (viewbufoffset c) whole w in
    finish (set_sample_stop 0 c) w
  else
    let readsize := if dif <? records_in_viewbuf c then dif * recordsize h else whole in
    let w :=
      if (dif <? records_in_viewbuf c) && negb skip
      then memset0 (viewbufoffset c + readsize) (whole - readsize) w
      else w in
    let c :=
      if dif <? records_in_viewbuf c
      then set_sample_stop
             (dif * smp_per_record (edfparam_0 c) - sample_timeoffset c) c
      else set_sample_stop (samples_on_screen c) c in
    if skip then finish c w
    else
      let w := fseeko (file_hdl h) (hdrsize h + datarecs * recordsize h) w in
      let '(ok, w) := fread (viewbufoffset c) readsize (file_hdl h) w in
      if ok then finish c w
      else Return (c, report_error (msg_read_error (match done with [] => 5 | _ => 6 end)) w).

(** Lines 564-839. *)
Definition materialize (w : window) : flow window :=
  let '(comps, totalsize) :=
    for_comps (plan_view_step (edfheaderlist w) (pagetime w)) [] (signalcomp w) 0 in
  let w := free_viewbuf (set_signalcomp comps w) in
  and_then
    (if totalsize =? 0 then Next w else allocate msg_alloc_resources totalsize w)
    (fun w =>
       and_then (for_comps_return read_view_step [] (signalcomp w) w)
         (fun '(comps, w) => Next (set_signalcomp comps w))
         (fun '(comps, w) => set_signalcomp comps w))
    id.

(** [UI_Mainwindow::setup_viewbuf], up to line 839: [Next] when the buffer
    of the page is complete (the function goes on to the labels, the slider
    and the drawing of the curves, which are not modelled), [Return] when
    the function returned before. *)
Definition setup_viewbuf (w : window) : flow window :=
  let w := set_edfheaderlist (map (set_prefiltertime 0) (edfheaderlist w)) w in
  let '(comps, (pre_time, hasprefilter)) := pre_time_loop (signalcomp w) in
  let w := set_signalcomp comps w in
  and_then (if hasprefilter then warm_up pre_time w else Next w) materialize id.

(** *** Conditions and values the properties speak of *)

(** A composition whose only filter is the first-order filter [f]. *)
Definition only_first_order (f : first_order_filter_t) (c : signalcompblock) : Prop :=
  filter c = [f] /\ spike_filter c = None /\ ravg_filter c = []
  /\ fidfilter c = [] /\ fir_filter c = [] /\ plif_ecg_filter c = None
  /\ plif_eeg_filter c = None /\ ecg_filter c = None /\ zratio_filter c = None.

(** [1.0 / f] in ticks, as a double. *)
Definition period_ticks (f : double) : double :=
  Dbl.mul (Dbl.div (Dbl.of_Z 1) f) (Dbl.of_Z TIME_FIXP_SCALING).

(** The warm-up time as the specification words it for one first-order
    filter of cutoff [f]: [ceil(1/f * ticks_per_second)], not above the
    view time, and 0 before the start of the recording. *)
Definition specified_prefiltertime (f : double) (viewtime : Z) : Z :=
  if viewtime <? 0 then 0 else Z.min (Dbl.ceil (period_ticks f)) viewtime.

(** The bytes the second planning loop asks for ([totalsize] at line 658),
    and those the first asks for (line 249) when the warm-up time of the
    frame is [pre_time]. *)
Definition page_bytes (w : window) : Z :=
  (for_comps (plan_view_step (edfheaderlist w) (pagetime w)) []
     (signalcomp w) 0).2.

Definition warmup_bytes (pre_time : double) (w : window) : Z :=
  (for_comps
     (plan_prefilter_step
        (set_prefiltertimes pre_time (signalcomp w) (edfheaderlist w)))
     [] (signalcomp w) 0).2.

(** [setup_viewbuf] up to line 562, before the second planning loop: the
    warm-up times are cleared, the filters are looked through, and the
    warm-up runs when there is a filter with a state. *)
Definition before_page (w : window) : flow window :=
  let w := set_edfheaderlist (map (set_prefiltertime 0) (edfheaderlist w)) w in
  let '(comps, (pre_time, hasprefilter)) := pre_time_loop (signalcomp w) in
  let w := set_signalcomp comps w in
  if hasprefilter then warm_up pre_time w else Next w.

(** The bytes the first planning loop of a call asks for (line 249), when
    the call has a warm-up. *)
Definition warmup_request (w : window) : option Z :=
  let w := set_edfheaderlist (map (set_prefiltertime 0) (edfheaderlist w)) w in
  let '(comps, (pre_time, hasprefilter)) := pre_time_loop (signalcomp w) in
  let w := set_signalcomp comps w in
  if hasprefilter then Some (warmup_bytes pre_time w) else None.

(** How the function leaves when the buffer would reach the ceiling: it
    returns with the dialog shown and [remove_all_signals] called, without
    a buffer, the page time at most one second, and no stream touched. *)
Definition gave_up_on_memory (w : window) (r : flow window) : Prop :=
  exists w',
    r = Return w'
    /\ events w' = events w ++ [QMessageBox_critical msg_memory_limit;
                                remove_all_signals]
    /\ viewbuf w' = None
    /\ pagetime w' = Z.min (pagetime w) TIME_FIXP_SCALING
    /\ live_stream_active w' = false
    /\ files w' = files w.

(** A read that did not deliver its item. *)
Definition is_failed_read (e : event) : bool :=
  match e with
  | fread_call _ _ false => true
  | _ => false
  end.

Definition no_failed_read (l : list event) : Prop :=
  Forall (fun e => is_failed_read e = false) l.

(** How the function leaves after a read that failed: it returns, the
    last calls being the read, the dialog with the number of the read and
    [remove_all_signals]; [live_stream_active] is cleared and the page time
    is the one of the window [w] the function started from. *)
Definition gave_up_on_read (w : window) (r : flow window) : Prop :=
  exists w' before hdl size n,
    r = Return w'
    /\ events w' = before ++ [fread_call hdl size false;
                              QMessageBox_critical (msg_read_error n);
                              remove_all_signals]
    /\ no_failed_read before
    /\ live_stream_active w' = false
    /\ pagetime w' = pagetime w.

(** The state in which a loop of reads is left. *)
Definition reads_went_well (p : Z) (s : window) : Prop :=
  no_failed_read (events s) /\ pagetime s = p.

Definition stopped_at_read (p : Z) (s : window) : Prop :=
  exists before hdl size n,
    events s = before ++ [fread_call hdl size false;
                          QMessageBox_critical (msg_read_error n);
                          remove_all_signals]
    /\ no_failed_read before
    /\ live_stream_active s = false
    /\ pagetime s = p.

(** The two phases: they end without a failed read, or return from the
    allocation without one, or return at the read that failed. *)
Definition phase_outcome (p : Z) (r : flow window) : Prop :=
  match r with
  | Next s' => reads_went_well p s'
  | Return s' => no_failed_read (events s') \/ stopped_at_read p s'
  end.

(** *** What the buffer of the page holds *)

(** The recordings the properties of the buffer are stated for: durations,
    sizes and the page time are lengths (a dangling header pointer reads
    as a header of duration 0, and is thereby excluded). *)
Definition sound_header (h : edfhdrblock) : Prop :=
  0 < long_data_record_duration h /\ 0 <= recordsize h /\ 0 <= hdrsize h.

Definition sound_page (w : window) : Prop :=
  0 <= pagetime w
  /\ Forall (fun c => sound_header (hdr_of (edfheaderlist w) c)) (signalcomp w).

(** Every open file has a stream of its own. *)
Definition handles_distinct (hdrs : list edfhdrblock) : Prop :=
  forall i j hi hj,
    hdrs !! i = Some hi -> hdrs !! j = Some hj ->
    file_hdl hi = file_hdl hj -> i = j.

(** Two tables of streams over the same files, wherever the streams stand. *)
Definition same_contents (fs1 fs2 : gmap Z stream) : Prop :=
  forall hdl, content <$> fs1 !! hdl = content <$> fs2 !! hdl.

(** [viewbuf] as a list of cells, [NULL] holding none. *)
Definition buffer_of (w : window) : list cell := default [] (viewbuf w).

(** Whether a composition met before is on the file of the header [k]:
    [seen] are the header pointers of the compositions before. *)
Definition hdr_at (hdrs : list edfhdrblock) (k : nat) : edfhdrblock :=
  default null_hdr (hdrs !! k).

Definition seen_file (hdrs : list edfhdrblock) (seen : list nat) (k : nat) : bool :=
  existsb (fun j => file_hdl (hdr_at hdrs k) =? file_hdl (hdr_at hdrs j)) seen.

(** The records of the file from the first record of the page on. *)
Definition records_left (h : edfhdrblock) : Z := datarecords h - first_record h.

(** The bytes the page reads for a composition: all of its records, or
    those the file still has. *)
Definition read_size (hdrs : list edfhdrblock) (c : signalcompblock) : Z :=
  let h := hdr_of hdrs c in
  if records_left h <? records_in_viewbuf c
  then records_left h * recordsize h
  else records_in_viewbuf c * recordsize h.

Definition read_pos (h : edfhdrblock) : Z :=
  hdrsize h + first_record h * recordsize h.

(** [size] bytes of a file from the byte [pos] on, as far as there are. *)
Definition file_bytes (fs : gmap Z stream) (hdl pos size : Z) : list Z :=
  match fs !! hdl with
  | Some f => take (Z.to_nat size) (drop (Z.to_nat pos) (content f))
  | None => []
  end.

(** The part of the buffer of the first composition on a file, when the
    frame is complete: zeros where the page starts at or after the end of
    the file, else the bytes read, followed by zeros for the records the
    file does not have. *)
Definition region (hdrs : list edfhdrblock) (fs : gmap Z stream)
    (c : signalcompblock) : list cell :=
  let h := hdr_of hdrs c in
  let whole := records_in_viewbuf c * recordsize h in
  if records_left h <=? 0 then replicate (Z.to_nat whole) (Byte 0)
  else map Byte (file_bytes fs (file_hdl h) (read_pos h) (read_size hdrs c))
       ++ replicate (Z.to_nat (whole - read_size hdrs c)) (Byte 0).

(** Whether the read for the first composition on a file delivers. *)
Definition readable (hdrs : list edfhdrblock) (fs : gmap Z stream)
    (c : signalcompblock) : bool :=
  let h := hdr_of hdrs c in
  (records_left h <=? 0)
  || ((0 <? read_size hdrs c)
      && (Z.of_nat (length (file_bytes fs (file_hdl h) (read_pos h)
                              (read_size hdrs c))) =? read_size hdrs c)).

(** The regions of the compositions [todo], in order, each file once. *)
Fixpoint image_from (hdrs : list edfhdrblock) (fs : gmap Z stream)
    (seen : list nat) (todo : list signalcompblock) : list cell :=
  match todo with
  | [] => []
  | c :: todo =>
      (if seen_file hdrs seen (edfhdr c) then [] else region hdrs fs c)
      ++ image_from hdrs fs (seen ++ [edfhdr c]) todo
  end.

Fixpoint all_readable (hdrs : list edfhdrblock) (fs : gmap Z stream)
    (seen : list nat) (todo : list signalcompblock) : bool :=
  match todo with
  | [] => true
  | c :: todo =>
      (seen_file hdrs seen (edfhdr c) || readable hdrs fs c)
      && all_readable hdrs fs (seen ++ [edfhdr c]) todo
  end.

(** The calls the loop that fills the buffer makes when every read
    delivers. *)
Fixpoint calls_from (hdrs : list edfhdrblock) (seen : list nat)
    (todo : list signalcompblock) : list event :=
  match todo with
  | [] => []
  | c :: todo =>
      (if seen_file hdrs seen (edfhdr c) || (records_left (hdr_of hdrs c) <=? 0)
       then []
       else [fseeko_call (file_hdl (hdr_of hdrs c)) (read_pos (hdr_of hdrs c));
             fread_call (file_hdl (hdr_of hdrs c)) (read_size hdrs c) true])
      ++ calls_from hdrs (seen ++ [edfhdr c]) todo
  end.

(** The layout the second planning loop gives the regions: the first
    composition on a file has as many records as the page touches and its
    region at the bytes counted so far. *)
Fixpoint laid_out (hdrs : list edfhdrblock) (pagetime : Z) (seen : list nat)
    (total : Z) (cs : list signalcompblock) : Prop :=
  match cs with
  | [] => True
  | c :: cs =>
      let h := hdr_of hdrs c in
      if seen_file hdrs seen (edfhdr c)
      then laid_out hdrs pagetime (seen ++ [edfhdr c]) total cs
      else viewbufoffset c = total
           /\ records_in_viewbuf c
              = records_of_page pagetime (viewtime h) (long_data_record_duration h)
           /\ laid_out hdrs pagetime (seen ++ [edfhdr c])
                (total + records_in_viewbuf c * recordsize h) cs
  end.

(** The bytes of the regions of [cs]. *)
Fixpoint bytes_from (hdrs : list edfhdrblock) (seen : list nat)
    (cs : list signalcompblock) : Z :=
  match cs with
  | [] => 0
  | c :: cs =>
      (if seen_file hdrs seen (edfhdr c) then 0
       else records_in_viewbuf c * recordsize (hdr_of hdrs c))
      + bytes_from hdrs (seen ++ [edfhdr c]) cs
  end.

(** The value [sample_stop] is left with (lines 720-741 and 838). *)
Definition last_sample (hdrs : list edfhdrblock) (c : signalcompblock) : Z :=
  let h := hdr_of hdrs c in
  (if records_left h <=? 0 then 0
   else if records_left h <? records_in_viewbuf c
        then records_left h * smp_per_record (edfparam_0 c) - sample_timeoffset c
        else samples_on_screen c)
  + sample_start c.

Definition finish (hdrs : list edfhdrblock) (c : signalcompblock) : signalcompblock :=
  set_sample_stop (last_sample hdrs c) c.

(** The compositions as the second planning loop leaves them. *)
Definition planned (w : window) : list signalcompblock :=
  (for_comps (plan_view_step (edfheaderlist w) (pagetime w)) []
     (signalcomp w) 0).1.

(** Whether the buffer of the page is granted: nothing is asked for, or
    the bytes are below the ceiling and [malloc] delivers. *)
Definition granted (w : window) : bool :=
  (page_bytes w =? 0)
  || negb ((capacity_ceiling <=? page_bytes w) || malloc_fails (page_bytes w)).

(** The window as the function sees it once the warm-up times are
    cleared (lines 51-54). *)
Definition at_entry (w : window) : window :=
  set_edfheaderlist (map (set_prefiltertime 0) (edfheaderlist w)) w.

(** No composition has a filter with a state. *)
Definition unfiltered (w : window) : Prop :=
  Forall (fun c => has_filters c = false) (signalcomp w).

(** Two windows that show the same page of the same files: the headers
    (but for the warm-up time, which the function sets itself), the page
    time, the contents of the files and the files of the compositions
    agree; the positions of the streams, the buffer and what earlier calls
    left in the compositions may differ. *)
Definition same_frame (w1 w2 : window) : Prop :=
  map (set_prefiltertime 0) (edfheaderlist w1)
    = map (set_prefiltertime 0) (edfheaderlist w2)
  /\ pagetime w1 = pagetime w2
  /\ same_contents (files w1) (files w2)
  /\ map edfhdr (signalcomp w1) = map edfhdr (signalcomp w2).

(** A byte of the buffer that was written. *)
Definition is_stored (x : cell) : bool :=
  match x with Byte _ => true | Undef => false end.

(** What the plan gives a composition of the buffer: offset, records and
    bytes. *)
Definition plan_of (c : signalcompblock) : Z * Z * Z :=
  (viewbufoffset c, records_in_viewbuf c, viewbufsize c).

(** The part of the buffer [buf] a composition points at. *)
Definition part_of (hdrs : list edfhdrblock) (c : signalcompblock)
    (buf : list cell) : list cell :=
  take (Z.to_nat (records_in_viewbuf c * recordsize (hdr_of hdrs c)))
    (drop (Z.to_nat (viewbufoffset c)) buf).

(** The page ends after the last record of the recording. *)
Definition page_past_end (h : edfhdrblock) (pagetime : Z) : Prop :=
  datarecords h * long_data_record_duration h < viewtime h + pagetime.

(** The records the file has from the first record of the page on. *)
Definition available_records (h : edfhdrblock) : Z := Z.max 0 (records_left h).

(** [sample_stop] as the specification words it for a page past the end. *)
Definition specified_sample_stop (hdrs : list edfhdrblock) (c : signalcompblock)
    : Z :=
  available_records (hdr_of hdrs c) * smp_per_record (edfparam_0 c)
  - sample_timeoffset c + sample_start c.

(** The calls a run from [w] to [w'] added. *)
Definition new_calls (w w' : window) : list event :=
  drop (length (events w)) (events w').

(** The sample [s] of a buffer that starts at the tick [start], in a signal
    of [spr] samples a record of [d] ticks, is at the time
    [start + s * d / spr]: whether that time is a multiple of 2 seconds. *)
Definition on_epoch_boundary (start d spr s : Z) : Prop :=
  (start * spr + s * d) mod (TIME_FIXP_SCALING * 2 * spr) = 0.

(** The ticks from [start] to the next multiple of 2 seconds after it. *)
Definition ticks_to_epoch (start : Z) : Z :=
  TIME_FIXP_SCALING * 2 - Z.rem start (TIME_FIXP_SCALING * 2).


(** The sample [s] of a buffer that starts at [start] is at the next
    multiple of 2 seconds after [start]. *)
Definition at_next_epoch (start d spr s : Z) : Prop :=
  start * spr + s * d = (start + ticks_to_epoch start) * spr.

(** *** How a call ends *)

(** A call on a stream. *)
Definition is_file_call (e : event) : bool :=
  match e with
  | fseeko_call _ _ | fread_call _ _ _ => true
  | _ => false
  end.

(** From [w] to [s] nothing but calls on streams happened: no dialog, the
    signals are still there, [live_stream_active] and the page time are
    as they were. *)
Definition went_quietly (w s : window) : Prop :=
  (exists calls,
     events s = events w ++ calls /\ forallb is_file_call calls = true)
  /\ live_stream_active s = live_stream_active w
  /\ pagetime s = pagetime w.

(** From [w] to [s] the function gave up: after some calls on streams it
    showed one dialog and called [remove_all_signals], which are the last
    two calls; [live_stream_active] is cleared and the page time is as it
    was or was cut to one second. *)
Definition reported (w s : window) : Prop :=
  (exists calls m,
     events s = events w ++ calls ++ [QMessageBox_critical m; remove_all_signals]
     /\ forallb is_file_call calls = true)
  /\ live_stream_active s = false
  /\ (pagetime s = pagetime w
      \/ (pagetime s = TIME_FIXP_SCALING /\ TIME_FIXP_SCALING < pagetime w)).

(** Calls that come in pairs, a seek and a read that delivers, on the
    same stream, the read being of bytes of the data records of a file of
    [hdrs]: it starts at or after the end of the header and ends at or
    before the end of the last record. *)
Fixpoint reads_in_records (hdrs : list edfhdrblock) (l : list event) : Prop :=
  match l with
  | [] => True
  | fseeko_call hdl pos :: fread_call hdl' size ok :: l' =>
      hdl' = hdl /\ ok = true
      /\ (exists h,
            h ∈ hdrs /\ file_hdl h = hdl
            /\ hdrsize h <= pos /\ 0 < size
            /\ pos + size <= hdrsize h + datarecords h * recordsize h)
      /\ reads_in_records hdrs l'
  | _ => False
  end.

(** What makes a composition the trace of a signal: its header, the
    parameters of its first signal, its signals and their factors. *)
Definition signal_of (c : signalcompblock)
    : nat * edfparamblock * list Z * list double :=
  (edfhdr c, edfparam_0 c, edfsignal c, factor c).

(** In the plan of the warm-up buffer the first composition on a file has
    bytes only where its header has a warm-up time. *)
Fixpoint warmup_sized (hdrs : list edfhdrblock) (seen : list nat)
    (cs : list signalcompblock) : Prop :=
  match cs with
  | [] => True
  | c :: cs =>
      (seen_file hdrs seen (edfhdr c) = false -> 0 < viewbufsize c ->
       prefiltertime (hdr_of hdrs c) <> 0)
      /\ warmup_sized hdrs (seen ++ [edfhdr c]) cs
  end.

(** A warm-up time that does not reach before the start of the
    recording. *)
Definition warmup_in_recording (h : edfhdrblock) : Prop :=
  prefiltertime h = 0 \/ prefiltertime h <= viewtime h.

(** The [n] bytes of the integer [v] in two's complement, the least
    significant first: how EDF (two bytes) and BDF (three bytes) store a
    sample. *)
Definition le_bytes (n : nat) (v : Z) : list Z :=
  map (fun i => (v / 256 ^ Z.of_nat i) mod 256) (seq 0 n).

(** The bytes [data] lie in the buffer [buf] from the byte [pos] on. *)
Definition holds_at (buf : list cell) (pos : Z) (data : list Z) : Prop :=
  take (length data) (drop (Z.to_nat pos) buf) = map Byte data.



End Window.

(** *** The view-time indicator (lines 841 to 922)

    After the buffer is filled the function prints the time of the page into
    [viewtime_string_128].  The integers it hands to [snprintf] are given
    here: the time of day with the format [%2i:%02i:%02i.%0*i] and the time
    since the start of the recording with [%i:%02i:%02i.%0*i], after a minus
    sign when the page starts before the recording. *)
Record clock := mk_clock {
  hours : Z;
  minutes : Z;
  seconds : Z;
  fraction : Z
}.

(** [precision] and [prec_scale]. *)
Definition indicator_precision (annot_editor_highres : bool) : Z * Z :=
  if annot_editor_highres then (6, 10) else (3, 10000).

(** The arguments of the time of day for the time [t]. *)
Definition clock_of_day (t prec_scale : Z) : clock :=
  mk_clock
    (wrap_int (Z.rem (Z.quot (Z.quot t TIME_FIXP_SCALING) 3600) 24))
    (wrap_int (Z.quot (Z.rem (Z.quot t TIME_FIXP_SCALING) 3600) 60))
    (wrap_int (Z.rem (Z.quot t TIME_FIXP_SCALING) 60))
    (wrap_int (Z.quot (Z.rem t TIME_FIXP_SCALING) prec_scale)).

(** The arguments of the time since the start for the time [t]. *)
Definition clock_elapsed (t prec_scale : Z) : clock :=
  mk_clock
    (wrap_int (Z.quot (Z.quot t TIME_FIXP_SCALING) 3600))
    (wrap_int (Z.quot (Z.rem (Z.quot t TIME_FIXP_SCALING) 3600) 60))
    (wrap_int (Z.rem (Z.quot t TIME_FIXP_SCALING) 60))
    (wrap_int (Z.quot (Z.rem t TIME_FIXP_SCALING) prec_scale)).

(** The time of day printed for a file that starts at [starttime_hr] and is
    viewed at [viewtime]. *)
Definition viewtime_of_day (starttime_hr viewtime prec_scale : Z) : clock :=
  if 0 <=? viewtime then clock_of_day (starttime_hr + viewtime) prec_scale
  else
    let l_temp := Z.rem (starttime_hr + viewtime) (86400 * TIME_FIXP_SCALING) in
    let l_temp :=
      if l_temp <=? 0 then l_temp + 86400 * TIME_FIXP_SCALING else l_temp in
    clock_of_day l_temp prec_scale.

(** The time since the start printed for [viewtime]: whether a minus sign is
    printed, and the arguments. *)
Definition viewtime_elapsed (viewtime prec_scale : Z) : bool * clock :=
  if 0 <=? viewtime then (false, clock_elapsed viewtime prec_scale)
  else
    let l_temp := - viewtime in
    (true, clock_elapsed l_temp prec_scale).

(** The time a clock shows, in ticks, its last field counting [prec_scale]
    ticks. *)
Definition shown_time (c : clock) (prec_scale : Z) : Z :=
  ((hours c * 60 + minutes c) * 60 + seconds c) * TIME_FIXP_SCALING
  + fraction c * prec_scale.

End ViewBuf.

(** ** Stand-ins for the functions outside the sources

    To run the model on concrete inputs: a comparison without tolerance for
    [dblcmp], a spectrum that is no Fourier transform, and filters that
    pass every sample on.  The ECG stand-in keeps the samples it saw since
    its last reset.  No property below depends on them; they serve to
    evaluate the model where a property is exhibited at an input. *)
Module StandIn.

Definition exact_dblcmp (a b : double) : Z :=
  match SFcompare a b with
  | Some Lt => -1
  | Some Gt => 1
  | _ => 0
  end.

Definition flat_spectrum (n : Z) (buf : list double) : list ZRatio.kiss_fft_cpx :=
  map (fun x => (x, Dbl.zero)) (take (Z.to_nat (n / 2 + 1)) buf).

Definition keep_bytes (n : Z) (x y : double) : double := y.

(** A first-order filter: cutoff frequency, old input, old output. *)
Definition first_order : Type := double * double * double.

Definition pass {F : Type} (v : double) (f : F) : double * F := (v, f).

#[export] Instance filters : FilterLib := {|
  first_order_filter_t := first_order;
  cutoff_frequency := fun f => fst (fst f);
  old_input := fun f => snd (fst f);
  old_output := fun f => snd f;
  first_order_filter := fun v f => (v, (fst (fst f), v, v));
  spikefiltset_t := unit;
  run_spike_filter := pass;
  spike_filter_save_buf := id;
  ravgfiltset_t := Z;
  ravg_size := id;
  run_ravg_filter := pass;
  reset_ravg_filter := fun _ f => f;
  ravg_filter_save_buf := id;
  firfiltset_t := Z;
  fir_filter_size := id;
  run_fir_filter := pass;
  fir_filter_save_buf := id;
  fidbuf_t := unit;
  fidfuncp := fun b v => (v, b);
  plifecgfiltset_t := unit;
  plif_ecg_run_subtract_filter := pass;
  plifeegfiltset_t := unit;
  plif_eeg_run_subtract_filter := pass;
  ecgfiltset_t := list double;
  reset_ecg_filter := fun _ => [];
  run_ecg_filter := fun v e => (v, e ++ [v]);
  ecg_filter_save_buf := id;
  dblcmp := exact_dblcmp;
  kiss_fftr := flat_spectrum;
  splice_bytes := keep_bytes
|}.

(** A composition of one signal with no filter, on the header [hdr]. *)
Definition plain_comp (hdr : nat) (p : ViewBuf.edfparamblock)
    : ViewBuf.signalcompblock :=
  ViewBuf.mk_signalcomp hdr p [0] [Dbl.of_Z 1] None [] [] [] [] [] [] [] []
    None None None None None None 0 0 0 0 0 0 0 0 0 0 Dbl.zero.

(** A file of [n] bytes, the byte at [i] being [i mod 256]. *)
Definition file_of_size (n : Z) : ViewBuf.stream :=
  ViewBuf.mk_stream (map (fun i => i mod 256) (upto n)) 0.

(** A window with nothing shown yet. *)
Definition window_of (hdrs : list ViewBuf.edfhdrblock)
    (comps : list ViewBuf.signalcompblock) (pagetime : Z)
    (files : gmap Z ViewBuf.stream) : ViewBuf.window :=
  ViewBuf.mk_window hdrs comps None 0 pagetime false files [].

(** An EDF recording of 20 records of one second with one signal of 4
    samples a record (8 bytes), behind a header of 16 bytes, on stream 7. *)
Definition small_param : ViewBuf.edfparamblock :=
  ViewBuf.mk_edfparam 4 0 Dbl.zero (Dbl.of_Z 4).

Definition small_edf (viewtime : Z) : ViewBuf.edfhdrblock :=
  ViewBuf.mk_edfhdr 7 viewtime 0 10000000 8 16 20 false true [small_param].

Definition small_files : gmap Z ViewBuf.stream := {[ 7 := file_of_size 176 ]}.

(** The same recording under a first-order lowpass filter of 3 Hz. *)
Definition lowpass3_comp : ViewBuf.signalcompblock :=
  ViewBuf.set_front_filters None [] [(Dbl.of_Z 3, Dbl.zero, Dbl.zero)] [] [] []
    [] None None (plain_comp 0 small_param).

(** A page of one second at 5 s of the small recording, through a lowpass
    filter of 3 Hz. *)
Definition lowpass3_window : ViewBuf.window :=
  window_of [small_edf 50000000] [lowpass3_comp] 10000000 small_files.

(** A recording of 100000 records of one second and 2000000 bytes each
    (500 signals of 2000 samples), and a page of 68720 seconds of it on a
    64-bit build.  The file itself is left out: the model holds files as
    lists of bytes, and no property below reads this one. *)
Definition big_param : ViewBuf.edfparamblock :=
  ViewBuf.mk_edfparam 2000 0 Dbl.zero (Dbl.of_Z 2000).

Definition big_edf : ViewBuf.edfhdrblock :=
  ViewBuf.mk_edfhdr 9 0 0 10000000 2000000 128256 100000 false true [big_param].

Definition big_window : ViewBuf.window :=
  window_of [big_edf] [plain_comp 0 big_param] 687200000000 {[ 9 := file_of_size 0 ]}.

(** The small recording in a file that ends after 100 bytes (record 10 is
    cut short): the page at 5 s is shown, the stream is live, and the user
    moves to 10 s. *)
Definition short_files : gmap Z ViewBuf.stream := {[ 7 := file_of_size 100 ]}.

Definition shown_at_5s : ViewBuf.window :=
  ViewBuf.final (ViewBuf.setup_viewbuf false (fun _ => false)
           (window_of [small_edf 50000000] [plain_comp 0 small_param] 10000000
              short_files)).

(** Two compositions on the small recording, a page of one second at the
    view time [viewtime]. *)
Definition two_signals_at (viewtime : Z) : ViewBuf.window :=
  window_of [small_edf viewtime]
    [plain_comp 0 small_param; plain_comp 0 small_param] 10000000 small_files.

(** The window the second phase leaves, and the one a whole call leaves,
    on a 32-bit build where [malloc] always delivers. *)
Definition page_of (w : ViewBuf.window) : ViewBuf.window :=
  ViewBuf.final (ViewBuf.materialize false (fun _ => false) w).

Definition shown (w : ViewBuf.window) : ViewBuf.window :=
  ViewBuf.final (ViewBuf.setup_viewbuf false (fun _ => false) w).

(** The composition [i] of a window. *)
Definition comp_at (i : nat) (w : ViewBuf.window) : ViewBuf.signalcompblock :=
  nth i (ViewBuf.signalcomp w) (plain_comp 0 small_param).






(** The small recording at 5 s with a warm-up of 4 s, and a composition
    with a Z-ratio filter on it, before the warm-up records are read. *)
Definition warming_comp : ViewBuf.signalcompblock :=
  ViewBuf.set_zratio_filter (Some ZRatio.at_checkpoint) (plain_comp 0 small_param).

Definition warming_window : ViewBuf.window :=
  window_of [ViewBuf.set_prefiltertime 40000000 (small_edf 50000000)]
    [warming_comp] 10000000 small_files.



Definition moved_to_10s : ViewBuf.window :=
  ViewBuf.set_live_stream_active true
    (ViewBuf.set_edfheaderlist [small_edf 100000000] shown_at_5s).

(** The warm-up of 4 s at 5 s of the small recording: the compositions of
    two signals after the first planning loop, and the composition and the
    window after the read of the warm-up records. *)
Definition warming_edf : ViewBuf.edfhdrblock :=
  ViewBuf.set_prefiltertime 40000000 (small_edf 50000000).

Definition planned_warmup : list ViewBuf.signalcompblock :=
  fst (ViewBuf.for_comps (ViewBuf.plan_prefilter_step [warming_edf]) []
         [warming_comp; plain_comp 0 small_param] 0).

Definition warmup_read : ViewBuf.signalcompblock * ViewBuf.window :=
  ViewBuf.final
    (ViewBuf.read_prefilter_step []
       (fst (ViewBuf.plan_prefilter_step [warming_edf] [] warming_comp 0))
       warming_window).

(** A peak hold over 3 samples and a square, as created, and samples that
    fall from 5 to 1. *)
Definition peak_hold_3 : MathFunc.mathfuncset_t :=
  MathFunc.mk_mathfunc (Some MathFunc.MATH_FUNC_PK_HOLD) 3 0 Dbl.zero.

Definition square_block : MathFunc.mathfuncset_t :=
  MathFunc.mk_mathfunc (Some MathFunc.MATH_FUNC_SQUARE) 0 0 Dbl.zero.

Definition falling : list double := [Dbl.of_Z 5; Dbl.of_Z 3; Dbl.of_Z 1].

(** The small recording under the lowpass filter of 3 Hz at 5 s, with a
    page of 536870912 seconds: 4294967304 bytes, above the ceiling of a
    32-bit build, behind a warm-up of two records. *)
Definition wide_lowpass_window : ViewBuf.window :=
  window_of [small_edf 50000000] [lowpass3_comp] 5368709120000000 small_files.

(** A file that starts at 9:00:00 and a page 1.5 s before its start. *)
Definition nine_o_clock : Z := 324000000000.
Definition before_start : Z := -15000000.

End StandIn.

(** * Properties *)

(** ** The Z-ratio filter *)
Module ZRatioFacts.
Import ZRatio.

Section Filter.

Variable dblcmp : double -> double -> Z.
Variable kiss_fftr : Z -> list double -> list kiss_fft_cpx.
Variable splice_bytes : Z -> double -> double -> double.

Local Abbreviation run := (run_zratio_filter dblcmp kiss_fftr).
Local Abbreviation run_all := (run_samples dblcmp kiss_fftr).
Local Abbreviation save := (zratio_filter_save_buf splice_bytes).
Local Abbreviation restore := (zratio_filter_restore_buf splice_bytes).

(** The end of a block changes neither the block length nor the scale. *)
Lemma finish_block_settings (s : zratiofiltset_t) :
  dftblocksize (finish_block dblcmp kiss_fftr s) = dftblocksize s
  /\ bitvalue (finish_block dblcmp kiss_fftr s) = bitvalue s
  /\ smpls_in_inputbuf (finish_block dblcmp kiss_fftr s) = 0.
Proof.
  unfold finish_block.
  destruct (fold_left _ _ _) as [out p]. cbn. auto.
Qed.

Lemma run_settings (x : double) (s : zratiofiltset_t) :
  dftblocksize (snd (run x s)) = dftblocksize s
  /\ bitvalue (snd (run x s)) = bitvalue s.
Proof.
  unfold run_zratio_filter. cbn.
  destruct (_ <=? _); cbn; [|auto].
  match goal with |- context [finish_block _ _ ?t] =>
    destruct (finish_block_settings t) as (-> & -> & _) end.
  auto.
Qed.

(** A call that does not complete a block stores the sample and counts it. *)
Lemma run_inside_block (x : double) (s : zratiofiltset_t) :
  smpls_in_inputbuf s + 1 < dftblocksize s ->
  run x s =
    (Dbl.div (zratio_value s) (bitvalue s),
     set_running (<[Z.to_nat (smpls_in_inputbuf s) := x]> (fft_inputbuf s))
       (smpls_in_inputbuf s + 1) (zratio_value s) s).
Proof.
  intros H. unfold run_zratio_filter. cbn.
  destruct (Z.leb_spec (dftblocksize s) (smpls_in_inputbuf s + 1)); [lia|].
  reflexivity.
Qed.

(** Zero divided by a number other than zero is zero. *)
Lemma zero_div_number (b : double) :
  Dbl.is_nonzero_number b = true -> Dbl.is_zero (Dbl.div Dbl.zero b) = true.
Proof. destruct b; cbn; congruence. Qed.

(** While the block does not fill up the stored value stays, and every call
    returns it over the scale. *)
Lemma run_samples_inside_block (xs : list double) (s : zratiofiltset_t) :
  smpls_in_inputbuf s + Z.of_nat (length xs) < dftblocksize s ->
  Forall (fun y => y = Dbl.div (zratio_value s) (bitvalue s)) (fst (run_all xs s))
  /\ zratio_value (snd (run_all xs s)) = zratio_value s
  /\ smpls_in_inputbuf (snd (run_all xs s)) = smpls_in_inputbuf s + Z.of_nat (length xs).
Proof.
  revert s. induction xs as [|x xs IH]; intros s H; cbn [run_samples].
  - cbn. repeat split; [constructor | lia].
  - cbn [length] in H.
    rewrite run_inside_block by lia.
    set (s1 := set_running _ _ _ s).
    destruct (IH s1) as (Hall & Hv & Hn); [subst s1; cbn; lia|].
    destruct (run_all xs s1) as [ys s2]. cbn in *.
    repeat split; [constructor; [reflexivity | exact Hall] | exact Hv | lia].
Qed.

(** C10. The value [run_zratio_filter] returns is the stored [zratio_value]
    divided by [bitvalue]; a call that does not bring the sample counter to
    [dftblocksize] leaves the stored value as it is; and after
    [reset_zratio_filter] each of the first [dftblocksize - 1] calls
    returns zero over [bitvalue], which is 0 for every scale that is a
    number other than zero. *)
Theorem zratio_output_piecewise_constant :
  (forall x s,
     fst (run x s) = Dbl.div (zratio_value (snd (run x s))) (bitvalue s))
  /\ (forall x s,
        smpls_in_inputbuf s + 1 < dftblocksize s ->
        zratio_value (snd (run x s)) = zratio_value s)
  /\ (forall xs s,
        Z.of_nat (length xs) <= dftblocksize s - 1 ->
        Forall (fun y => y = Dbl.div Dbl.zero (bitvalue s))
          (fst (run_all xs (reset_zratio_filter s)))
        /\ (Dbl.is_nonzero_number (bitvalue s) = true ->
            Forall (fun y => Dbl.is_zero y = true)
              (fst (run_all xs (reset_zratio_filter s))))).
Proof.
  split; [|split].
  - intros x s. unfold run_zratio_filter. cbn.
    destruct (_ <=? _); cbn; [|reflexivity].
    match goal with |- context [bitvalue (finish_block _ _ ?t)] =>
      destruct (finish_block_settings t) as (_ & -> & _) end.
    reflexivity.
  - intros x s H. rewrite run_inside_block by exact H. reflexivity.
  - intros xs s H.
    destruct (run_samples_inside_block xs (reset_zratio_filter s)) as (Hall & _).
    { cbn. lia. }
    cbn in Hall. split; [exact Hall|].
    intros Hb. eapply Forall_impl; [exact Hall|].
    intros y ->. apply zero_div_number, Hb.
Qed.

(** What a call does to the input buffer, the counter and the backup. *)
Lemma run_input (x : double) (s : zratiofiltset_t) :
  (fft_inputbuf (snd (run x s)), smpls_in_inputbuf (snd (run x s)))
    = store_sample (dftblocksize s) (fft_inputbuf s, smpls_in_inputbuf s) x
  /\ fft_inputbuf_bu (snd (run x s)) = fft_inputbuf_bu s
  /\ smpls_in_inputbuf_bu (snd (run x s)) = smpls_in_inputbuf_bu s
  /\ zratio_value_bu (snd (run x s)) = zratio_value_bu s.
Proof.
  unfold run_zratio_filter, store_sample. cbn.
  destruct (_ <=? _); cbn; [|auto].
  unfold finish_block. destruct (fold_left _ _ _) as [out p]. cbn. auto.
Qed.

Lemma run_samples_input (xs : list double) (s : zratiofiltset_t) :
  (fft_inputbuf (snd (run_all xs s)), smpls_in_inputbuf (snd (run_all xs s)))
    = input_after (dftblocksize s) xs (fft_inputbuf s, smpls_in_inputbuf s)
  /\ dftblocksize (snd (run_all xs s)) = dftblocksize s
  /\ fft_inputbuf_bu (snd (run_all xs s)) = fft_inputbuf_bu s
  /\ smpls_in_inputbuf_bu (snd (run_all xs s)) = smpls_in_inputbuf_bu s
  /\ zratio_value_bu (snd (run_all xs s)) = zratio_value_bu s.
Proof.
  revert s. induction xs as [|x xs IH]; intros s; cbn [run_samples].
  - cbn. auto.
  - destruct (run_input x s) as (Hin & Hbu & Hn & Hv).
    destruct (run_settings x s) as (Hd & _).
    destruct (run x s) as [y s1]. cbn [snd] in *.
    specialize (IH s1). destruct (run_all xs s1) as [ys s2]. cbn [snd] in *.
    destruct IH as (IH1 & IH2 & IH3 & IH4 & IH5).
    rewrite IH1, IH2, IH3, IH4, IH5, Hd, Hin, Hbu, Hn, Hv.
    unfold input_after. cbn [fold_left]. auto.
Qed.

Lemma run_samples_snoc (xs : list double) (x : double) (s : zratiofiltset_t) :
  snd (run_all (xs ++ [x]) s) = snd (run x (snd (run_all xs s))).
Proof.
  revert s. induction xs as [|x' xs IH]; intros s; cbn [run_samples app].
  - cbn [snd]. destruct (run x s) as [y s1]. reflexivity.
  - destruct (run x' s) as [y s1]. specialize (IH s1).
    destruct (run_all (xs ++ [x]) s1) as [ys s2].
    destruct (run_all xs s1) as [ys' s2']. exact IH.
Qed.

(** The call that completes a block takes the spectrum of the input
    buffer as it then is. *)
Lemma run_completes_block (x : double) (s : zratiofiltset_t) :
  dftblocksize s <= smpls_in_inputbuf s + 1 ->
  kiss_fftbuf (snd (run x s))
    = kiss_fftr (dftblocksize s)
        (<[Z.to_nat (smpls_in_inputbuf s) := x]> (fft_inputbuf s)).
Proof.
  intros H. unfold run_zratio_filter. cbn.
  destruct (Z.leb_spec (dftblocksize s) (smpls_in_inputbuf s + 1)); [|lia].
  cbn. unfold finish_block. destruct (fold_left _ _ _) as [out p]. reflexivity.
Qed.

(** The spectrum after the samples [xs ++ [x]], when [x] completes a block. *)
Lemma spectrum_of_block (xs : list double) (x : double) (s : zratiofiltset_t)
    (buf : list double) (k : Z) :
  input_after (dftblocksize s) xs (fft_inputbuf s, smpls_in_inputbuf s) = (buf, k) ->
  dftblocksize s <= k + 1 ->
  kiss_fftbuf (snd (run_all (xs ++ [x]) s))
    = kiss_fftr (dftblocksize s) (<[Z.to_nat k := x]> buf).
Proof.
  intros Hin Hk. rewrite run_samples_snoc.
  destruct (run_samples_input xs s) as (Hs & Hd & _).
  rewrite Hin in Hs. injection Hs as Hbuf Hn.
  rewrite run_completes_block by (rewrite Hd, Hn; exact Hk).
  rewrite Hd, Hbuf, Hn. reflexivity.
Qed.

(** After [save], any run, [reset] and [restore]: the counter and the
    stored value are those that were saved; the input buffer is what the
    run left, under the bytes the two copies carried over. *)
Lemma restore_after_run (xs : list double) (s : zratiofiltset_t)
    (buf : list double) (k : Z) :
  input_after (dftblocksize s) xs (fft_inputbuf s, smpls_in_inputbuf s) = (buf, k) ->
  let s3 := restore (reset_zratio_filter (snd (run_all xs (save s)))) in
  fft_inputbuf s3
    = memcpy_doubles splice_bytes buf (fft_inputbuf_bu (save s)) (dftblocksize s)
  /\ smpls_in_inputbuf s3 = smpls_in_inputbuf s
  /\ zratio_value s3 = zratio_value s
  /\ dftblocksize s3 = dftblocksize s.
Proof.
  intros Hin s3.
  destruct (run_samples_input xs (save s)) as (H & Hd & Hbu & Hn & Hv).
  change (dftblocksize (save s)) with (dftblocksize s) in *.
  change (fft_inputbuf (save s)) with (fft_inputbuf s) in H.
  change (smpls_in_inputbuf (save s)) with (smpls_in_inputbuf s) in H.
  rewrite Hin in H. injection H as Hbuf _.
  subst s3. unfold zratio_filter_restore_buf at 1 2 3 4, reset_zratio_filter.
  cbn [fft_inputbuf smpls_in_inputbuf zratio_value dftblocksize set_running
       fft_inputbuf_bu smpls_in_inputbuf_bu zratio_value_bu].
  rewrite Hd, Hbu, Hn, Hv, Hbuf. auto.
Qed.

(** C5, at a filter that is saved 100 samples into a block of 200 and then
    filters a page of 300 samples: [zratio_filter_save_buf] and
    [zratio_filter_restore_buf] copy [dftblocksize] bytes, the first 25 of
    the 200 doubles.  After [reset] and [restore] the counter is back at 100
    but samples 25 to 99 of the block are those the page left there, and the
    second pass over the page takes its first spectrum from another block
    than the first pass did. *)
Theorem zratio_restore_keeps_an_eighth :
  let page := numbered 1000 300 in
  let s1 := save at_checkpoint in
  let s3 := restore (reset_zratio_filter (snd (run_all page s1))) in
  fft_inputbuf s1 = numbered 1 100 ++ replicate 100 Dbl.zero
  /\ smpls_in_inputbuf s3 = 100
  /\ zratio_value s3 = zratio_value s1
  /\ fft_inputbuf s3 = numbered 1 25 ++ numbered 1125 175
  /\ kiss_fftbuf (snd (run_all (take 100 page) s1))
       = kiss_fftr 200 (numbered 1 100 ++ numbered 1000 100)
  /\ kiss_fftbuf (snd (run_all (take 100 page) s3))
       = kiss_fftr 200 (numbered 1 25 ++ numbered 1125 75 ++ numbered 1000 100)
  /\ numbered 1 100 <> numbered 1 25 ++ numbered 1125 75.
Proof.
  intros page s1 s3.
  assert (Hin : input_after (dftblocksize at_checkpoint) page
                  (fft_inputbuf at_checkpoint, smpls_in_inputbuf at_checkpoint)
                = (numbered 1100 200, 0))
    by (vm_compute; reflexivity).
  destruct (restore_after_run page at_checkpoint _ _ Hin)
    as (Hbuf3 & Hn3 & Hv3 & Hd3).
  fold s1 in Hbuf3, Hn3, Hv3, Hd3. fold s3 in Hbuf3, Hn3, Hv3, Hd3.
  assert (Hcopy : memcpy_doubles splice_bytes (numbered 1100 200)
                    (fft_inputbuf_bu s1) (dftblocksize at_checkpoint)
                  = numbered 1 25 ++ numbered 1125 175)
    by (vm_compute; reflexivity).
  rewrite Hcopy in Hbuf3.
  assert (Hpage : take 100 page = numbered 1000 99 ++ [Dbl.of_Z 1099])
    by (vm_compute; reflexivity).
  assert (H1 : input_after (dftblocksize s1) (numbered 1000 99)
                 (fft_inputbuf s1, smpls_in_inputbuf s1)
               = (numbered 1 100 ++ numbered 1000 99 ++ [Dbl.zero], 199))
    by (vm_compute; reflexivity).
  assert (H3 : input_after (dftblocksize s3) (numbered 1000 99)
                 (fft_inputbuf s3, smpls_in_inputbuf s3)
               = (numbered 1 25 ++ numbered 1125 75 ++ numbered 1000 99
                    ++ [Dbl.of_Z 1299], 199))
    by (rewrite Hd3, Hbuf3, Hn3; vm_compute; reflexivity).
  assert (Hd1 : dftblocksize s1 = 200) by (vm_compute; reflexivity).
  assert (Hd0 : dftblocksize at_checkpoint = 200) by reflexivity.
  assert (Hn0 : smpls_in_inputbuf at_checkpoint = 100) by reflexivity.
  rewrite Hd0 in Hd3. rewrite Hn0 in Hn3.
  split; [vm_compute; reflexivity|].
  split; [exact Hn3|]. split; [exact Hv3|]. split; [exact Hbuf3|].
  split; [|split].
  - rewrite Hpage, (spectrum_of_block _ _ _ _ _ H1) by (rewrite Hd1; lia).
    rewrite Hd1. apply f_equal. vm_compute. reflexivity.
  - rewrite Hpage, (spectrum_of_block _ _ _ _ _ H3) by (rewrite Hd3; lia).
    rewrite Hd3. apply f_equal. vm_compute. reflexivity.
  - vm_compute. discriminate.
Qed.

End Filter.

(** C10 at a filter of block length 200, 100 samples into a block, and at
    199 samples after a reset. *)
Lemma zratio_output_piecewise_constant_witness :
  (smpls_in_inputbuf at_checkpoint + 1 < dftblocksize at_checkpoint
   /\ zratio_value
        (snd (run_zratio_filter StandIn.exact_dblcmp StandIn.flat_spectrum
                (Dbl.of_Z 7) at_checkpoint))
      = zratio_value at_checkpoint)
  /\ (Z.of_nat (length (numbered 1 199)) <= dftblocksize at_checkpoint - 1
      /\ Dbl.is_nonzero_number (bitvalue at_checkpoint) = true
      /\ Forall (fun y => Dbl.is_zero y = true)
           (fst (run_samples StandIn.exact_dblcmp StandIn.flat_spectrum (numbered 1 199)
                   (reset_zratio_filter at_checkpoint)))).
Proof.
  destruct (zratio_output_piecewise_constant StandIn.exact_dblcmp StandIn.flat_spectrum)
    as (_ & Hkeep & Hzero).
  assert (H1 : smpls_in_inputbuf at_checkpoint + 1 < dftblocksize at_checkpoint)
    by (vm_compute; reflexivity).
  assert (H2 : Z.of_nat (length (numbered 1 199)) <= dftblocksize at_checkpoint - 1)
    by (vm_compute; discriminate).
  assert (H3 : Dbl.is_nonzero_number (bitvalue at_checkpoint) = true)
    by (vm_compute; reflexivity).
  split; [split; [exact H1 | exact (Hkeep _ _ H1)]|].
  split; [exact H2|]. split; [exact H3|].
  exact (proj2 (Hzero _ _ H2) H3).
Defined.

End ZRatioFacts.

(** ** The Z-ratio filter: counters and buffers *)
Module ZRatioBlocks.
Import ZRatio.

Section Filter.

Variable dblcmp : double -> double -> Z.
Variable kiss_fftr : Z -> list double -> list kiss_fft_cpx.
Variable splice_bytes : Z -> double -> double -> double.

Local Abbreviation run := (run_zratio_filter dblcmp kiss_fftr).
Local Abbreviation run_all := (run_samples dblcmp kiss_fftr).
Local Abbreviation save := (zratio_filter_save_buf splice_bytes).
Local Abbreviation restore := (zratio_filter_restore_buf splice_bytes).
Local Abbreviation create := (create_zratio_filter dblcmp).

Lemma length_memcpy_doubles (dst src : list double) (n : Z) :
  length src = length dst -> 0 <= n <= Z.of_nat (length dst) ->
  length (memcpy_doubles splice_bytes dst src n) = length dst.
Proof.
  intros Hl Hn. unfold memcpy_doubles.
  assert (Hq : (Z.to_nat (n / 8) <= length dst)%nat).
  { pose proof (Z.div_le_upper_bound n 8 (Z.of_nat (length dst)) ltac:(lia)
                  ltac:(lia)). pose proof (Z.div_pos n 8 ltac:(lia) ltac:(lia)).
    lia. }
  set (q := Z.to_nat (n / 8)) in *.
  rewrite length_app, length_take, Hl, Nat.min_l by exact Hq.
  destruct (n mod 8 =? 0); [rewrite length_drop; lia|].
  destruct (src !! q) as [x|] eqn:Ex, (dst !! q) as [y|] eqn:Ey;
    try (rewrite length_drop; lia).
  apply lookup_lt_Some in Ey. cbn [length]. rewrite length_drop. lia.
Qed.

Lemma run_fits (x : double) (s : zratiofiltset_t) :
  fits_block s -> fits_block (snd (run x s)).
Proof.
  intros (Hd & Hk & Hkb & Hl & Hlb).
  destruct (ZRatioFacts.run_input dblcmp kiss_fftr x s) as (Hin & Hbu & Hn & _).
  destruct (ZRatioFacts.run_settings dblcmp kiss_fftr x s) as (Hs & _).
  unfold store_sample in Hin.
  pose proof (f_equal fst Hin) as Hbuf. pose proof (f_equal snd Hin) as Hcnt.
  cbn [fst snd] in Hbuf, Hcnt.
  unfold fits_block. rewrite Hs, Hbu, Hn, Hbuf, Hcnt, length_insert.
  repeat split; try lia;
    destruct (Z.leb_spec (dftblocksize s) (smpls_in_inputbuf s + 1)); lia.
Qed.

(** The counter after a run: the samples count modulo the block length. *)
Lemma run_samples_counter (xs : list double) (s : zratiofiltset_t) :
  fits_block s ->
  fits_block (snd (run_all xs s))
  /\ smpls_in_inputbuf (snd (run_all xs s))
     = (smpls_in_inputbuf s + Z.of_nat (length xs)) mod dftblocksize s
  /\ dftblocksize (snd (run_all xs s)) = dftblocksize s.
Proof.
  revert s. induction xs as [|x xs IH]; intros s Hf; cbn [run_samples length].
  - cbn [snd]. pose proof Hf as (Hd & Hk & _). rewrite Z.add_0_r.
    rewrite Z.mod_small by lia. split; [exact Hf|]. split; reflexivity.
  - pose proof (run_fits x s Hf) as Hf1.
    destruct (ZRatioFacts.run_input dblcmp kiss_fftr x s) as (Hin & _).
    destruct (ZRatioFacts.run_settings dblcmp kiss_fftr x s) as (Hs & _).
    destruct (run x s) as [y s1]. cbn [snd] in *.
    destruct (IH s1 Hf1) as (I1 & I2 & I3).
    destruct (run_all xs s1) as [ys s2]. cbn [snd] in *.
    split; [exact I1|]. split; [|congruence].
    rewrite I2, Hs. unfold store_sample in Hin.
    pose proof (f_equal snd Hin) as Hcnt. cbn [fst snd] in Hcnt.
    rewrite Hcnt. destruct Hf as (Hd & Hk & _).
    destruct (Z.leb_spec (dftblocksize s) (smpls_in_inputbuf s + 1)).
    + assert (E : smpls_in_inputbuf s + 1 = dftblocksize s) by lia.
      replace (smpls_in_inputbuf s + Z.of_nat (S (length xs)))
        with (Z.of_nat (length xs) + 1 * dftblocksize s) by lia.
      rewrite Z.mod_add by lia. reflexivity.
    + f_equal. lia.
Qed.

(** X11.  A filter that [create_zratio_filter] delivers fits its block (at
    least 200 samples, with the counter at 0 and no value yet), and
    [run_zratio_filter], [reset_zratio_filter], [zratio_filter_save_buf]
    and [zratio_filter_restore_buf] keep it so: the sample is always
    stored inside the input buffer, and the copies stay inside the
    buffers. *)
Theorem zratio_filter_fits_block :
  (forall heap_in heap_bu spr d crossoverf bitval s,
     create heap_in heap_bu spr d crossoverf bitval = Some s ->
     dftblocksize s <= Z.of_nat (length heap_in) ->
     dftblocksize s <= Z.of_nat (length heap_bu) ->
     fits_block s /\ 200 <= dftblocksize s
     /\ fft_outputbufsize s = Z.quot (dftblocksize s) 2
     /\ smpls_in_inputbuf s = 0 /\ zratio_value s = Dbl.zero /\ 1 <= f0 s)
  /\ (forall s, fits_block s ->
        (forall x,
           (Z.to_nat (smpls_in_inputbuf s) < length (fft_inputbuf s))%nat
           /\ fits_block (snd (run x s)))
        /\ fits_block (reset_zratio_filter s)
        /\ fits_block (save s)
        /\ fits_block (restore s)).
Proof.
  split.
  - intros heap_in heap_bu spr d crossoverf bitval s Hc Hin Hbu.
    unfold create_zratio_filter, ZRATIO_EPOCH_LEN in Hc. cbv zeta in Hc.
    set (n := wrap_int _) in *.
    destruct (Z.ltb_spec n (2 * 100)); [discriminate|].
    destruct (_ <? 0); [discriminate|].
    destruct (0 <? _); [discriminate|].
    assert (Some_inj : forall (A : Type) (a b : A), Some a = Some b -> a = b)
      by (intros A a b E; injection E as E; exact E).
    pose proof (Some_inj _ _ _ (f_equal (option_map dftblocksize) Hc)) as E1.
    pose proof (Some_inj _ _ _ (f_equal (option_map smpls_in_inputbuf) Hc)) as E2.
    pose proof (Some_inj _ _ _ (f_equal (option_map smpls_in_inputbuf_bu) Hc)) as E3.
    pose proof (Some_inj _ _ _ (f_equal (option_map fft_inputbuf) Hc)) as E4.
    pose proof (Some_inj _ _ _ (f_equal (option_map fft_inputbuf_bu) Hc)) as E5.
    pose proof (Some_inj _ _ _ (f_equal (option_map fft_outputbufsize) Hc)) as E6.
    pose proof (Some_inj _ _ _ (f_equal (option_map zratio_value) Hc)) as E7.
    pose proof (Some_inj _ _ _ (f_equal (option_map f0) Hc)) as E8.
    clear Hc.
    cbn [option_map dftblocksize smpls_in_inputbuf smpls_in_inputbuf_bu
         fft_inputbuf fft_inputbuf_bu fft_outputbufsize zratio_value f0]
      in E1, E2, E3, E4, E5, E6, E7, E8.
    unfold fits_block.
    rewrite <- E1, <- E2, <- E3, <- E4, <- E5, <- E6, <- E7, <- E8 in *.
    rewrite !length_take.
    repeat split; try lia.
    match goal with |- 1 <= (if ?c then 1 else ?x) =>
      destruct (Z.ltb_spec x 1); lia end.
  - intros s Hf. split; [|split; [|split]].
    + intros x. split; [|apply run_fits, Hf].
      destruct Hf as (Hd & Hk & _ & Hl & _). lia.
    + destruct Hf as (Hd & Hk & Hkb & Hl & Hlb). unfold fits_block. cbn.
      repeat split; lia.
    + destruct Hf as (Hd & Hk & Hkb & Hl & Hlb). unfold fits_block.
      cbn [zratio_filter_save_buf set_backup dftblocksize smpls_in_inputbuf
           smpls_in_inputbuf_bu fft_inputbuf fft_inputbuf_bu].
      rewrite length_memcpy_doubles by lia. repeat split; lia.
    + destruct Hf as (Hd & Hk & Hkb & Hl & Hlb). unfold fits_block.
      cbn [zratio_filter_restore_buf set_running dftblocksize smpls_in_inputbuf
           smpls_in_inputbuf_bu fft_inputbuf fft_inputbuf_bu].
      rewrite length_memcpy_doubles by lia. repeat split; lia.
Qed.

(** X12.  The counter of a filter that fits its block counts the samples
    modulo the block length: after any samples it is the counter before
    plus their number, modulo [dftblocksize], so a block is completed at
    every [dftblocksize]-th sample after a reset. *)
Theorem zratio_counter_counts_modulo (xs : list double) (s : zratiofiltset_t) :
  fits_block s ->
  smpls_in_inputbuf (snd (run_all xs s))
    = (smpls_in_inputbuf s + Z.of_nat (length xs)) mod dftblocksize s
  /\ smpls_in_inputbuf (snd (run_all xs (reset_zratio_filter s)))
     = Z.of_nat (length xs) mod dftblocksize s.
Proof.
  intros Hf. split; [apply run_samples_counter, Hf|].
  assert (Hr : fits_block (reset_zratio_filter s)).
  { destruct Hf as (Hd & Hk & Hkb & Hl & Hlb). unfold fits_block. cbn.
    repeat split; lia. }
  destruct (run_samples_counter xs _ Hr) as (_ & -> & _). reflexivity.
Qed.

Lemma run_samples_bitvalue (xs : list double) (s : zratiofiltset_t) :
  bitvalue (snd (run_all xs s)) = bitvalue s.
Proof.
  revert s. induction xs as [|x xs IH]; intros s; cbn [run_samples];
    [reflexivity|].
  destruct (ZRatioFacts.run_settings dblcmp kiss_fftr x s) as (_ & Hb).
  destruct (run x s) as [y s1]. cbn [snd] in *.
  specialize (IH s1). destruct (run_all xs s1) as [ys s2]. cbn [snd] in *.
  congruence.
Qed.

(** X13.  [zratio_filter_restore_buf] after [zratio_filter_save_buf] and
    any samples in between gives back the counter and the stored value
    that were saved, and with them the value the filter returns between
    blocks; the settings are left alone: a run never writes the backup. *)
Theorem zratio_restore_counter_and_value (xs : list double) (s : zratiofiltset_t) :
  let s' := restore (snd (run_all xs (save s))) in
  smpls_in_inputbuf s' = smpls_in_inputbuf s
  /\ zratio_value s' = zratio_value s
  /\ dftblocksize s' = dftblocksize s
  /\ bitvalue s' = bitvalue s
  /\ Dbl.div (zratio_value s') (bitvalue s') = Dbl.div (zratio_value s) (bitvalue s).
Proof.
  intros s'. subst s'.
  destruct (ZRatioFacts.run_samples_input dblcmp kiss_fftr xs (save s))
    as (_ & Hd & _ & Hn & Hv).
  pose proof (run_samples_bitvalue xs (save s)) as Hb.
  set (t := snd (run_all xs (save s))) in *.
  unfold zratio_filter_restore_buf.
  cbn [set_running smpls_in_inputbuf zratio_value dftblocksize bitvalue].
  rewrite Hn, Hv, Hd, Hb. repeat split.
Qed.

End Filter.

(** X12 for the filter that is 100 samples into a block of 200: after 150
    more samples the counter is at 50, and at 150 when the filter was reset
    before them. *)
Lemma zratio_counter_counts_modulo_witness :
  smpls_in_inputbuf
    (snd (run_samples StandIn.exact_dblcmp StandIn.flat_spectrum
            (replicate 150 Dbl.zero) at_checkpoint))
  = (smpls_in_inputbuf at_checkpoint
     + Z.of_nat (length (replicate 150 Dbl.zero))) mod dftblocksize at_checkpoint
  /\ smpls_in_inputbuf
       (snd (run_samples StandIn.exact_dblcmp StandIn.flat_spectrum
               (replicate 150 Dbl.zero) (reset_zratio_filter at_checkpoint)))
     = Z.of_nat (length (replicate 150 Dbl.zero)) mod dftblocksize at_checkpoint.
Proof.
  apply zratio_counter_counts_modulo.
  unfold fits_block. repeat split; vm_compute; congruence.
Defined.

End ZRatioBlocks.

(** ** The math functions *)
Module MathFuncFacts.
Import MathFunc.

Lemma SFcompare_refl_not_Lt (x : double) : SFcompare x x <> Some Lt.
Proof.
  destruct x as [s|s| |s m e]; cbn; try discriminate.
  - destruct s; discriminate.
  - rewrite Z.compare_refl.
    change (PosDef.Pos.compare_cont Eq m m) with (Pos.compare m m).
    rewrite Pos.compare_refl. destruct s; discriminate.
Qed.

Lemma ltb_irrefl (x : double) : Dbl.ltb x x = false.
Proof.
  unfold Dbl.ltb, SFltb.
  pose proof (SFcompare_refl_not_Lt x) as H.
  destruct (SFcompare x x) as [[]|]; congruence.
Qed.

(** A rounded value has the sign it was given, so with the sign of a
    positive number it is not below zero. *)
Lemma round_not_below_zero (m e : Z) (l : location) :
  lt_zero (binary_round_aux Dbl.prec Dbl.emax false m e l) = false.
Proof.
  unfold binary_round_aux.
  destruct (shr_fexp _ _ m e l) as [mrs' e'].
  destruct (shr_fexp _ _ _ e' loc_Exact) as [mrs'' e''].
  destruct (shr_m mrs'') as [|p|p]; try reflexivity.
  destruct (e'' <=? _); reflexivity.
Qed.

Lemma square_not_below_zero (x : double) :
  lt_zero x = false -> lt_zero (Dbl.mul x x) = false.
Proof.
  intros _. unfold Dbl.mul.
  destruct x as [s|s| |s m e]; cbn [SFmul]; try reflexivity;
    try (destruct s; reflexivity).
  replace (xorb s s) with false by (destruct s; reflexivity).
  apply round_not_below_zero.
Qed.

Lemma sqrt_not_below_zero (x : double) :
  lt_zero (SFsqrt Dbl.prec Dbl.emax x) = false.
Proof.
  destruct x as [s|s| |s m e]; cbn [SFsqrt]; try reflexivity;
    destruct s; try reflexivity.
  destruct (SFsqrt_core_binary _ _ _ _) as [[mz ez] lz].
  apply round_not_below_zero.
Qed.

Lemma abs_not_below_zero (x : double) : lt_zero (SFabs x) = false.
Proof. destruct x; reflexivity. Qed.

Lemma run_math_func_holding (x : double) (st : mathfuncset_t) :
  holding st ->
  holding (snd (run_math_func x st))
  /\ pk_hold_smpls_set (snd (run_math_func x st)) = pk_hold_smpls_set st
  /\ pk_hold_val (snd (run_math_func x st)) = fst (run_math_func x st)
  /\ Dbl.ltb (fst (run_math_func x st)) x = false
  /\ (fst (run_math_func x st) = x
        /\ pk_hold_smpl_cntr (snd (run_math_func x st)) = 0
      \/ fst (run_math_func x st) = pk_hold_val st
        /\ pk_hold_smpl_cntr (snd (run_math_func x st))
           = pk_hold_smpl_cntr st + 1).
Proof.
  intros (Hf & Hs & Hc). unfold run_math_func, holding. rewrite Hf.
  destruct (Dbl.ltb (pk_hold_val st) x) eqn:Hlt; cbn [orb].
  - cbn. rewrite ltb_irrefl. repeat split; auto; lia.
  - destruct (Z.leb_spec (pk_hold_smpls_set st) (pk_hold_smpl_cntr st + 1)).
    + cbn. rewrite ltb_irrefl. repeat split; auto; lia.
    + cbn. repeat split; auto; lia.
Qed.

Lemma run_math_samples_cons (x : double) (xs : list double)
    (st : mathfuncset_t) :
  run_math_samples (x :: xs) st
  = (fst (run_math_func x st)
       :: fst (run_math_samples xs (snd (run_math_func x st))),
     snd (run_math_samples xs (snd (run_math_func x st)))).
Proof.
  cbn [run_math_samples].
  destruct (run_math_func x st) as [y st1]. cbn [fst snd].
  destruct (run_math_samples xs st1) as [ys st2]. reflexivity.
Qed.

Lemma run_math_samples_holding (xs : list double) (st : mathfuncset_t) :
  holding st ->
  holding (snd (run_math_samples xs st))
  /\ pk_hold_smpls_set (snd (run_math_samples xs st)) = pk_hold_smpls_set st.
Proof.
  revert st. induction xs as [|x xs IH]; intros st H.
  - cbn. auto.
  - rewrite run_math_samples_cons. cbn [snd].
    destruct (run_math_func_holding x st H) as (H1 & H2 & _).
    destruct (IH _ H1) as (H3 & H4). split; [exact H3|congruence].
Qed.

(** X15.  The counter of a peak hold stays in bounds: a peak-hold block as
    [create_math_func] returns it has its counter at least 0 and below the
    number of samples it holds for, and [run_math_func] keeps it so, and keeps
    that number, over any run of samples. *)
Theorem peak_hold_counter_in_bounds :
  (forall pk_smpls st,
     create_math_func (code_of MATH_FUNC_PK_HOLD) pk_smpls = Some st ->
     holding st /\ pk_hold_smpls_set st = pk_smpls)
  /\ (forall xs st, holding st ->
        holding (snd (run_math_samples xs st))
        /\ pk_hold_smpls_set (snd (run_math_samples xs st))
           = pk_hold_smpls_set st).
Proof.
  split.
  - intros n st. unfold create_math_func. cbn.
    destruct (Z.ltb_spec n 1); [discriminate|].
    intros [= <-]. unfold holding. cbn. repeat split; auto; lia.
  - intros xs st. apply run_math_samples_holding.
Qed.

(** X16.  What a peak hold returns: over any run of samples every output is
    the sample just given or the output before it (at the first sample, the
    value held so far), and it is never below the sample just given; there is
    one output per sample and the value held afterwards is the last output. *)
Theorem peak_hold_outputs (xs : list double) (st : mathfuncset_t) :
  holding st ->
  let ys := fst (run_math_samples xs st) in
  length ys = length xs
  /\ (forall i x y, xs !! i = Some x -> ys !! i = Some y ->
        Dbl.ltb y x = false
        /\ (y = x \/ (pk_hold_val st :: ys) !! i = Some y))
  /\ last (pk_hold_val st :: ys)
     = Some (pk_hold_val (snd (run_math_samples xs st))).
Proof.
  revert st. induction xs as [|x xs IH]; intros st H ys; subst ys.
  - cbn. split; [reflexivity|]. split; [|reflexivity].
    intros i x y Hx. rewrite lookup_nil in Hx. discriminate.
  - rewrite run_math_samples_cons. cbn [fst snd].
    destruct (run_math_func_holding x st H) as (H1 & _ & Hv & Hlt & Hy).
    destruct (IH _ H1) as (Hlen & Hout & Hlast).
    split; [cbn; congruence|]. split.
    + intros [|i] x' y Hx Hy'; cbn in Hx, Hy'.
      * injection Hx as <-. injection Hy' as <-.
        split; [exact Hlt|].
        destruct Hy as [[Hy _]|[Hy _]]; [left; exact Hy|right; cbn; congruence].
      * destruct (Hout i x' y Hx Hy') as (Ha & Hb). split; [exact Ha|].
        destruct Hb as [Hb|Hb]; [left; exact Hb|right].
        rewrite Hv in Hb. exact Hb.
    + rewrite Hv in Hlast. exact Hlast.
Qed.

(** The counter of a peak hold goes up by one with every sample that is
    not returned as it came. *)
Lemma peak_hold_counts_held (xs : list double) (st : mathfuncset_t) :
  holding st ->
  (exists i x, xs !! i = Some x
     /\ fst (run_math_samples xs st) !! i = Some x)
  \/ pk_hold_smpl_cntr (snd (run_math_samples xs st))
     = pk_hold_smpl_cntr st + Z.of_nat (length xs).
Proof.
  revert st. induction xs as [|x xs IH]; intros st H.
  - right. cbn. lia.
  - rewrite run_math_samples_cons. cbn [fst snd].
    destruct (run_math_func_holding x st H) as (H1 & _ & _ & _ & Hy).
    destruct Hy as [[Hy _]|[_ Hc]].
    + left. exists 0%nat, x. cbn. rewrite Hy. auto.
    + destruct (IH _ H1) as [(i & x' & Hx & Hy)|Hn].
      * left. exists (S i), x'. cbn. auto.
      * right. rewrite Hn, Hc. cbn [length]. lia.
Qed.

(** X17.  A peak is held for less than the number of samples set: among as
    many samples in a row as the block holds for, at least one is returned
    as it came. *)
Theorem peak_hold_renewed (xs : list double) (st : mathfuncset_t) :
  holding st ->
  Z.of_nat (length xs) = pk_hold_smpls_set st ->
  exists i x, xs !! i = Some x
    /\ fst (run_math_samples xs st) !! i = Some x.
Proof.
  intros H Hlen.
  destruct (peak_hold_counts_held xs st H) as [Hp|Hc]; [exact Hp|].
  destruct (run_math_samples_holding xs st H) as ((_ & _ & Hb) & Hs).
  destruct H as (_ & _ & Hc0). lia.
Qed.

(** X18.  Square, square root and absolute value keep no state and add no
    sign: the block is the same after any run of samples, each output
    depending on its sample alone, and an output is below zero only if the
    sample is (for the absolute value, never). *)
Theorem plain_math_funcs (xs : list double) (st : mathfuncset_t) :
  func st <> Some MATH_FUNC_PK_HOLD ->
  run_math_samples xs st
  = (map (fun x => fst (run_math_func x st)) xs, st)
  /\ (forall x, lt_zero (fst (run_math_func x st)) = true ->
        lt_zero x = true /\ func st <> Some MATH_FUNC_ABS).
Proof.
  intros Hf.
  assert (Hst : forall x, snd (run_math_func x st) = st).
  { intros x. unfold run_math_func.
    destruct (func st) as [[]|]; try reflexivity. congruence. }
  split.
  - induction xs as [|x xs IH]; [reflexivity|].
    rewrite run_math_samples_cons, Hst, IH. reflexivity.
  - intros x. unfold run_math_func.
    destruct (func st) as [[]|] eqn:Ef; cbn [fst].
    + intros ->. split; [reflexivity|discriminate].
    + destruct (lt_zero x) eqn:Hx; [intros _; split; [reflexivity|discriminate]|].
      rewrite (square_not_below_zero x Hx). discriminate.
    + destruct (lt_zero x) eqn:Hx; [intros _; split; [reflexivity|discriminate]|].
      rewrite sqrt_not_below_zero. discriminate.
    + rewrite abs_not_below_zero. discriminate.
    + congruence.
    + discriminate.
Qed.

(** *** The properties at concrete inputs *)

Lemma peak_hold_3_holding : holding StandIn.peak_hold_3.
Proof. unfold holding. cbn. repeat split; lia. Defined.

(** X16 for a peak hold over 3 samples and the samples 5, 3, 1. *)
Lemma peak_hold_outputs_witness :
  length (fst (run_math_samples StandIn.falling StandIn.peak_hold_3))
  = length StandIn.falling
  /\ (forall i x y, StandIn.falling !! i = Some x ->
        fst (run_math_samples StandIn.falling StandIn.peak_hold_3) !! i = Some y ->
        Dbl.ltb y x = false
        /\ (y = x
            \/ (pk_hold_val StandIn.peak_hold_3
                  :: fst (run_math_samples StandIn.falling StandIn.peak_hold_3))
               !! i = Some y))
  /\ last (pk_hold_val StandIn.peak_hold_3
            :: fst (run_math_samples StandIn.falling StandIn.peak_hold_3))
     = Some (pk_hold_val
               (snd (run_math_samples StandIn.falling StandIn.peak_hold_3))).
Proof.
  exact (peak_hold_outputs StandIn.falling StandIn.peak_hold_3
           peak_hold_3_holding).
Defined.

(** X17 for the same block and samples: the first sample is returned as it
    came. *)
Lemma peak_hold_renewed_witness :
  exists i x, StandIn.falling !! i = Some x
    /\ fst (run_math_samples StandIn.falling StandIn.peak_hold_3) !! i = Some x.
Proof.
  exact (peak_hold_renewed StandIn.falling StandIn.peak_hold_3
           peak_hold_3_holding eq_refl).
Defined.

(** X18 for the square. *)
Lemma plain_math_funcs_witness :
  run_math_samples StandIn.falling StandIn.square_block
  = (map (fun x => fst (run_math_func x StandIn.square_block)) StandIn.falling,
     StandIn.square_block)
  /\ (forall x, lt_zero (fst (run_math_func x StandIn.square_block)) = true ->
        lt_zero x = true /\ func StandIn.square_block <> Some MATH_FUNC_ABS).
Proof.
  apply plain_math_funcs. cbn. discriminate.
Defined.

End MathFuncFacts.
(** ** The view buffer *)
Module ViewBufFacts.
Import ViewBuf.

Section Window.

Context {FL : FilterLib}.
Variable lp64 : bool.
Variable malloc_fails : Z -> bool.

Local Abbreviation allocate := (allocate lp64 malloc_fails).
Local Abbreviation warm_up := (warm_up lp64 malloc_fails).
Local Abbreviation materialize := (materialize lp64 malloc_fails).
Local Abbreviation setup_viewbuf := (setup_viewbuf lp64 malloc_fails).
Local Abbreviation granted := (granted lp64 malloc_fails).

(** *** Loops *)

Lemma for_comps_app {S : Type}
    (body : list signalcompblock -> signalcompblock -> S -> signalcompblock * S)
    (done l1 l2 : list signalcompblock) (s : S) :
  for_comps body done (l1 ++ l2) s
    = for_comps body (for_comps body done l1 s).1 l2 (for_comps body done l1 s).2.
Proof.
  revert done s. induction l1 as [|c l1 IH]; intros done s; cbn.
  - reflexivity.
  - destruct (body done c s) as [c' s']. apply IH.
Qed.

(** A loop whose body does not look at the compositions before. *)
Lemma for_comps_map_fold {S : Type}
    (g : signalcompblock -> S -> signalcompblock * S)
    (done todo : list signalcompblock) (s : S) :
  (forall c s, (g c s).1 = c) ->
  for_comps (fun _ => g) done todo s
    = (done ++ todo, fold_left (fun s c => (g c s).2) todo s).
Proof.
  intros Hg. revert done s. induction todo as [|c todo IH]; intros done s; cbn.
  - rewrite app_nil_r. reflexivity.
  - specialize (Hg c s). destruct (g c s) as [c' s']. cbn in *. subst c'.
    rewrite IH, <- app_assoc. reflexivity.
Qed.

(** What holds of the state before a loop and is kept by its body holds
    when the loop is left, either way. *)
Lemma for_comps_return_inv {S : Type} (P : S -> Prop)
    (body : list signalcompblock -> signalcompblock -> S -> flow (signalcompblock * S))
    (done todo : list signalcompblock) (s : S) :
  (forall done c s, P s -> P (final (body done c s)).2) ->
  P s -> P (final (for_comps_return body done todo s)).2.
Proof.
  intros Hbody. revert done s.
  induction todo as [|c todo IH]; intros done s Hs; cbn.
  - exact Hs.
  - specialize (Hbody done c s Hs).
    destruct (body done c s) as [[c' s']|[c' s']]; cbn in *.
    + apply IH, Hbody.
    + exact Hbody.
Qed.

Lemma for_comps_inv {S : Type} (P : S -> Prop)
    (body : list signalcompblock -> signalcompblock -> S -> signalcompblock * S)
    (done todo : list signalcompblock) (s : S) :
  (forall done c s, P s -> P (body done c s).2) ->
  P s -> P (for_comps body done todo s).2.
Proof.
  intros Hbody. revert done s.
  induction todo as [|c todo IH]; intros done s Hs; cbn.
  - exact Hs.
  - specialize (Hbody done c s Hs).
    destruct (body done c s) as [c' s']. apply IH, Hbody.
Qed.

Lemma final_and_then {A B : Type} (r : flow A) (k : A -> flow B) (early : A -> B) :
  final (and_then r k early)
    = match r with Next a => final (k a) | Return a => early a end.
Proof. destruct r; reflexivity. Qed.

(** *** The headers are only written where the warm-up time is set *)

Lemma fseeko_headers (hdl pos : Z) (w : window) :
  edfheaderlist (fseeko hdl pos w) = edfheaderlist w.
Proof.
  unfold fseeko. cbn. destruct (files w !! hdl); [|reflexivity].
  destruct (pos <? 0); reflexivity.
Qed.

Lemma store_viewbuf_headers (off : Z) (data : list cell) (w : window) :
  edfheaderlist (store_viewbuf off data w) = edfheaderlist w.
Proof. unfold store_viewbuf. destruct (viewbuf w); reflexivity. Qed.

Lemma fread_headers (off size hdl : Z) (w : window) :
  edfheaderlist (fread off size hdl w).2 = edfheaderlist w.
Proof.
  unfold fread. destruct (files w !! hdl); cbn; [|reflexivity].
  apply store_viewbuf_headers.
Qed.

Lemma report_error_headers (m : message) (w : window) :
  edfheaderlist (report_error m w) = edfheaderlist w.
Proof. reflexivity. Qed.

Lemma clamp_pagetime_headers (w : window) :
  edfheaderlist (clamp_pagetime w) = edfheaderlist w.
Proof. unfold clamp_pagetime. destruct (_ <? _); reflexivity. Qed.

Lemma allocate_headers (m : message) (n : Z) (w : window) :
  edfheaderlist (final (allocate m n w)) = edfheaderlist w.
Proof.
  unfold ViewBuf.allocate.
  destruct (_ <=? _);
    [unfold final; rewrite clamp_pagetime_headers; reflexivity|].
  destruct (malloc_fails n);
    [unfold final; rewrite clamp_pagetime_headers; reflexivity|reflexivity].
Qed.

Lemma free_viewbuf_headers (w : window) :
  edfheaderlist (free_viewbuf w) = edfheaderlist w.
Proof. unfold free_viewbuf. destruct (viewbuf w); reflexivity. Qed.

Lemma read_prefilter_step_headers (done : list signalcompblock)
    (c : signalcompblock) (w : window) :
  edfheaderlist (final (read_prefilter_step done c w)).2 = edfheaderlist w.
Proof.
  unfold read_prefilter_step.
  destruct (match done with [] => true | _ => _ end); [|reflexivity].
  destruct (_ && _); [|reflexivity].
  match goal with |- context [fread ?a ?b ?c ?d] =>
    pose proof (fread_headers a b c d) as E; destruct (fread a b c d) as [ok w'] end.
  unfold snd in E.
  destruct ok; unfold final, snd; [|rewrite report_error_headers];
    rewrite E; apply fseeko_headers.
Qed.

Lemma memset0_headers (off n : Z) (w : window) :
  edfheaderlist (memset0 off n w) = edfheaderlist w.
Proof. apply store_viewbuf_headers. Qed.

Lemma read_view_step_headers (done : list signalcompblock)
    (c : signalcompblock) (w : window) :
  edfheaderlist (final (read_view_step done c w)).2 = edfheaderlist w.
Proof.
  unfold read_view_step.
  set (skip := match done with [] => false | _ => _ end). clearbody skip.
  destruct (_ <=? 0).
  { unfold final, snd. destruct skip; [reflexivity | apply memset0_headers]. }
  set (w1 := if _ && negb skip then _ else w).
  assert (H1 : edfheaderlist w1 = edfheaderlist w).
  { subst w1. destruct (_ && _); [apply memset0_headers | reflexivity]. }
  clearbody w1.
  destruct skip; [exact H1|].
  match goal with |- context [fread ?a ?b ?c ?d] =>
    pose proof (fread_headers a b c d) as E; destruct (fread a b c d) as [ok w'] end.
  unfold snd in E.
  destruct ok; unfold final, snd; [|rewrite report_error_headers];
    rewrite E, fseeko_headers; exact H1.
Qed.

Lemma materialize_headers (w : window) :
  edfheaderlist (final (materialize w)) = edfheaderlist w.
Proof.
  unfold ViewBuf.materialize.
  destruct (for_comps _ _ _ _) as [comps totalsize].
  rewrite final_and_then.
  set (w1 := free_viewbuf (set_signalcomp comps w)).
  assert (H1 : edfheaderlist w1 = edfheaderlist w)
    by (subst w1; rewrite free_viewbuf_headers; reflexivity).
  clearbody w1.
  assert (H2 : edfheaderlist
                 (final (if totalsize =? 0 then Next w1
                         else allocate msg_alloc_resources totalsize w1))
               = edfheaderlist w).
  { destruct (_ =? 0); [exact H1 | rewrite allocate_headers; exact H1]. }
  destruct (if totalsize =? 0 then _ else _) as [w2|w2]; unfold final in H2;
    [|exact H2].
  rewrite final_and_then.
  pose proof (for_comps_return_inv (fun s => edfheaderlist s = edfheaderlist w)
                read_view_step [] (signalcomp w2) w2) as H3.
  cbv beta in H3.
  destruct (for_comps_return _ _ _ _) as [[cs w3]|[cs w3]]; cbn [final snd] in H3;
    cbn; apply H3; try exact H2;
    intros d c s Hs; rewrite read_view_step_headers; exact Hs.
Qed.

Lemma warm_up_headers (pre_time : double) (w : window) :
  edfheaderlist (final (warm_up pre_time w))
    = set_prefiltertimes pre_time (signalcomp w) (edfheaderlist w).
Proof.
  unfold ViewBuf.warm_up.
  set (hdrs := set_prefiltertimes _ _ _).
  set (w0 := set_edfheaderlist hdrs w).
  destruct (for_comps _ _ _ _) as [comps totalsize].
  rewrite final_and_then.
  set (w1 := free_viewbuf (set_signalcomp comps w0)).
  assert (H1 : edfheaderlist w1 = hdrs)
    by (subst w1; rewrite free_viewbuf_headers; reflexivity).
  clearbody w1.
  pose proof (allocate_headers msg_alloc_prefilterbuf totalsize w1) as H2.
  rewrite H1 in H2.
  destruct (allocate _ _ _) as [w2|w2]; unfold final in H2; [|exact H2].
  rewrite final_and_then.
  pose proof (for_comps_return_inv (fun s => edfheaderlist s = hdrs)
                read_prefilter_step [] (signalcomp w2) w2) as H3.
  cbv beta in H3.
  destruct (for_comps_return _ _ _ _) as [[cs w3]|[cs w3]]; cbn [final snd] in H3.
  - destruct (for_comps _ _ _ _) as [cs' d]. cbn. apply H3; [|exact H2].
    intros d' c s Hs. rewrite read_prefilter_step_headers. exact Hs.
  - cbn. apply H3; [|exact H2].
    intros d' c s Hs. rewrite read_prefilter_step_headers. exact Hs.
Qed.

(** *** The warm-up time *)

Lemma has_filters_false (c : signalcompblock) :
  has_filters c = false ->
  filter c = [] /\ spike_filter c = None /\ ravg_filter c = []
  /\ fidfilter c = [] /\ fir_filter c = [] /\ plif_ecg_filter c = None
  /\ plif_eeg_filter c = None /\ ecg_filter c = None /\ zratio_filter c = None.
Proof.
  unfold has_filters. intros H.
  repeat (apply orb_false_elim in H; destruct H as [H ?]).
  repeat match goal with
         | H : cnt ?l = false |- _ => is_var l; destruct l; [clear H | discriminate H]
         | H : cnt ?l = false |- _ =>
             let E := fresh in destruct l eqn:E; [clear H | discriminate H]
         | H : nonnull ?o = false |- _ =>
             let E := fresh in destruct o eqn:E; [discriminate H | clear H]
         end.
  repeat split; reflexivity.
Qed.

(** A composition without filters leaves [pre_time] and [hasprefilter]. *)
Lemma pre_time_step_plain (acc : double * bool) (c : signalcompblock) :
  has_filters c = false -> pre_time_step acc c = (acc.1, acc.2, c).
Proof.
  intros H. pose proof (has_filters_false c H) as (H1 & H2 & H3 & H4 & H5 & H6 & H7 & H8 & H9).
  destruct acc as [pt has]. destruct c; cbn in *; subst.
  unfold pre_time_step, has_filters; cbn. rewrite orb_false_r. reflexivity.
Qed.

Lemma only_first_order_has_filters (f : first_order_filter_t) (c : signalcompblock) :
  only_first_order f c -> has_filters c = true.
Proof. intros (H & _). unfold has_filters. rewrite H. reflexivity. Qed.

(** A composition with one first-order filter raises [pre_time] to the
    period of the cutoff frequency. *)
Lemma pre_time_step_first_order (acc : double * bool) (f : first_order_filter_t)
    (c : signalcompblock) :
  only_first_order f c ->
  pre_time_step acc c
    = (raise_to (Dbl.div (Dbl.of_Z 1) (cutoff_frequency f)) acc.1, true, c).
Proof.
  intros Hc. pose proof Hc as (H1 & H2 & H3 & H4 & H5 & H6 & H7 & H8 & H9).
  destruct acc as [pt has]. destruct c; cbn in *; subst.
  unfold pre_time_step, has_filters; cbn. rewrite orb_true_r. reflexivity.
Qed.

Lemma pre_time_loop_plain (done todo : list signalcompblock) (acc : double * bool) :
  Forall (fun d => has_filters d = false) todo ->
  for_comps (fun _ c acc => let '(acc, c) := pre_time_step acc c in (c, acc))
    done todo acc = (done ++ todo, acc).
Proof.
  intros H. revert done. induction H as [|c todo Hc _ IH]; intros done; cbn.
  - rewrite app_nil_r. reflexivity.
  - rewrite (pre_time_step_plain acc c Hc). destruct acc as [pt has]. cbn.
    rewrite IH, <- app_assoc. reflexivity.
Qed.

Lemma set_prefiltertimes_plain (pre_time : double)
    (comps : list signalcompblock) (hdrs : list edfhdrblock) :
  Forall (fun d => has_filters d = false) comps ->
  set_prefiltertimes pre_time comps hdrs = hdrs.
Proof.
  intros H. revert hdrs. unfold set_prefiltertimes.
  induction H as [|c comps Hc _ IH]; intros hdrs; cbn; [reflexivity|].
  rewrite Hc. apply IH.
Qed.

(** The headers after the loop of lines 173-186 when one composition has
    filters. *)
Lemma set_prefiltertimes_one (pre_time : double)
    (before after : list signalcompblock) (c : signalcompblock)
    (hdrs : list edfhdrblock) (h : edfhdrblock) :
  Forall (fun d => has_filters d = false) (before ++ after) ->
  has_filters c = true ->
  hdrs !! edfhdr c = Some h ->
  set_prefiltertimes pre_time (before ++ c :: after) hdrs !! edfhdr c
    = Some (set_prefiltertime (clamp_prefiltertime pre_time (viewtime h)) h).
Proof.
  intros Hplain Hc Hh. apply Forall_app in Hplain as [Hb Ha].
  unfold set_prefiltertimes. rewrite fold_left_app. cbn [fold_left].
  fold (set_prefiltertimes pre_time before hdrs).
  rewrite (set_prefiltertimes_plain _ _ _ Hb), Hc.
  match goal with |- fold_left ?f after ?x !! _ = _ =>
    change (fold_left f after x) with (set_prefiltertimes pre_time after x) end.
  rewrite (set_prefiltertimes_plain _ _ _ Ha).
  unfold hdr_of. rewrite Hh. cbn [default].
  apply list_lookup_insert_eq. apply lookup_lt_Some in Hh. exact Hh.
Qed.

Lemma pre_time_loop_one (before after : list signalcompblock)
    (c : signalcompblock) (f : first_order_filter_t) :
  Forall (fun d => has_filters d = false) (before ++ after) ->
  only_first_order f c ->
  pre_time_loop (before ++ c :: after)
    = (before ++ c :: after,
       (raise_to (Dbl.div (Dbl.of_Z 1) (cutoff_frequency f)) Dbl.zero, true)).
Proof.
  intros Hplain Hc. apply Forall_app in Hplain as [Hb Ha].
  unfold pre_time_loop. rewrite for_comps_app, (pre_time_loop_plain _ _ _ Hb).
  cbn [fst snd for_comps app].
  rewrite (pre_time_step_first_order _ f c Hc). cbn [fst snd].
  rewrite (pre_time_loop_plain _ _ _ Ha), <- app_assoc. reflexivity.
Qed.

(** C4, as the code has it.  When the only filter with a state among the
    compositions is one first-order filter of cutoff frequency [f] (with
    [1.0 / f] positive), [setup_viewbuf] leaves in the header of that
    composition a warm-up time of [(long long)((1.0 / f) * 10000000)] ticks,
    the product truncated toward zero, when that is at most the view time;
    the view time when it is less; and 0 when the view time is negative. *)
Theorem lowpass_prefiltertime (w : window)
    (before after : list signalcompblock) (c : signalcompblock)
    (f : first_order_filter_t) (h : edfhdrblock) :
  signalcomp w = before ++ c :: after ->
  Forall (fun d => has_filters d = false) (before ++ after) ->
  only_first_order f c ->
  edfheaderlist w !! edfhdr c = Some h ->
  Dbl.ltb Dbl.zero (Dbl.div (Dbl.of_Z 1) (cutoff_frequency f)) = true ->
  0 <= Dbl.cast_ll (period_ticks (cutoff_frequency f)) ->
  edfheaderlist (final (setup_viewbuf w)) !! edfhdr c
    = Some (set_prefiltertime
              (if viewtime h <? 0 then 0
               else Z.min (Dbl.cast_ll (period_ticks (cutoff_frequency f)))
                          (viewtime h)) h).
Proof.
  intros Hw Hplain Hc Hh Hpos Hrange.
  unfold ViewBuf.setup_viewbuf.
  cbn [signalcomp set_edfheaderlist]. rewrite Hw.
  rewrite (pre_time_loop_one _ _ _ _ Hplain Hc).
  rewrite final_and_then.
  set (w0 := set_signalcomp _ _).
  assert (Hw0 : edfheaderlist w0 = map (set_prefiltertime 0) (edfheaderlist w))
    by reflexivity.
  assert (Hc0 : signalcomp w0 = before ++ c :: after) by reflexivity.
  clearbody w0.
  pose proof (warm_up_headers
                (raise_to (Dbl.div (Dbl.of_Z 1) (cutoff_frequency f)) Dbl.zero) w0)
    as Hwarm.
  assert (Hfin : edfheaderlist
                   match warm_up
                           (raise_to (Dbl.div (Dbl.of_Z 1) (cutoff_frequency f))
                              Dbl.zero) w0 with
                   | Next a => final (materialize a)
                   | Return a => id a
                   end
                 = set_prefiltertimes
                     (raise_to (Dbl.div (Dbl.of_Z 1) (cutoff_frequency f)) Dbl.zero)
                     (signalcomp w0) (edfheaderlist w0)).
  { destruct (warm_up _ w0) as [w1|w1]; cbn [final] in Hwarm.
    - rewrite materialize_headers. exact Hwarm.
    - exact Hwarm. }
  rewrite Hfin, Hc0, Hw0.
  erewrite set_prefiltertimes_one;
    [| exact Hplain | exact (only_first_order_has_filters _ _ Hc)
     | rewrite list_lookup_fmap, Hh; reflexivity].
  f_equal. unfold raise_to. rewrite Hpos.
  unfold clamp_prefiltertime. fold (period_ticks (cutoff_frequency f)).
  destruct h as [hdl vt pt d rs hs n b e ps]. unfold set_prefiltertime.
  cbn [file_hdl viewtime prefiltertime long_data_record_duration recordsize
       hdrsize datarecords bdf edf edfparam].
  f_equal.
  destruct (Z.ltb_spec vt (Dbl.cast_ll (period_ticks (cutoff_frequency f))));
    destruct (Z.ltb_spec vt 0); lia.
Qed.

(** *** The ceiling of the buffer *)

Lemma capacity_ceiling_pos : 0 < capacity_ceiling lp64.
Proof. unfold capacity_ceiling. destruct lp64; reflexivity. Qed.

Lemma allocate_over_ceiling (m : message) (totalsize : Z) (w : window) :
  capacity_ceiling lp64 <= totalsize ->
  allocate m totalsize w = Return (clamp_pagetime (report_error msg_memory_limit w)).
Proof.
  intros H. unfold ViewBuf.allocate.
  destruct (Z.leb_spec (capacity_ceiling lp64) totalsize); [reflexivity | lia].
Qed.

Lemma clamp_pagetime_min (w : window) :
  pagetime (clamp_pagetime w) = Z.min (pagetime w) TIME_FIXP_SCALING.
Proof.
  unfold clamp_pagetime.
  destruct (Z.ltb_spec TIME_FIXP_SCALING (pagetime w)); cbn; lia.
Qed.

Lemma clamp_pagetime_rest (w : window) :
  events (clamp_pagetime w) = events w
  /\ viewbuf (clamp_pagetime w) = viewbuf w
  /\ live_stream_active (clamp_pagetime w) = live_stream_active w
  /\ files (clamp_pagetime w) = files w.
Proof. unfold clamp_pagetime. destruct (_ <? _); cbn; auto. Qed.

Lemma free_viewbuf_rest (w : window) :
  events (free_viewbuf w) = events w
  /\ viewbuf (free_viewbuf w) = None
  /\ pagetime (free_viewbuf w) = pagetime w
  /\ files (free_viewbuf w) = files w.
Proof. unfold free_viewbuf. destruct (viewbuf w) eqn:E; cbn; auto. Qed.

(** A planning loop that asks for bytes at or above the ceiling: the phase
    shows the dialog at once, calls [remove_all_signals], sets the page
    time to at most one second and returns; it allocates no buffer and
    reads nothing. *)
Lemma materialize_over_ceiling (w : window) :
  capacity_ceiling lp64 <= page_bytes w ->
  gave_up_on_memory w (materialize w).
Proof.
  intros H. unfold page_bytes in H. unfold ViewBuf.materialize.
  destruct (for_comps _ _ _ _) as [comps totalsize]. cbn [snd] in H.
  pose proof capacity_ceiling_pos.
  destruct (Z.eqb_spec totalsize 0); [lia|].
  rewrite allocate_over_ceiling by exact H. cbn [and_then id].
  eexists. split; [reflexivity|].
  rewrite clamp_pagetime_min.
  destruct (clamp_pagetime_rest
              (report_error msg_memory_limit
                 (free_viewbuf (set_signalcomp comps w)))) as (-> & -> & -> & ->).
  destruct (free_viewbuf_rest (set_signalcomp comps w)) as (He & Hv & Hp & Hf).
  cbn. rewrite He, Hv, Hp, Hf, <- app_assoc. cbn. auto.
Qed.

Lemma warm_up_over_ceiling (pre_time : double) (w : window) :
  capacity_ceiling lp64 <= warmup_bytes pre_time w ->
  gave_up_on_memory w (warm_up pre_time w).
Proof.
  intros H. unfold warmup_bytes in H. unfold ViewBuf.warm_up.
  cbn [edfheaderlist signalcomp set_edfheaderlist].
  destruct (for_comps _ _ _ _) as [comps totalsize]. cbn [snd] in H.
  rewrite allocate_over_ceiling by exact H. cbn [and_then id].
  eexists. split; [reflexivity|].
  rewrite clamp_pagetime_min.
  match goal with |- context [free_viewbuf ?x] =>
    destruct (clamp_pagetime_rest (report_error msg_memory_limit (free_viewbuf x)))
      as (-> & -> & -> & ->);
    destruct (free_viewbuf_rest x) as (He & Hv & Hp & Hf) end.
  cbn. rewrite He, Hv, Hp, Hf, <- app_assoc. cbn. auto.
Qed.
(** *** A read that fails *)

Lemma for_comps_return_inv2 {S : Type} (PN PR : S -> Prop)
    (body : list signalcompblock -> signalcompblock -> S -> flow (signalcompblock * S))
    (done todo : list signalcompblock) (s : S) :
  (forall done c s, PN s ->
     match body done c s with
     | Next (_, s') => PN s'
     | Return (_, s') => PR s'
     end) ->
  PN s ->
  match for_comps_return body done todo s with
  | Next (_, s') => PN s'
  | Return (_, s') => PR s'
  end.
Proof.
  intros Hbody. revert done s.
  induction todo as [|c todo IH]; intros done s Hs; cbn.
  - exact Hs.
  - specialize (Hbody done c s Hs).
    destruct (body done c s) as [[c' s']|[c' s']].
    + apply IH, Hbody.
    + exact Hbody.
Qed.

(** What the calls leave as it is. *)
Lemma store_viewbuf_frame (off : Z) (data : list cell) (w : window) :
  events (store_viewbuf off data w) = events w
  /\ pagetime (store_viewbuf off data w) = pagetime w
  /\ live_stream_active (store_viewbuf off data w) = live_stream_active w
  /\ files (store_viewbuf off data w) = files w.
Proof. unfold store_viewbuf. destruct (viewbuf w); cbn; auto. Qed.

Lemma fseeko_frame (hdl pos : Z) (w : window) :
  events (fseeko hdl pos w) = events w ++ [fseeko_call hdl pos]
  /\ pagetime (fseeko hdl pos w) = pagetime w
  /\ live_stream_active (fseeko hdl pos w) = live_stream_active w
  /\ viewbuf (fseeko hdl pos w) = viewbuf w.
Proof.
  unfold fseeko. cbn. destruct (files w !! hdl); [|cbn; auto].
  destruct (pos <? 0); cbn; auto.
Qed.

Lemma fread_frame (off size hdl : Z) (w : window) :
  events (fread off size hdl w).2
    = events w ++ [fread_call hdl size (fread off size hdl w).1]
  /\ pagetime (fread off size hdl w).2 = pagetime w
  /\ live_stream_active (fread off size hdl w).2 = live_stream_active w.
Proof.
  unfold fread. destruct (files w !! hdl); cbn; [|auto].
  destruct (store_viewbuf_frame off (map Byte (bytes_at s size)) w)
    as (-> & -> & -> & _). auto.
Qed.

Lemma no_failed_read_snoc (l : list event) (e : event) :
  no_failed_read l -> is_failed_read e = false -> no_failed_read (l ++ [e]).
Proof.
  intros Hl He. apply Forall_app. split; [exact Hl|].
  constructor; [exact He | constructor].
Qed.

(** A seek and a read, from a state without a failed read: the read
    succeeds and there is still none, or it fails and is the last call. *)
Lemma seek_read_outcome (off size hdl pos : Z) (w : window) :
  no_failed_read (events w) ->
  let r := fread off size hdl (fseeko hdl pos w) in
  pagetime r.2 = pagetime w
  /\ if r.1 then no_failed_read (events r.2)
     else exists before,
            events r.2 = before ++ [fread_call hdl size false]
            /\ no_failed_read before.
Proof.
  intros Hw r.
  destruct (fread_frame off size hdl (fseeko hdl pos w)) as (He & Hp & _).
  destruct (fseeko_frame hdl pos w) as (He' & Hp' & _).
  fold r in He, Hp. rewrite He' in He. rewrite Hp' in Hp.
  split; [exact Hp|].
  assert (Hs : no_failed_read (events w ++ [fseeko_call hdl pos]))
    by (apply no_failed_read_snoc; [exact Hw | reflexivity]).
  destruct r.1 eqn:E; rewrite He.
  - apply no_failed_read_snoc; [exact Hs | reflexivity].
  - eexists. split; [reflexivity | exact Hs].
Qed.

Lemma report_read_error (p n : Z) (w : window) (before : list event)
    (hdl size : Z) :
  events w = before ++ [fread_call hdl size false] ->
  no_failed_read before ->
  pagetime w = p ->
  stopped_at_read p (report_error (msg_read_error n) w).
Proof.
  intros He Hb Hp. exists before, hdl, size, n. cbn. rewrite He, <- !app_assoc.
  cbn. auto.
Qed.

Lemma memset0_went_well (p off n : Z) (w : window) :
  reads_went_well p w -> reads_went_well p (memset0 off n w).
Proof.
  unfold reads_went_well, memset0.
  destruct (store_viewbuf_frame off (replicate (Z.to_nat n) (Byte 0)) w)
    as (-> & -> & _). auto.
Qed.

Lemma read_view_step_outcome (p : Z) (done : list signalcompblock)
    (c : signalcompblock) (w : window) :
  reads_went_well p w ->
  match read_view_step done c w with
  | Next (_, s') => reads_went_well p s'
  | Return (_, s') => stopped_at_read p s'
  end.
Proof.
  intros Hw. unfold read_view_step.
  set (skip := match done with [] => false | _ => _ end). clearbody skip.
  destruct (_ <=? 0).
  { destruct skip; [exact Hw | apply memset0_went_well, Hw]. }
  set (w1 := if _ && negb skip then _ else w).
  assert (H1 : reads_went_well p w1).
  { subst w1. destruct (_ && _); [apply memset0_went_well, Hw | exact Hw]. }
  clearbody w1. destruct skip; [exact H1|].
  destruct H1 as [H1 Hp].
  match goal with |- context [fread ?a ?b ?x (fseeko ?x ?y w1)] =>
    pose proof (seek_read_outcome a b x y w1 H1) as Hr;
    destruct (fread a b x (fseeko x y w1)) as [ok w2] end.
  cbn [fst snd] in Hr. destruct Hr as [Hp2 Hr]. destruct ok.
  - split; [exact Hr | lia].
  - destruct Hr as (before & He & Hb).
    eapply report_read_error; [exact He | exact Hb | lia].
Qed.

Lemma read_prefilter_step_outcome (p : Z) (done : list signalcompblock)
    (c : signalcompblock) (w : window) :
  reads_went_well p w ->
  match read_prefilter_step done c w with
  | Next (_, s') => reads_went_well p s'
  | Return (_, s') => stopped_at_read p s'
  end.
Proof.
  intros Hw. unfold read_prefilter_step.
  destruct (match done with [] => true | _ => _ end); [|exact Hw].
  destruct (_ && _); [|exact Hw].
  destruct Hw as [H1 Hp].
  match goal with |- context [fread ?a ?b ?x (fseeko ?x ?y w)] =>
    pose proof (seek_read_outcome a b x y w H1) as Hr;
    destruct (fread a b x (fseeko x y w)) as [ok w2] end.
  cbn [fst snd] in Hr. destruct Hr as [Hp2 Hr]. destruct ok.
  - split; [exact Hr | lia].
  - destruct Hr as (before & He & Hb).
    eapply report_read_error; [exact He | exact Hb | lia].
Qed.

(** The allocation: no read is made, and no read has failed where the
    function returns from it. *)
Lemma allocate_outcome (p : Z) (m : message) (n : Z) (w : window) :
  reads_went_well p w ->
  match allocate m n w with
  | Next s' => reads_went_well p s'
  | Return s' => no_failed_read (events s')
  end.
Proof.
  intros [H Hp]. unfold ViewBuf.allocate.
  assert (Hr : forall m', no_failed_read (events (report_error m' w))).
  { intros m'. cbn. rewrite <- app_assoc.
    apply Forall_app. split; [exact H|]. repeat constructor. }
  destruct (_ <=? _).
  { destruct (clamp_pagetime_rest (report_error msg_memory_limit w)) as (-> & _).
    apply Hr. }
  destruct (malloc_fails n).
  { match goal with |- context [clamp_pagetime ?x] =>
      destruct (clamp_pagetime_rest x) as (-> & _) end.
    apply (Hr m). }
  split; [exact H | exact Hp].
Qed.

Lemma free_viewbuf_went_well (p : Z) (w : window) :
  reads_went_well p w -> reads_went_well p (free_viewbuf w).
Proof.
  unfold reads_went_well.
  destruct (free_viewbuf_rest w) as (-> & _ & -> & _). auto.
Qed.

Lemma materialize_outcome (p : Z) (w : window) :
  reads_went_well p w -> phase_outcome p (materialize w).
Proof.
  intros Hw. unfold ViewBuf.materialize.
  destruct (for_comps _ _ _ _) as [comps totalsize].
  set (w1 := free_viewbuf (set_signalcomp comps w)).
  assert (H1 : reads_went_well p w1) by (apply free_viewbuf_went_well, Hw).
  clearbody w1.
  assert (H2 : match (if totalsize =? 0 then Next w1
                      else allocate msg_alloc_resources totalsize w1) with
               | Next s' => reads_went_well p s'
               | Return s' => no_failed_read (events s')
               end).
  { destruct (_ =? 0); [exact H1 | apply allocate_outcome, H1]. }
  destruct (if totalsize =? 0 then _ else _) as [w2|w2]; cbn [and_then id];
    [|left; exact H2].
  pose proof (for_comps_return_inv2 (reads_went_well p) (stopped_at_read p)
                read_view_step [] (signalcomp w2) w2
                (read_view_step_outcome p) H2) as H3.
  destruct (for_comps_return _ _ _ _) as [[cs w3]|[cs w3]]; cbn.
  - exact H3.
  - right. exact H3.
Qed.

Lemma warm_up_outcome (p : Z) (pre_time : double) (w : window) :
  reads_went_well p w -> phase_outcome p (warm_up pre_time w).
Proof.
  intros Hw. unfold ViewBuf.warm_up.
  destruct (for_comps _ _ _ _) as [comps totalsize].
  match goal with |- context [free_viewbuf ?x] =>
    set (w1 := free_viewbuf x);
    assert (H1 : reads_went_well p w1) by (apply free_viewbuf_went_well, Hw)
  end.
  clearbody w1.
  pose proof (allocate_outcome p msg_alloc_prefilterbuf totalsize w1 H1) as H2.
  destruct (allocate _ _ _) as [w2|w2]; cbn [and_then id]; [|left; exact H2].
  pose proof (for_comps_return_inv2 (reads_went_well p) (stopped_at_read p)
                read_prefilter_step [] (signalcomp w2) w2
                (read_prefilter_step_outcome p) H2) as H3.
  destruct (for_comps_return _ _ _ _) as [[cs w3]|[cs w3]]; cbn.
  - destruct (for_comps _ _ _ _) as [cs' d]. exact H3.
  - right. exact H3.
Qed.

Lemma setup_viewbuf_outcome (w : window) :
  no_failed_read (events w) -> phase_outcome (pagetime w) (setup_viewbuf w).
Proof.
  intros Hw. unfold ViewBuf.setup_viewbuf.
  destruct (pre_time_loop _) as [comps [pre_time hasprefilter]].
  set (w0 := set_signalcomp comps _).
  assert (H0 : reads_went_well (pagetime w) w0) by (split; [exact Hw | reflexivity]).
  clearbody w0.
  assert (H1 : phase_outcome (pagetime w)
                 (if hasprefilter then warm_up pre_time w0 else Next w0)).
  { destruct hasprefilter; [apply warm_up_outcome, H0 | exact H0]. }
  destruct (if hasprefilter then _ else _) as [w1|w1]; cbn [and_then id].
  - apply materialize_outcome, H1.
  - exact H1.
Qed.

(** C2, as the code has it.  In a frame in which a read of record data
    fails ([fread] does not return 1) the function returns at once: the
    failed read is followed by the dialog "A read error occurred." and by
    [remove_all_signals()], and [live_stream_active] is cleared.  The page
    time is left as it was; nothing is handed back to the caller (the
    function is [void]), and the compositions are not kept but removed. *)
Theorem failed_read_gives_up (w : window) :
  no_failed_read (events w) ->
  ~ no_failed_read (events (final (setup_viewbuf w))) ->
  gave_up_on_read w (setup_viewbuf w).
Proof.
  intros Hw Hfail. pose proof (setup_viewbuf_outcome w Hw) as H.
  destruct (setup_viewbuf w) as [w'|w']; cbn [final phase_outcome] in *.
  - destruct H as [H _]. contradiction.
  - destruct H as [H|(before & hdl & size & n & He & Hb & Hl & Hp)];
      [contradiction|].
    exists w', before, hdl, size, n. auto.
Qed.

Lemma no_failed_read_forallb (l : list event) :
  no_failed_read l <-> forallb (fun e => negb (is_failed_read e)) l = true.
Proof.
  unfold no_failed_read. rewrite forallb_forall, Forall_forall.
  split; intros H e He.
  - apply list_elem_of_In in He. rewrite (H e He). reflexivity.
  - apply list_elem_of_In in He. apply negb_true_iff, H, He.
Qed.

(** *** The layout of the buffer of the page *)

Lemma nonnull_find {A : Type} (p : A -> bool) (l : list A) :
  nonnull (List.find p l) = existsb p l.
Proof.
  induction l as [|x l IH]; cbn; [reflexivity|].
  destruct (p x); [reflexivity | exact IH].
Qed.

Lemma existsb_fmap {A B : Type} (p : B -> bool) (g : A -> B) (l : list A) :
  existsb p (map g l) = existsb (fun x => p (g x)) l.
Proof.
  induction l as [|x l IH]; cbn; [reflexivity|]. rewrite IH. reflexivity.
Qed.

(** The search for an earlier composition on the same file only looks at
    the header pointers. *)
Lemma earlier_seen (hdrs : list edfhdrblock) (done : list signalcompblock)
    (c : signalcompblock) :
  nonnull (earlier_on_file hdrs done c) = seen_file hdrs (map edfhdr done) (edfhdr c).
Proof.
  unfold earlier_on_file, seen_file. rewrite nonnull_find, existsb_fmap.
  reflexivity.
Qed.

Lemma skip_seen (hdrs : list edfhdrblock) (done : list signalcompblock)
    (c : signalcompblock) :
  match done with
  | [] => false
  | _ => nonnull (earlier_on_file hdrs done c)
  end = seen_file hdrs (map edfhdr done) (edfhdr c).
Proof. destruct done; [reflexivity | apply earlier_seen]. Qed.

(** The turn of the second planning loop, by whether the file was met. *)
Lemma plan_view_step_first (hdrs : list edfhdrblock) (pt : Z)
    (done : list signalcompblock) (c : signalcompblock) (total : Z) :
  (done = [] -> total = 0) ->
  seen_file hdrs (map edfhdr done) (edfhdr c) = false ->
  let h := hdr_of hdrs c in
  let c' := (plan_view_step hdrs pt done c total).1 in
  edfhdr c' = edfhdr c
  /\ viewbufoffset c' = total
  /\ records_in_viewbuf c'
     = records_of_page pt (viewtime h) (long_data_record_duration h)
  /\ (plan_view_step hdrs pt done c total).2
     = total + records_in_viewbuf c' * recordsize h.
Proof.
  intros H0 Hseen h c'. subst c'. rewrite <- earlier_seen in Hseen.
  unfold plan_view_step. fold h.
  destruct (time_offset _ _ _) as [toff tpart].
  destruct done as [|d done].
  - rewrite (H0 eq_refl). cbn. auto.
  - destruct (earlier_on_file hdrs (d :: done) c); [discriminate|]. cbn. auto.
Qed.

Lemma plan_view_step_shared (hdrs : list edfhdrblock) (pt : Z)
    (done : list signalcompblock) (c : signalcompblock) (total : Z) :
  seen_file hdrs (map edfhdr done) (edfhdr c) = true ->
  edfhdr (plan_view_step hdrs pt done c total).1 = edfhdr c
  /\ (plan_view_step hdrs pt done c total).2 = total.
Proof.
  intros Hseen. rewrite <- earlier_seen in Hseen.
  unfold plan_view_step.
  destruct (time_offset _ _ _) as [toff tpart].
  destruct done as [|d done]; [discriminate|].
  destruct (earlier_on_file hdrs (d :: done) c); [|discriminate]. cbn. auto.
Qed.

(** The second planning loop lays the regions out one after the other. *)
Lemma plan_view_laid_out (hdrs : list edfhdrblock) (pt : Z)
    (todo done : list signalcompblock) (total : Z) :
  (done = [] -> total = 0) ->
  exists todo',
    (for_comps (plan_view_step hdrs pt) done todo total).1 = done ++ todo'
    /\ map edfhdr todo' = map edfhdr todo
    /\ laid_out hdrs pt (map edfhdr done) total todo'
    /\ (for_comps (plan_view_step hdrs pt) done todo total).2
       = total + bytes_from hdrs (map edfhdr done) todo'.
Proof.
  revert done total. induction todo as [|c todo IH]; intros done total H0.
  - exists []. cbn. rewrite app_nil_r. repeat split. lia.
  - cbn [for_comps].
    destruct (plan_view_step hdrs pt done c total) as [c' total'] eqn:E.
    destruct (IH (done ++ [c']) total') as (todo' & H1 & H2 & H3 & H4).
    { intros Hnil. destruct done; discriminate Hnil. }
    rewrite map_app in H3, H4. cbn [map app] in H3, H4.
    exists (c' :: todo'). rewrite H1, H4, <- app_assoc.
    cbn [map app laid_out bytes_from].
    destruct (seen_file hdrs (map edfhdr done) (edfhdr c)) eqn:Hseen.
    + destruct (plan_view_step_shared hdrs pt done c total Hseen) as (He & Ht).
      rewrite E in He, Ht. cbn [fst snd] in He, Ht. subst total'.
      rewrite He in *. rewrite Hseen.
      repeat split;
        first [reflexivity | assumption | lia | rewrite H2; reflexivity].
    + destruct (plan_view_step_first hdrs pt done c total H0 Hseen)
        as (He & Ho & Hr & Ht).
      rewrite E in He, Ho, Hr, Ht. cbn [fst snd] in He, Ho, Hr, Ht.
      assert (Hh : hdr_of hdrs c' = hdr_of hdrs c)
        by (unfold hdr_of; rewrite He; reflexivity).
      rewrite He in *. rewrite Hseen, Hh.
      rewrite Ht in H3, H4.
      repeat split;
        first [reflexivity | assumption | lia | rewrite H2; reflexivity].
Qed.

(** *** Stores, seeks and reads *)

Lemma store_over (B X R data : list cell) (off : Z) :
  Z.of_nat (length B) = off ->
  length X = length data ->
  store off data (B ++ X ++ R) = B ++ data ++ R.
Proof.
  intros Hoff Hlen. unfold store.
  replace (Z.to_nat off) with (length B) by lia.
  rewrite take_app_length. f_equal. f_equal.
  rewrite drop_app_add, <- Hlen. apply drop_app_length.
Qed.

Lemma buffer_store_over (w : window) (B X R data : list cell) (off : Z) :
  buffer_of w = B ++ X ++ R ->
  Z.of_nat (length B) = off ->
  length X = length data ->
  buffer_of (store_viewbuf off data w) = B ++ data ++ R
  /\ nonnull (viewbuf (store_viewbuf off data w)) = nonnull (viewbuf w).
Proof.
  unfold buffer_of, store_viewbuf. intros Hbuf Hoff Hlen.
  destruct (viewbuf w) as [buf|] eqn:E; cbn in *.
  - subst buf. split; [apply store_over; assumption | reflexivity].
  - rewrite E. cbn.
    symmetry in Hbuf. apply app_eq_nil in Hbuf as [-> Hbuf].
    apply app_eq_nil in Hbuf as [-> ->].
    destruct data; [auto | discriminate].
Qed.

Lemma replicate_split {A : Type} (x : A) (a n : Z) :
  0 <= a <= n ->
  replicate (Z.to_nat n) x = replicate (Z.to_nat a) x ++ replicate (Z.to_nat (n - a)) x.
Proof.
  intros H. rewrite <- replicate_add. f_equal. lia.
Qed.

Lemma same_contents_insert (fs fs0 : gmap Z stream) (hdl : Z) (f : stream) (pos : Z) :
  same_contents fs fs0 ->
  fs !! hdl = Some f ->
  same_contents (<[hdl := mk_stream (content f) pos]> fs) fs0.
Proof.
  intros H Hf k. destruct (decide (k = hdl)) as [->|Hne].
  - rewrite lookup_insert_eq, <- H, Hf. reflexivity.
  - rewrite lookup_insert_ne by congruence. apply H.
Qed.

Lemma file_bytes_same (fs fs0 : gmap Z stream) (hdl pos size : Z) :
  same_contents fs fs0 ->
  file_bytes fs hdl pos size = file_bytes fs0 hdl pos size.
Proof.
  intros H. unfold file_bytes. specialize (H hdl).
  destruct (fs !! hdl) as [f|], (fs0 !! hdl) as [f0|]; cbn in H;
    try discriminate; [|reflexivity].
  injection H as ->. reflexivity.
Qed.

(** A seek to a position that is not negative and a read from there: the
    read delivers when the file has [size > 0] bytes from there on, and
    stores what it finds. *)
Lemma seek_read (off size hdl pos : Z) (w : window) (fs0 : gmap Z stream)
    (B X R : list cell) :
  same_contents (files w) fs0 ->
  0 <= pos ->
  buffer_of w = B ++ X ++ R ->
  Z.of_nat (length B) = off ->
  let data := file_bytes fs0 hdl pos size in
  let ok := (0 <? size) && (Z.of_nat (length data) =? size) in
  length X = length data ->
  exists w',
    fread off size hdl (fseeko hdl pos w) = (ok, w')
    /\ buffer_of w' = B ++ map Byte data ++ R
    /\ nonnull (viewbuf w') = nonnull (viewbuf w)
    /\ same_contents (files w') fs0
    /\ edfheaderlist w' = edfheaderlist w
    /\ events w' = events w ++ [fseeko_call hdl pos; fread_call hdl size ok]
    /\ pagetime w' = pagetime w
    /\ live_stream_active w' = live_stream_active w.
Proof.
  intros Hfs Hpos Hbuf Hoff data ok Hlen.
  assert (Hd : data = file_bytes (files w) hdl pos size)
    by (subst data; symmetry; apply file_bytes_same, Hfs).
  clearbody data.
  unfold fseeko, fread, log. cbn [files set_events].
  destruct (files w !! hdl) as [f|] eqn:Hf.
  - destruct (Z.ltb_spec pos 0); [lia|]. cbn [files set_files].
    rewrite lookup_insert_eq. cbn [content fpos].
    assert (Hdata : bytes_at (mk_stream (content f) pos) size = data).
    { rewrite Hd. unfold bytes_at, file_bytes. rewrite Hf. reflexivity. }
    rewrite Hdata. fold ok.
    set (w1 := set_files _ (set_events _ w)).
    assert (H1 : buffer_of w1 = B ++ X ++ R) by exact Hbuf.
    destruct (buffer_store_over w1 B X R (map Byte data) off H1 Hoff) as [Hb Hn].
    { rewrite length_map. exact Hlen. }
    destruct (store_viewbuf_frame off (map Byte data) w1) as (He & Hp & Hl & Hfiles).
    eexists. split; [reflexivity|].
    cbn [buffer_of viewbuf files edfheaderlist events pagetime live_stream_active
         set_files set_events].
    rewrite store_viewbuf_headers, He, Hp, Hl.
    repeat split; try assumption; try reflexivity.
    + rewrite Hfiles. subst w1. cbn [files set_files set_events].
      rewrite insert_insert_eq.
      apply (same_contents_insert (files w) fs0 hdl f _ Hfs Hf).
    + subst w1. cbn. rewrite <- app_assoc. reflexivity.
  - cbn [files set_events]. rewrite Hf.
    assert (Hdata : data = [])
      by (rewrite Hd; unfold file_bytes; rewrite Hf; reflexivity).
    assert (Hok : ok = false).
    { subst ok. rewrite Hdata. cbn [length]. destruct (Z.ltb_spec 0 size); [|reflexivity].
      destruct (Z.eqb_spec (Z.of_nat 0) size); [lia | reflexivity]. }
    rewrite Hok. eexists. split; [reflexivity|].
    rewrite Hdata in *. destruct X; [|discriminate].
    cbn. rewrite <- app_assoc. repeat split; try assumption; reflexivity.
Qed.

(** *** One turn of the loop that fills the buffer *)

Lemma set_sample_stop_twice (a b : Z) (c : signalcompblock) :
  set_sample_stop a (set_sample_stop b c) = set_sample_stop a c.
Proof. reflexivity. Qed.

Lemma length_region (hdrs : list edfhdrblock) (fs : gmap Z stream)
    (c : signalcompblock) :
  sound_header (hdr_of hdrs c) ->
  0 <= records_in_viewbuf c ->
  readable hdrs fs c = true ->
  length (region hdrs fs c)
    = Z.to_nat (records_in_viewbuf c * recordsize (hdr_of hdrs c)).
Proof.
  intros (Hd & Hrs & Hhs) Hriv. unfold readable, region, read_size.
  set (h := hdr_of hdrs c) in *.
  destruct (Z.leb_spec (records_left h) 0); cbn [orb].
  - intros _. apply length_replicate.
  - intros Hok. apply andb_prop in Hok as [Hpos Hlen].
    apply Z.eqb_eq in Hlen. apply Z.ltb_lt in Hpos.
    rewrite length_app, length_map, length_replicate.
    destruct (Z.ltb_spec (records_left h) (records_in_viewbuf c)); nia.
Qed.

Lemma first_record_nonneg (h : edfhdrblock) :
  0 < long_data_record_duration h -> 0 <= first_record h.
Proof.
  intros Hd. unfold first_record.
  destruct (Z.leb_spec 0 (viewtime h)); [|lia].
  apply Z.quot_pos; lia.
Qed.

Lemma read_pos_nonneg (h : edfhdrblock) : sound_header h -> 0 <= read_pos h.
Proof.
  intros (Hd & Hrs & Hhs). unfold read_pos.
  pose proof (first_record_nonneg h Hd). nia.
Qed.

Lemma read_view_step_spec (done : list signalcompblock) (c : signalcompblock)
    (s : window) (fs0 : gmap Z stream) (B : list cell) (n : Z) :
  let hdrs := edfheaderlist s in
  let h := hdr_of hdrs c in
  let whole := records_in_viewbuf c * recordsize h in
  let seen := seen_file hdrs (map edfhdr done) (edfhdr c) in
  same_contents (files s) fs0 ->
  sound_header h ->
  buffer_of s = B ++ replicate (Z.to_nat n) Undef ->
  (seen = false ->
   Z.of_nat (length B) = viewbufoffset c
   /\ 0 <= records_in_viewbuf c /\ whole <= n) ->
  if seen || readable hdrs fs0 c
  then exists s',
         read_view_step done c s = Next (finish hdrs c, s')
         /\ buffer_of s'
            = (B ++ (if seen then [] else region hdrs fs0 c))
              ++ replicate (Z.to_nat (n - (if seen then 0 else whole))) Undef
         /\ nonnull (viewbuf s') = nonnull (viewbuf s)
         /\ same_contents (files s') fs0
         /\ edfheaderlist s' = hdrs
         /\ events s'
            = events s
              ++ (if seen || (records_left h <=? 0) then []
                  else [fseeko_call (file_hdl h) (read_pos h);
                        fread_call (file_hdl h) (read_size hdrs c) true])
         /\ pagetime s' = pagetime s
         /\ live_stream_active s' = live_stream_active s
  else exists c' s', read_view_step done c s = Return (c', s').
Proof.
  intros hdrs h whole seen Hfs Hh Hbuf Hroom.
  unfold read_view_step. rewrite skip_seen.
  fold hdrs h seen. fold (records_left h). fold whole.
  destruct seen eqn:Hseen; cbn [orb negb andb].
  - (* an earlier composition is on the file *)
    exists s. rewrite app_nil_r, Z.sub_0_r, app_nil_r.
    repeat split; try assumption; try reflexivity.
    unfold finish, last_sample. fold h.
    destruct (records_left h <=? 0); [reflexivity|].
    rewrite andb_false_r.
    destruct (records_left h <? records_in_viewbuf c); reflexivity.
  - destruct (Hroom eq_refl) as (Hoff & Hriv & Hwhole).
    pose proof Hh as (Hd & Hrs & Hhs).
    assert (Hw0 : 0 <= whole) by (subst whole; nia).
    unfold readable, region. fold h whole.
    destruct (Z.leb_spec (records_left h) 0) as [Hleft|Hleft]; cbn [orb].
    + (* the page starts at or after the end of the file *)
      rewrite (replicate_split Undef whole n) in Hbuf by lia.
      destruct (buffer_store_over s B (replicate (Z.to_nat whole) Undef)
                  (replicate (Z.to_nat (n - whole)) Undef)
                  (replicate (Z.to_nat whole) (Byte 0)) (viewbufoffset c)
                  Hbuf Hoff) as [Hb Hn].
      { rewrite !length_replicate. reflexivity. }
      destruct (store_viewbuf_frame (viewbufoffset c)
                  (replicate (Z.to_nat whole) (Byte 0)) s) as (He & Hp & Hl & Hf).
      exists (memset0 (viewbufoffset c) whole s). unfold memset0.
      rewrite Hb, Hn, He, Hp, Hl, Hf, store_viewbuf_headers, app_nil_r, <- app_assoc.
      repeat split; try assumption; try reflexivity.
      unfold finish, last_sample. fold h.
      destruct (Z.leb_spec (records_left h) 0); [reflexivity | lia].
    + (* some records are left *)
      set (rs := read_size hdrs c).
      assert (Hrs_eq : (if records_left h <? records_in_viewbuf c
                        then records_left h * recordsize h else whole) = rs)
        by reflexivity.
      rewrite Hrs_eq.
      assert (Hrs0 : 0 <= rs <= whole).
      { subst rs whole. unfold read_size. fold h.
        destruct (Z.ltb_spec (records_left h) (records_in_viewbuf c)); nia. }
      set (data := file_bytes fs0 (file_hdl h) (read_pos h) rs).
      set (s1 := if records_left h <? records_in_viewbuf c
                 then memset0 (viewbufoffset c + rs) (whole - rs) s else s).
      assert (Hdatalen : Z.of_nat (length data) <= rs).
      { subst data. unfold file_bytes. destruct (fs0 !! file_hdl h); cbn; [|lia].
        rewrite length_take. lia. }
      assert (H1 : buffer_of s1
                   = B ++ replicate (Z.to_nat (Z.of_nat (length data))) Undef
                       ++ (replicate (Z.to_nat (rs - Z.of_nat (length data))) Undef
                           ++ replicate (Z.to_nat (whole - rs)) (Byte 0)
                           ++ replicate (Z.to_nat (n - whole)) Undef)
                   /\ nonnull (viewbuf s1) = nonnull (viewbuf s)
                   /\ events s1 = events s /\ pagetime s1 = pagetime s
                   /\ live_stream_active s1 = live_stream_active s
                   /\ files s1 = files s /\ edfheaderlist s1 = hdrs).
      { rewrite (app_assoc (replicate _ Undef) (replicate _ Undef)).
        rewrite <- (replicate_split Undef (Z.of_nat (length data)) rs) by lia.
        subst s1.
        destruct (Z.ltb_spec (records_left h) (records_in_viewbuf c)) as [Hlt|Hge].
        - rewrite (replicate_split Undef whole n) in Hbuf by lia.
          rewrite (replicate_split Undef rs whole) in Hbuf by lia.
          rewrite <- app_assoc, app_assoc in Hbuf.
          destruct (buffer_store_over s (B ++ replicate (Z.to_nat rs) Undef)
                      (replicate (Z.to_nat (whole - rs)) Undef)
                      (replicate (Z.to_nat (n - whole)) Undef)
                      (replicate (Z.to_nat (whole - rs)) (Byte 0))
                      (viewbufoffset c + rs) Hbuf) as [Hb Hn].
          { rewrite length_app, length_replicate. lia. }
          { rewrite !length_replicate. reflexivity. }
          destruct (store_viewbuf_frame (viewbufoffset c + rs)
                      (replicate (Z.to_nat (whole - rs)) (Byte 0)) s)
            as (He & Hp & Hl & Hf).
          unfold memset0.
          rewrite Hb, Hn, He, Hp, Hl, Hf, store_viewbuf_headers, <- app_assoc.
          repeat split; reflexivity.
        - assert (Hrw : rs = whole).
          { subst rs whole. unfold read_size. fold h.
            destruct (Z.ltb_spec (records_left h) (records_in_viewbuf c)); lia. }
          rewrite Hrw, Z.sub_diag. cbn [Z.to_nat replicate app].
          rewrite Hbuf, (replicate_split Undef whole n) by lia.
          repeat split; reflexivity. }
      destruct H1 as (Hb1 & Hn1 & He1 & Hp1 & Hl1 & Hf1 & Hh1).
      assert (Hfs1 : same_contents (files s1) fs0) by (rewrite Hf1; exact Hfs).
      destruct (seek_read (viewbufoffset c) rs (file_hdl h) (read_pos h) s1 fs0
                  B (replicate (Z.to_nat (Z.of_nat (length data))) Undef) _
                  Hfs1 (read_pos_nonneg h Hh) Hb1 Hoff)
        as (s2 & Hread & Hb2 & Hn2 & Hfs2 & Hh2 & He2 & Hp2 & Hl2).
      { rewrite length_replicate. fold data. lia. }
      fold data in Hread, Hb2, He2.
      change (hdrsize h + first_record h * recordsize h) with (read_pos h).
      rewrite andb_true_r.
      change (if records_left h <? records_in_viewbuf c
              then memset0 (viewbufoffset c + rs) (whole - rs) s else s) with s1.
      set (c1 := if records_left h <? records_in_viewbuf c then _ else _).
      assert (Hc1 : viewbufoffset c1 = viewbufoffset c)
        by (subst c1; destruct (_ <? _); reflexivity).
      rewrite Hc1, Hread.
      destruct ((0 <? rs) && (Z.of_nat (length data) =? rs)) eqn:Hok.
      * apply andb_prop in Hok as [Hpos Hlen]. apply Z.eqb_eq in Hlen.
        exists s2. rewrite Hb2, Hn2, Hn1, Hh2, Hh1, He2, He1, Hp2, Hp1, Hl2, Hl1.
        rewrite Hlen, Z.sub_diag. cbn [Z.to_nat replicate app].
        rewrite <- !app_assoc.
        repeat split; try assumption; try reflexivity.
        subst c1. unfold finish, last_sample. fold h.
        destruct (Z.leb_spec (records_left h) 0); [lia|].
        destruct (records_left h <? records_in_viewbuf c); reflexivity.
      * eexists _, _. reflexivity.
Qed.


(** *** The loop that fills the buffer *)

Lemma records_of_page_pos (pt vt d : Z) :
  0 <= pt -> 0 < d -> 1 <= records_of_page pt vt d.
Proof.
  intros Hpt Hd. unfold records_of_page.
  destruct (Z.leb_spec 0 vt).
  - pose proof (Z.rem_nonneg vt d ltac:(lia) ltac:(lia)).
    pose proof (Z.quot_pos (pt + Z.rem vt d) d ltac:(lia) ltac:(lia)). lia.
  - pose proof (Z.rem_nonneg (- vt) d ltac:(lia) ltac:(lia)).
    pose proof (Z.quot_pos (pt + Z.rem (- vt) d) d ltac:(lia) ltac:(lia)). lia.
Qed.

Lemma bytes_from_nonneg (hdrs : list edfhdrblock) (pt : Z)
    (cs : list signalcompblock) (seen : list nat) (total : Z) :
  0 <= pt ->
  Forall (fun c => sound_header (hdr_of hdrs c)) cs ->
  laid_out hdrs pt seen total cs ->
  0 <= bytes_from hdrs seen cs.
Proof.
  intros Hpt Hs. revert seen total.
  induction Hs as [|c cs (Hd & Hrs & Hhs) _ IH]; intros seen total Hl;
    cbn [bytes_from laid_out] in *; [lia|].
  destruct (seen_file hdrs seen (edfhdr c)).
  - specialize (IH _ _ Hl). lia.
  - destruct Hl as (_ & Hriv & Hl). specialize (IH _ _ Hl).
    pose proof (records_of_page_pos pt (viewtime (hdr_of hdrs c)) _ Hpt Hd). nia.
Qed.

Lemma read_view_loop (hdrs : list edfhdrblock) (fs0 : gmap Z stream) (pt : Z)
    (todo done : list signalcompblock) (s : window) (B : list cell) :
  edfheaderlist s = hdrs ->
  same_contents (files s) fs0 ->
  0 <= pt ->
  Forall (fun c => sound_header (hdr_of hdrs c)) todo ->
  laid_out hdrs pt (map edfhdr done) (Z.of_nat (length B)) todo ->
  buffer_of s
    = B ++ replicate (Z.to_nat (bytes_from hdrs (map edfhdr done) todo)) Undef ->
  if all_readable hdrs fs0 (map edfhdr done) todo
  then exists s',
         for_comps_return read_view_step done todo s
           = Next (done ++ map (finish hdrs) todo, s')
         /\ buffer_of s' = B ++ image_from hdrs fs0 (map edfhdr done) todo
         /\ nonnull (viewbuf s') = nonnull (viewbuf s)
         /\ same_contents (files s') fs0
         /\ edfheaderlist s' = hdrs
         /\ events s' = events s ++ calls_from hdrs (map edfhdr done) todo
         /\ pagetime s' = pagetime s
         /\ live_stream_active s' = live_stream_active s
  else exists cs s', for_comps_return read_view_step done todo s = Return (cs, s').
Proof.
  intros Hh Hfs Hpt Hsound. revert done s B Hh Hfs.
  induction Hsound as [|c todo Hc Hsound IH]; intros done s B Hh Hfs Hlaid Hbuf.
  - cbn in *. exists s. rewrite !app_nil_r in *.
    repeat split; try assumption; reflexivity.
  - cbn [all_readable image_from calls_from bytes_from laid_out for_comps_return map]
      in *.
    pose proof (read_view_step_spec done c s fs0 B
                  (bytes_from hdrs (map edfhdr done) (c :: todo))) as Hstep.
    cbn [bytes_from] in Hstep. rewrite Hh in Hstep. cbv zeta in Hstep.
    specialize (Hstep Hfs Hc Hbuf).
    assert (Hrest : forall total',
              laid_out hdrs pt (map edfhdr done ++ [edfhdr c]) total' todo ->
              0 <= bytes_from hdrs (map edfhdr done ++ [edfhdr c]) todo)
      by (intros total'; apply bytes_from_nonneg; assumption).
    destruct (seen_file hdrs (map edfhdr done) (edfhdr c)) eqn:Hseen;
      cbn [orb andb] in *.
    + (* the file was met: nothing is stored *)
      destruct Hstep as (s1 & Hs1 & Hb1 & Hn1 & Hf1 & Hh1 & He1 & Hp1 & Hl1);
        [discriminate|].
      rewrite Hs1.
      specialize (IH (done ++ [finish hdrs c]) s1 B Hh1 Hf1).
      rewrite map_app in IH. cbn [map] in IH.
      change (edfhdr (finish hdrs c)) with (edfhdr c) in IH.
      rewrite app_nil_r in Hb1.
      replace (0 + bytes_from hdrs (map edfhdr done ++ [edfhdr c]) todo - 0)
        with (bytes_from hdrs (map edfhdr done ++ [edfhdr c]) todo) in Hb1 by lia.
      specialize (IH Hlaid Hb1).
      destruct (all_readable hdrs fs0 (map edfhdr done ++ [edfhdr c]) todo).
      * destruct IH as (s2 & Hs2 & Hb2 & Hn2 & Hf2 & Hh2 & He2 & Hp2 & Hl2).
        exists s2. rewrite app_nil_r in He1.
        rewrite Hs2, Hb2, Hn2, Hn1, He2, He1, Hp2, Hp1, Hl2, Hl1, <- !app_assoc.
        repeat split; try assumption; reflexivity.
      * destruct IH as (cs & s2 & Hs2). eexists _, _. rewrite Hs2. reflexivity.
    + destruct Hlaid as (Hoff & Hriv & Hlaid).
      pose proof Hc as (Hd & Hrs & Hhs).
      pose proof (records_of_page_pos pt (viewtime (hdr_of hdrs c)) _ Hpt Hd) as Hr1.
      pose proof (Hrest _ Hlaid) as Hrest0.
      destruct (readable hdrs fs0 c) eqn:Hread.
      * destruct Hstep as (s1 & Hs1 & Hb1 & Hn1 & Hf1 & Hh1 & He1 & Hp1 & Hl1).
        { intros _. split; [symmetry; exact Hoff|]. split; lia. }
        rewrite Hs1.
        pose proof (length_region hdrs fs0 c Hc ltac:(lia) Hread) as Hlen.
        specialize (IH (done ++ [finish hdrs c]) s1 (B ++ region hdrs fs0 c) Hh1 Hf1).
        rewrite map_app in IH. cbn [map] in IH.
        change (edfhdr (finish hdrs c)) with (edfhdr c) in IH.
        rewrite length_app, Hlen in IH.
        replace (Z.of_nat (length B + Z.to_nat (records_in_viewbuf c
                                                  * recordsize (hdr_of hdrs c))))
          with (Z.of_nat (length B)
                + records_in_viewbuf c * recordsize (hdr_of hdrs c)) in IH by nia.
        replace (records_in_viewbuf c * recordsize (hdr_of hdrs c)
                 + bytes_from hdrs (map edfhdr done ++ [edfhdr c]) todo
                 - records_in_viewbuf c * recordsize (hdr_of hdrs c))
          with (bytes_from hdrs (map edfhdr done ++ [edfhdr c]) todo) in Hb1 by lia.
        specialize (IH Hlaid Hb1).
        destruct (all_readable hdrs fs0 (map edfhdr done ++ [edfhdr c]) todo).
        -- destruct IH as (s2 & Hs2 & Hb2 & Hn2 & Hf2 & Hh2 & He2 & Hp2 & Hl2).
           exists s2.
           rewrite Hs2, Hb2, Hn2, Hn1, He2, He1, Hp2, Hp1, Hl2, Hl1, <- !app_assoc.
           repeat split; try assumption; reflexivity.
        -- destruct IH as (cs & s2 & Hs2). eexists _, _. rewrite Hs2. reflexivity.
      * destruct Hstep as (c1 & s1 & Hs1).
        { intros _. split; [symmetry; exact Hoff|]. split; lia. }
        rewrite Hs1. eexists _, _. reflexivity.
Qed.


(** *** The buffer of the page as a function of the files *)

Lemma free_viewbuf_fields (w : window) :
  viewbuf (free_viewbuf w) = None
  /\ signalcomp (free_viewbuf w) = signalcomp w
  /\ edfheaderlist (free_viewbuf w) = edfheaderlist w
  /\ files (free_viewbuf w) = files w
  /\ events (free_viewbuf w) = events w
  /\ pagetime (free_viewbuf w) = pagetime w
  /\ live_stream_active (free_viewbuf w) = live_stream_active w.
Proof. unfold free_viewbuf. destruct (viewbuf w) eqn:E; cbn; auto 10. Qed.

Lemma sound_by_pointers (hdrs : list edfhdrblock) (l l' : list signalcompblock) :
  map edfhdr l' = map edfhdr l ->
  Forall (fun c => sound_header (hdr_of hdrs c)) l ->
  Forall (fun c => sound_header (hdr_of hdrs c)) l'.
Proof.
  intros Hm Hl. revert l' Hm.
  induction Hl as [|c l Hc _ IH]; intros [|c' l'] Hm; try discriminate;
    constructor.
  - injection Hm as Hk _. unfold hdr_of in *. rewrite Hk. exact Hc.
  - injection Hm as _ Hm. apply IH, Hm.
Qed.

(** The second phase, when the buffer is granted and every read delivers:
    the buffer holds the regions of the files in the order of the
    compositions, the calls are one seek and one read per region that
    starts before the end of its file, and [sample_stop] is set. *)
Lemma materialize_spec (w : window) (fs0 : gmap Z stream) :
  sound_page w ->
  same_contents (files w) fs0 ->
  let hdrs := edfheaderlist w in
  if granted w && all_readable hdrs fs0 [] (planned w)
  then exists w',
         materialize w = Next w'
         /\ signalcomp w' = map (finish hdrs) (planned w)
         /\ buffer_of w' = image_from hdrs fs0 [] (planned w)
         /\ nonnull (viewbuf w') = negb (page_bytes w =? 0)
         /\ events w' = events w ++ calls_from hdrs [] (planned w)
         /\ same_contents (files w') fs0
         /\ edfheaderlist w' = hdrs
         /\ pagetime w' = pagetime w
         /\ live_stream_active w' = live_stream_active w
  else exists w', materialize w = Return w'.
Proof.
  intros (Hpt & Hsound) Hfs hdrs.
  unfold ViewBuf.granted, planned, page_bytes, ViewBuf.materialize. fold hdrs.
  destruct (plan_view_laid_out hdrs (pagetime w) (signalcomp w) [] 0 ltac:(auto))
    as (cs & H1 & H2 & H3 & H4).
  destruct (for_comps _ _ _ _) as [comps total]. cbn [fst snd app map] in *.
  subst comps. rewrite Z.add_0_l in H4.
  pose proof (sound_by_pointers hdrs _ _ H2 Hsound) as Hcs.
  destruct (free_viewbuf_fields (set_signalcomp cs w))
    as (Fv & Fc & Fh & Ff & Fe & Fp & Fl).
  set (w1 := free_viewbuf (set_signalcomp cs w)) in *.
  cbn [set_signalcomp signalcomp edfheaderlist files events pagetime
       live_stream_active] in Fc, Fh, Ff, Fe, Fp, Fl.
  fold hdrs in Fh.
  assert (Hloop : forall s,
            signalcomp s = cs -> edfheaderlist s = hdrs -> files s = files w ->
            events s = events w -> pagetime s = pagetime w ->
            live_stream_active s = live_stream_active w ->
            viewbuf s = (if total =? 0 then None else Some (malloc total)) ->
            if all_readable hdrs fs0 [] cs
            then exists w',
                and_then (for_comps_return read_view_step [] (signalcomp s) s)
                  (fun '(comps, w) => Next (set_signalcomp comps w))
                  (fun '(comps, w) => set_signalcomp comps w) = Next w'
                /\ signalcomp w' = map (finish hdrs) cs
                /\ buffer_of w' = image_from hdrs fs0 [] cs
                /\ nonnull (viewbuf w') = negb (total =? 0)
                /\ events w' = events w ++ calls_from hdrs [] cs
                /\ same_contents (files w') fs0
                /\ edfheaderlist w' = hdrs
                /\ pagetime w' = pagetime w
                /\ live_stream_active w' = live_stream_active w
            else exists w',
                and_then (for_comps_return read_view_step [] (signalcomp s) s)
                  (fun '(comps, w) => Next (set_signalcomp comps w))
                  (fun '(comps, w) => set_signalcomp comps w) = Return w').
  { intros s Sc Sh Sf Se Sp Sl Sv.
    pose proof (read_view_loop hdrs fs0 (pagetime w) cs [] s [] Sh) as L.
    rewrite Sf in L. specialize (L Hfs Hpt Hcs H3).
    cbn [map app] in L. rewrite <- H4 in L.
    assert (Hb : buffer_of s = replicate (Z.to_nat total) Undef).
    { unfold buffer_of. rewrite Sv.
      destruct (Z.eqb_spec total 0) as [->|]; reflexivity. }
    specialize (L Hb). rewrite Sc.
    destruct (all_readable hdrs fs0 [] cs).
    - destruct L as (s' & Ls & Lb & Ln & Lf & Lh & Le & Lp & Ll).
      rewrite Ls. cbn [and_then]. eexists. split; [reflexivity|].
      cbn [set_signalcomp signalcomp viewbuf events files edfheaderlist pagetime
           live_stream_active buffer_of].
      change (buffer_of (set_signalcomp (map (finish hdrs) cs) s'))
        with (buffer_of s').
      rewrite Lb, Ln, Le, Lp, Ll, Se, Sp, Sl, Sv.
      repeat split; first [reflexivity | assumption | idtac].
      destruct (total =? 0); reflexivity.
    - destruct L as (cs' & s' & Ls). rewrite Ls. cbn [and_then].
      eexists. reflexivity. }
  destruct (Z.eqb_spec total 0) as [Ht|Ht].
  - cbn [orb andb and_then].
    specialize (Hloop w1 Fc Fh Ff Fe Fp Fl Fv).
    destruct (all_readable hdrs fs0 [] cs).
    + destruct Hloop as (w' & Hw & Hrest). exists w'. rewrite Hw.
      split; [reflexivity | exact Hrest].
    + destruct Hloop as (w' & Hw). exists w'. rewrite Hw. reflexivity.
  - cbn [orb]. unfold ViewBuf.allocate.
    destruct (capacity_ceiling lp64 <=? total); cbn [orb negb andb and_then id];
      [eexists; reflexivity|].
    destruct (malloc_fails total); cbn [orb negb andb and_then id];
      [eexists; reflexivity|].
    specialize (Hloop (set_viewbuf (Some (malloc total)) total w1)
                  Fc Fh Ff Fe Fp Fl).
    change (signalcomp w1)
      with (signalcomp (set_viewbuf (Some (malloc total)) total w1)).
    destruct (Z.eqb_spec total 0) as [|_]; [contradiction|].
    specialize (Hloop eq_refl).
    destruct (all_readable hdrs fs0 [] cs).
    + destruct Hloop as (w' & Hw & Hrest). exists w'. rewrite Hw.
      split; [reflexivity | exact Hrest].
    + destruct Hloop as (w' & Hw). exists w'. rewrite Hw. reflexivity.
Qed.

(** *** The buffer only depends on the page and the files *)

Lemma region_by_plan (hdrs : list edfhdrblock) (fs : gmap Z stream)
    (c c' : signalcompblock) :
  edfhdr c' = edfhdr c -> records_in_viewbuf c' = records_in_viewbuf c ->
  region hdrs fs c' = region hdrs fs c
  /\ readable hdrs fs c' = readable hdrs fs c
  /\ read_size hdrs c' = read_size hdrs c.
Proof.
  intros He Hr. unfold region, readable, read_size, hdr_of.
  rewrite He, Hr. auto.
Qed.

Lemma laid_out_same (hdrs : list edfhdrblock) (fs : gmap Z stream) (pt : Z)
    (cs cs' : list signalcompblock) (seen : list nat) (total : Z) :
  map edfhdr cs' = map edfhdr cs ->
  laid_out hdrs pt seen total cs -> laid_out hdrs pt seen total cs' ->
  image_from hdrs fs seen cs' = image_from hdrs fs seen cs
  /\ all_readable hdrs fs seen cs' = all_readable hdrs fs seen cs
  /\ bytes_from hdrs seen cs' = bytes_from hdrs seen cs
  /\ calls_from hdrs seen cs' = calls_from hdrs seen cs.
Proof.
  revert cs' seen total.
  induction cs as [|c cs IH]; intros [|c' cs'] seen total Hm H1 H2;
    try discriminate; [repeat split|].
  injection Hm as He Hm.
  cbn [laid_out image_from all_readable bytes_from calls_from] in *.
  assert (Hh : hdr_of hdrs c' = hdr_of hdrs c)
    by (unfold hdr_of; rewrite He; reflexivity).
  rewrite He, Hh in *.
  destruct (seen_file hdrs seen (edfhdr c)).
  - destruct (IH cs' _ _ Hm H1 H2) as (-> & -> & -> & ->). repeat split.
  - destruct H1 as (O1 & R1 & H1), H2 as (O2 & R2 & H2).
    assert (Hr : records_in_viewbuf c' = records_in_viewbuf c) by congruence.
    rewrite Hr in H2.
    destruct (IH cs' _ _ Hm H1 H2) as (-> & -> & -> & ->).
    destruct (region_by_plan hdrs fs c c' He Hr) as (-> & -> & ->).
    rewrite Hr. repeat split.
Qed.

Lemma region_stored (hdrs : list edfhdrblock) (fs : gmap Z stream)
    (c : signalcompblock) :
  Forall (fun x => is_stored x = true) (region hdrs fs c).
Proof.
  unfold region. destruct (_ <=? 0).
  - apply Forall_replicate. reflexivity.
  - apply Forall_app. split; [|apply Forall_replicate; reflexivity].
    induction (file_bytes _ _ _ _); constructor; auto.
Qed.

Lemma image_stored (hdrs : list edfhdrblock) (fs : gmap Z stream)
    (cs : list signalcompblock) (seen : list nat) :
  Forall (fun x => is_stored x = true) (image_from hdrs fs seen cs).
Proof.
  revert seen. induction cs as [|c cs IH]; intros seen; cbn [image_from];
    [constructor|].
  apply Forall_app. split; [|apply IH].
  destruct (seen_file _ _ _); [constructor | apply region_stored].
Qed.

Lemma length_image (hdrs : list edfhdrblock) (fs : gmap Z stream) (pt : Z)
    (cs : list signalcompblock) (seen : list nat) (total : Z) :
  0 <= pt ->
  Forall (fun c => sound_header (hdr_of hdrs c)) cs ->
  laid_out hdrs pt seen total cs ->
  all_readable hdrs fs seen cs = true ->
  Z.of_nat (length (image_from hdrs fs seen cs)) = bytes_from hdrs seen cs.
Proof.
  intros Hpt Hs. revert seen total.
  induction Hs as [|c cs Hc _ IH]; intros seen total Hl Hr;
    cbn [laid_out all_readable image_from bytes_from] in *; [reflexivity|].
  apply andb_prop in Hr as [Hr1 Hr2]. rewrite length_app, Nat2Z.inj_add.
  destruct (seen_file hdrs seen (edfhdr c)).
  - rewrite (IH _ _ Hl Hr2). reflexivity.
  - destruct Hl as (_ & Hriv & Hl). cbn [orb] in Hr1.
    pose proof Hc as (Hd & Hrs & _).
    pose proof (records_of_page_pos pt (viewtime (hdr_of hdrs c)) _ Hpt Hd).
    rewrite (IH _ _ Hl Hr2), (length_region hdrs fs c Hc ltac:(lia) Hr1). nia.
Qed.

Lemma hdr_of_at_entry (hdrs : list edfhdrblock) (c : signalcompblock) :
  hdr_of (map (set_prefiltertime 0) hdrs) c = set_prefiltertime 0 (hdr_of hdrs c).
Proof.
  unfold hdr_of. generalize (edfhdr c) as k.
  induction hdrs as [|h hdrs IH]; intros [|k]; cbn; auto.
Qed.

Lemma sound_page_at_entry (w : window) : sound_page w <-> sound_page (at_entry w).
Proof.
  unfold sound_page, at_entry.
  cbn [set_edfheaderlist pagetime edfheaderlist signalcomp].
  split; intros [Hp Hs]; (split; [exact Hp|]);
    eapply Forall_impl; try exact Hs; intros c; cbv beta;
    rewrite hdr_of_at_entry; auto.
Qed.

(** Without filters there is no warm-up: the function is its second phase. *)
Lemma setup_viewbuf_plain (w : window) :
  unfiltered w -> setup_viewbuf w = materialize (at_entry w).
Proof.
  intros Hu. unfold ViewBuf.setup_viewbuf, pre_time_loop.
  cbn [set_edfheaderlist signalcomp].
  rewrite (pre_time_loop_plain [] (signalcomp w) _ Hu). cbn [app and_then].
  destruct w; reflexivity.
Qed.

Lemma for_comps_keeps {S : Type} (R : signalcompblock -> signalcompblock -> Prop)
    (body : list signalcompblock -> signalcompblock -> S -> signalcompblock * S)
    (done todo : list signalcompblock) (s : S) :
  (forall done c s, R (body done c s).1 c) ->
  exists todo',
    (for_comps body done todo s).1 = done ++ todo' /\ Forall2 R todo' todo.
Proof.
  intros Hb. revert done s. induction todo as [|c todo IH]; intros done s.
  - exists []. cbn. rewrite app_nil_r. split; [reflexivity | constructor].
  - cbn [for_comps]. specialize (Hb done c s).
    destruct (body done c s) as [c' s']. cbn [fst] in Hb.
    destruct (IH (done ++ [c']) s') as (todo' & H1 & H2).
    exists (c' :: todo'). rewrite H1, <- app_assoc. split; [reflexivity|].
    constructor; assumption.
Qed.

(** What the second planning loop leaves of a composition. *)
Lemma planned_keeps (w : window) :
  Forall2 (fun c' c => edfhdr c' = edfhdr c /\ has_filters c' = has_filters c
                       /\ edfparam_0 c' = edfparam_0 c)
    (planned w) (signalcomp w).
Proof.
  unfold planned.
  destruct (for_comps_keeps
              (fun c' c => edfhdr c' = edfhdr c /\ has_filters c' = has_filters c
                           /\ edfparam_0 c' = edfparam_0 c)
              (plan_view_step (edfheaderlist w) (pagetime w)) [] (signalcomp w) 0)
    as (cs & -> & H); [|exact H].
  intros done c s. unfold plan_view_step.
  destruct (time_offset _ _ _) as [toff tpart].
  destruct done as [|d done]; [|destruct (earlier_on_file _ _ _)]; cbn; auto.
Qed.

Lemma planned_pointers (w : window) :
  map edfhdr (planned w) = map edfhdr (signalcomp w).
Proof.
  induction (planned_keeps w) as [|c' c cs' cs (H & _) _ IH]; cbn;
    [reflexivity | rewrite H, IH; reflexivity].
Qed.

Lemma planned_laid_out (w : window) :
  laid_out (edfheaderlist w) (pagetime w) [] 0 (planned w)
  /\ page_bytes w = bytes_from (edfheaderlist w) [] (planned w).
Proof.
  unfold planned, page_bytes.
  destruct (plan_view_laid_out (edfheaderlist w) (pagetime w) (signalcomp w) [] 0
              ltac:(auto)) as (cs & H1 & H2 & H3 & H4).
  rewrite H1, H4. cbn [app map] in *. split; [exact H3 | lia].
Qed.

(** The plan, and with it the buffer, is the same for two windows on the
    same page. *)
Lemma planned_same (w1 w2 : window) (fs : gmap Z stream) :
  edfheaderlist w1 = edfheaderlist w2 -> pagetime w1 = pagetime w2 ->
  map edfhdr (signalcomp w1) = map edfhdr (signalcomp w2) ->
  let hdrs := edfheaderlist w1 in
  image_from hdrs fs [] (planned w2) = image_from hdrs fs [] (planned w1)
  /\ all_readable hdrs fs [] (planned w2) = all_readable hdrs fs [] (planned w1)
  /\ page_bytes w2 = page_bytes w1
  /\ calls_from hdrs [] (planned w2) = calls_from hdrs [] (planned w1).
Proof.
  intros Hh Hp Hm hdrs.
  destruct (planned_laid_out w1) as (L1 & B1), (planned_laid_out w2) as (L2 & B2).
  rewrite <- Hh in L2, B2. rewrite <- Hp in L2. fold hdrs in L1, L2, B1, B2.
  assert (Hm' : map edfhdr (planned w2) = map edfhdr (planned w1))
    by (rewrite !planned_pointers; symmetry; exact Hm).
  destruct (laid_out_same hdrs fs (pagetime w1) _ _ [] 0 Hm' L1 L2)
    as (-> & -> & E & ->).
  rewrite B1, B2, E. repeat split.
Qed.

Lemma page_bytes_length (w : window) (fs : gmap Z stream) :
  sound_page w ->
  all_readable (edfheaderlist w) fs [] (planned w) = true ->
  Z.of_nat (length (image_from (edfheaderlist w) fs [] (planned w))) = page_bytes w.
Proof.
  intros (Hp & Hs) Hr. destruct (planned_laid_out w) as (L & ->).
  apply (length_image _ fs (pagetime w) _ [] 0 Hp); [|exact L | exact Hr].
  apply (sound_by_pointers _ (signalcomp w)); [apply planned_pointers | exact Hs].
Qed.

Lemma viewbuf_by_buffer (w1 w2 : window) :
  buffer_of w1 = buffer_of w2 -> nonnull (viewbuf w1) = nonnull (viewbuf w2) ->
  viewbuf w1 = viewbuf w2.
Proof.
  unfold buffer_of. destruct (viewbuf w1), (viewbuf w2); cbn;
    intros H1 H2; congruence.
Qed.

(** A call on a window without filters, when the buffer is granted and
    every read delivers. *)
Lemma plain_call_spec (w : window) (fs0 : gmap Z stream) :
  sound_page w -> unfiltered w -> same_contents (files w) fs0 ->
  let a := at_entry w in
  let hdrs := edfheaderlist a in
  if granted a && all_readable hdrs fs0 [] (planned a)
  then exists w',
         setup_viewbuf w = Next w'
         /\ signalcomp w' = map (finish hdrs) (planned a)
         /\ buffer_of w' = image_from hdrs fs0 [] (planned a)
         /\ nonnull (viewbuf w') = negb (page_bytes a =? 0)
         /\ events w' = events w ++ calls_from hdrs [] (planned a)
         /\ same_contents (files w') fs0
         /\ edfheaderlist w' = hdrs
         /\ pagetime w' = pagetime w
         /\ live_stream_active w' = live_stream_active w
  else exists w', setup_viewbuf w = Return w'.
Proof.
  intros Hs Hu Hf. rewrite (setup_viewbuf_plain w Hu).
  apply sound_page_at_entry in Hs.
  exact (materialize_spec (at_entry w) fs0 Hs Hf).
Qed.

Lemma finished_keeps (hdrs : list edfhdrblock) (w : window) :
  Forall2 (fun c' c => edfhdr c' = edfhdr c /\ has_filters c' = has_filters c
                       /\ edfparam_0 c' = edfparam_0 c)
    (map (finish hdrs) (planned w)) (signalcomp w).
Proof.
  induction (planned_keeps w) as [|c' c cs' cs H _ IH]; cbn [map]; constructor;
    [exact H | exact IH].
Qed.

(** A completed call on a window without filters leaves a window on the
    same page, still without filters. *)
Lemma plain_call_closed (w w' : window) :
  sound_page w -> unfiltered w -> setup_viewbuf w = Next w' ->
  unfiltered w' /\ same_frame w w'.
Proof.
  intros Hs Hu Hw.
  pose proof (plain_call_spec w (files w) Hs Hu (fun _ => eq_refl)) as P.
  cbv zeta in P. destruct (_ && _).
  2: { destruct P as (x & Hx). congruence. }
  destruct P as (x & Hx & Hc & _ & _ & _ & Hf & Hh & Hp & _).
  rewrite Hw in Hx. injection Hx as <-.
  pose proof (finished_keeps (edfheaderlist (at_entry w)) (at_entry w)) as K.
  rewrite <- Hc in K. change (signalcomp (at_entry w)) with (signalcomp w) in K.
  split; [|split; [|split; [|split]]].
  - unfold unfiltered in *. clear - K Hu.
    induction K as [|c' c cs' cs (_ & H & _) _ IH]; [constructor|].
    inversion Hu; subst. constructor; [congruence | auto].
  - rewrite Hh. unfold at_entry. cbn [edfheaderlist set_edfheaderlist].
    rewrite map_map. apply map_ext. intros []; reflexivity.
  - symmetry. exact Hp.
  - intros hdl. symmetry. apply Hf.
  - clear - K. induction K as [|c' c cs' cs (H & _) _ IH]; cbn;
      [reflexivity | rewrite H, IH; reflexivity].
Qed.

(** *** Compositions on the same file *)

Lemma plan_view_step_plan (hdrs : list edfhdrblock) (pt : Z)
    (done : list signalcompblock) (c : signalcompblock) (total : Z) :
  let c' := (plan_view_step hdrs pt done c total).1 in
  edfhdr c' = edfhdr c
  /\ match done with
     | [] => True
     | _ => forall e, earlier_on_file hdrs done c = Some e -> plan_of c' = plan_of e
     end.
Proof.
  unfold plan_view_step. destruct (time_offset _ _ _) as [toff tpart].
  destruct done as [|d done]; [cbn; auto|].
  destruct (earlier_on_file hdrs (d :: done) c) as [e|]; cbn [fst]; split;
    try reflexivity; intros e' He; [|discriminate].
  injection He as <-. reflexivity.
Qed.

(** The second planning loop gives the compositions on one file the same
    offset, records and bytes. *)
Lemma plan_view_loop_shared (hdrs : list edfhdrblock) (pt : Z)
    (todo done : list signalcompblock) (total : Z) :
  (forall c1 c2, In c1 done -> In c2 done ->
     file_hdl (hdr_of hdrs c1) = file_hdl (hdr_of hdrs c2) ->
     plan_of c1 = plan_of c2) ->
  forall c1 c2,
    In c1 (for_comps (plan_view_step hdrs pt) done todo total).1 ->
    In c2 (for_comps (plan_view_step hdrs pt) done todo total).1 ->
    file_hdl (hdr_of hdrs c1) = file_hdl (hdr_of hdrs c2) ->
    plan_of c1 = plan_of c2.
Proof.
  revert done total. induction todo as [|c todo IH]; intros done total Hinv;
    cbn [for_comps]; [exact Hinv|].
  pose proof (plan_view_step_plan hdrs pt done c total) as (He & Hp).
  destruct (plan_view_step hdrs pt done c total) as [c' total']. cbn [fst] in *.
  apply IH. clear IH.
  assert (Hh : hdr_of hdrs c' = hdr_of hdrs c)
    by (unfold hdr_of; rewrite He; reflexivity).
  assert (Hnew : forall d, In d done ->
            file_hdl (hdr_of hdrs c') = file_hdl (hdr_of hdrs d) ->
            plan_of c' = plan_of d).
  { intros d Hd Hf. destruct done as [|d0 done0]; [destruct Hd|].
    destruct (earlier_on_file hdrs (d0 :: done0) c) as [e|] eqn:E.
    - rewrite (Hp e eq_refl). apply find_some in E as [He1 He2].
      apply Hinv; [exact He1 | exact Hd|].
      unfold shares_file in He2. apply Z.eqb_eq in He2. congruence.
    - pose proof (find_none _ _ E d Hd) as Hn. unfold shares_file in Hn.
      apply Z.eqb_neq in Hn. congruence. }
  intros c1 c2 H1 H2 Hf.
  apply in_app_or in H1 as [H1|[<-|[]]], H2 as [H2|[<-|[]]].
  - apply Hinv; assumption.
  - symmetry. apply Hnew; [assumption | congruence].
  - apply Hnew; assumption.
  - reflexivity.
Qed.

Lemma planned_shared (w : window) (c1 c2 : signalcompblock) :
  In c1 (planned w) -> In c2 (planned w) ->
  file_hdl (hdr_of (edfheaderlist w) c1) = file_hdl (hdr_of (edfheaderlist w) c2) ->
  plan_of c1 = plan_of c2.
Proof.
  apply plan_view_loop_shared. intros ? ? [].
Qed.

(** *** The lists of regions, cut in two *)

Lemma seen_file_app (hdrs : list edfhdrblock) (s1 s2 : list nat) (k : nat) :
  seen_file hdrs (s1 ++ s2) k = seen_file hdrs s1 k || seen_file hdrs s2 k.
Proof. unfold seen_file. apply existsb_app. Qed.

Lemma image_from_app (hdrs : list edfhdrblock) (fs : gmap Z stream)
    (l1 l2 : list signalcompblock) (seen : list nat) :
  image_from hdrs fs seen (l1 ++ l2)
    = image_from hdrs fs seen l1 ++ image_from hdrs fs (seen ++ map edfhdr l1) l2.
Proof.
  revert seen. induction l1 as [|c l1 IH]; intros seen; cbn [app map image_from].
  - rewrite app_nil_r. reflexivity.
  - rewrite IH, <- !app_assoc. reflexivity.
Qed.

Lemma bytes_from_app (hdrs : list edfhdrblock)
    (l1 l2 : list signalcompblock) (seen : list nat) :
  bytes_from hdrs seen (l1 ++ l2)
    = bytes_from hdrs seen l1 + bytes_from hdrs (seen ++ map edfhdr l1) l2.
Proof.
  revert seen. induction l1 as [|c l1 IH]; intros seen; cbn [app map bytes_from].
  - rewrite app_nil_r. lia.
  - rewrite IH, <- !app_assoc. cbn [app]. lia.
Qed.

Lemma all_readable_app (hdrs : list edfhdrblock) (fs : gmap Z stream)
    (l1 l2 : list signalcompblock) (seen : list nat) :
  all_readable hdrs fs seen (l1 ++ l2)
    = all_readable hdrs fs seen l1
      && all_readable hdrs fs (seen ++ map edfhdr l1) l2.
Proof.
  revert seen. induction l1 as [|c l1 IH]; intros seen; cbn [app map all_readable].
  - rewrite app_nil_r. reflexivity.
  - rewrite IH, <- !app_assoc, andb_assoc. reflexivity.
Qed.

Lemma laid_out_app (hdrs : list edfhdrblock) (pt : Z)
    (l1 l2 : list signalcompblock) (seen : list nat) (total : Z) :
  laid_out hdrs pt seen total (l1 ++ l2) ->
  laid_out hdrs pt seen total l1
  /\ laid_out hdrs pt (seen ++ map edfhdr l1)
       (total + bytes_from hdrs seen l1) l2.
Proof.
  revert seen total.
  induction l1 as [|c l1 IH]; intros seen total H;
    cbn [app map laid_out bytes_from] in *.
  - rewrite app_nil_r, Z.add_0_r. auto.
  - destruct (seen_file hdrs seen (edfhdr c)).
    + apply IH in H as [H1 H2]. rewrite <- app_assoc in H2. cbn [app] in H2.
      rewrite Z.add_0_l. auto.
    + destruct H as (Ho & Hr & H). apply IH in H as [H1 H2].
      rewrite <- app_assoc in H2. cbn [app] in H2.
      rewrite Z.add_assoc. auto.
Qed.

(** The first composition on a file points at the region of the file. *)
Lemma leader_part (hdrs : list edfhdrblock) (fs : gmap Z stream) (pt : Z)
    (cs : list signalcompblock) (i : nat) (c : signalcompblock) :
  0 <= pt ->
  Forall (fun c => sound_header (hdr_of hdrs c)) cs ->
  laid_out hdrs pt [] 0 cs ->
  all_readable hdrs fs [] cs = true ->
  cs !! i = Some c ->
  seen_file hdrs (map edfhdr (take i cs)) (edfhdr c) = false ->
  part_of hdrs c (image_from hdrs fs [] cs) = region hdrs fs c
  /\ records_in_viewbuf c
     = records_of_page pt (viewtime (hdr_of hdrs c))
         (long_data_record_duration (hdr_of hdrs c))
  /\ readable hdrs fs c = true.
Proof.
  intros Hpt Hs Hl Hr Hi Hseen.
  pose proof (take_drop_middle cs i c Hi) as Hcs.
  assert (Hs1 : Forall (fun c => sound_header (hdr_of hdrs c)) (take i cs))
    by (apply Forall_take, Hs).
  assert (Hc : sound_header (hdr_of hdrs c))
    by (eapply Forall_lookup_1 in Hs; [exact Hs | exact Hi]).
  rewrite <- Hcs in Hl, Hr. rewrite <- Hcs at 1.
  apply laid_out_app in Hl as [L1 L2].
  rewrite all_readable_app in Hr. apply andb_prop in Hr as [R1 R2].
  cbn [app laid_out all_readable] in L2, R2. rewrite Hseen in L2, R2.
  destruct L2 as (Ho & Hriv & _). apply andb_prop in R2 as [R2 _].
  cbn [orb] in R2.
  pose proof (length_image hdrs fs pt _ [] 0 Hpt Hs1 L1 R1) as Hlen.
  pose proof Hc as (Hd & Hrs & _).
  pose proof (records_of_page_pos pt (viewtime (hdr_of hdrs c)) _ Hpt Hd) as Hp.
  pose proof (length_region hdrs fs c Hc ltac:(lia) R2) as Hreg.
  split; [|split; [exact Hriv | exact R2]].
  unfold part_of. rewrite image_from_app. cbn [app image_from]. rewrite Hseen.
  rewrite drop_app_length' by lia.
  rewrite take_app_length' by lia. reflexivity.
Qed.

(** Every composition has a first composition on its file. *)
Lemma first_on_file_exists (hdrs : list edfhdrblock) (cs : list signalcompblock)
    (j : nat) (c : signalcompblock) :
  cs !! j = Some c ->
  exists i l,
    cs !! i = Some l
    /\ file_hdl (hdr_of hdrs l) = file_hdl (hdr_of hdrs c)
    /\ seen_file hdrs (map edfhdr (take i cs)) (edfhdr l) = false.
Proof.
  revert c. induction (lt_wf j) as [j _ IH]. intros c Hj.
  destruct (seen_file hdrs (map edfhdr (take j cs)) (edfhdr c)) eqn:E.
  - unfold seen_file in E. apply existsb_exists in E as (k & Hk & Hf).
    apply in_map_iff in Hk as (c' & <- & Hc').
    apply list_elem_of_In, list_elem_of_lookup in Hc' as (j' & Hj').
    apply lookup_take_Some in Hj' as [Hj' Hlt].
    destruct (IH j' Hlt c' Hj') as (i & l & H1 & H2 & H3).
    exists i, l. repeat split; [exact H1 | | exact H3].
    apply Z.eqb_eq in Hf. unfold hdr_of, hdr_at in *. congruence.
  - exists j, c. auto.
Qed.

(** A header that is sound is a header of the list. *)
Lemma sound_is_listed (hdrs : list edfhdrblock) (c : signalcompblock) :
  sound_header (hdr_of hdrs c) -> hdrs !! edfhdr c = Some (hdr_of hdrs c).
Proof.
  unfold hdr_of. destruct (hdrs !! edfhdr c); [reflexivity|].
  intros (H & _). cbn in H. lia.
Qed.

(** *** The reads on a file *)



(** *** A completed second phase *)

Lemma materialize_next (w w' : window) :
  sound_page w -> materialize w = Next w' ->
  let hdrs := edfheaderlist w in
  all_readable hdrs (files w) [] (planned w) = true
  /\ signalcomp w' = map (finish hdrs) (planned w)
  /\ buffer_of w' = image_from hdrs (files w) [] (planned w)
  /\ new_calls w w' = calls_from hdrs [] (planned w).
Proof.
  intros Hs Hw hdrs.
  pose proof (materialize_spec w (files w) Hs (fun _ => eq_refl)) as P.
  cbv zeta in P. fold hdrs in P.
  destruct (all_readable hdrs (files w) [] (planned w));
    [|rewrite andb_false_r in P; destruct P as (x & Hx); congruence].
  destruct (granted w); [|destruct P as (x & Hx); congruence].
  destruct P as (x & Hx & Hc & Hb & _ & He & _).
  rewrite Hw in Hx. injection Hx as <-.
  repeat split; try assumption.
  unfold new_calls. rewrite He, drop_app_length. reflexivity.
Qed.

Lemma finished_lookup (hdrs : list edfhdrblock) (cs : list signalcompblock)
    (i : nat) (c : signalcompblock) :
  map (finish hdrs) cs !! i = Some c ->
  exists c0, cs !! i = Some c0 /\ c = finish hdrs c0.
Proof.
  revert i. induction cs as [|c0 cs IH]; intros [|i] H; cbn in H;
    try discriminate.
  - injection H as <-. exists c0. auto.
  - apply IH, H.
Qed.

Lemma planned_sound (w : window) :
  sound_page w ->
  Forall (fun c => sound_header (hdr_of (edfheaderlist w) c)) (planned w).
Proof.
  intros (_ & Hs).
  exact (sound_by_pointers _ _ _ (planned_pointers w) Hs).
Qed.

(** A page that ends after the last record touches more records than the
    file has from its first record on. *)
Lemma past_end_records (h : edfhdrblock) (pt : Z) :
  sound_header h -> 0 <= pt -> page_past_end h pt ->
  available_records h
  < records_of_page pt (viewtime h) (long_data_record_duration h).
Proof.
  intros (Hd & _) Hpt Hpast.
  pose proof (records_of_page_pos pt (viewtime h) _ Hpt Hd) as Hpos.
  unfold available_records, records_left, page_past_end in *.
  apply Z.max_lub_lt; [lia|].
  unfold first_record, records_of_page in *.
  set (d := long_data_record_duration h) in *.
  destruct (Z.leb_spec 0 (viewtime h)) as [Hv|Hv].
  - pose proof (Z.quot_rem' (viewtime h) d) as Hq.
    pose proof (Z.rem_bound_pos (viewtime h) d Hv Hd) as Hr.
    pose proof (Z.quot_pos (viewtime h) d Hv ltac:(lia)) as Hq0.
    rewrite (Z.quot_div_nonneg (pt + Z.rem (viewtime h) d) d) by lia.
    assert (datarecords h - Z.quot (viewtime h) d
            <= (pt + Z.rem (viewtime h) d) / d)
      by (apply Z.div_le_lower_bound; nia).
    lia.
  - pose proof (Z.rem_bound_pos (- viewtime h) d ltac:(lia) Hd) as Hr.
    rewrite (Z.quot_div_nonneg (pt + Z.rem (- viewtime h) d) d) by lia.
    assert (datarecords h <= (pt + Z.rem (- viewtime h) d) / d)
      by (apply Z.div_le_lower_bound; nia).
    lia.
Qed.

(** Every composition of a completed frame points at the region of its
    file, with the records the page touches. *)
Lemma part_is_region (w w' : window) (i : nat) (c : signalcompblock) :
  sound_page w -> handles_distinct (edfheaderlist w) ->
  materialize w = Next w' ->
  signalcomp w' !! i = Some c ->
  let hdrs := edfheaderlist w in
  let h := hdr_of hdrs c in
  exists c0,
    planned w !! i = Some c0 /\ c = finish hdrs c0
    /\ part_of hdrs c (buffer_of w') = region hdrs (files w) c0
    /\ records_in_viewbuf c0
       = records_of_page (pagetime w) (viewtime h) (long_data_record_duration h)
    /\ readable hdrs (files w) c0 = true.
Proof.
  intros Hs Hd Hw Hi hdrs h.
  destruct (materialize_next w w' Hs Hw) as (Hr & Hc & Hb & _). fold hdrs in Hr, Hc, Hb.
  rewrite Hc in Hi. apply finished_lookup in Hi as (c0 & Hi & ->).
  exists c0. split; [exact Hi|]. split; [reflexivity|].
  destruct (first_on_file_exists hdrs (planned w) i c0 Hi)
    as (k & l & Hk & Hf & Hfirst).
  pose proof (planned_sound w Hs) as Hsound. fold hdrs in Hsound.
  destruct (planned_laid_out w) as (Hl & _). fold hdrs in Hl.
  destruct (leader_part hdrs (files w) (pagetime w) (planned w) k l
              (proj1 Hs) Hsound Hl Hr Hk Hfirst) as (Hp & Hriv & Hread).
  pose proof (Forall_lookup_1 _ _ _ _ Hsound Hk) as Sl.
  pose proof (Forall_lookup_1 _ _ _ _ Hsound Hi) as Sc. cbv beta in Sl, Sc.
  assert (He : edfhdr l = edfhdr c0).
  { apply (Hd _ _ _ _ (sound_is_listed hdrs l Sl) (sound_is_listed hdrs c0 Sc) Hf). }
  assert (Hplan : plan_of l = plan_of c0).
  { apply (planned_shared w);
      [apply list_elem_of_In; eapply list_elem_of_lookup_2; exact Hk
      |apply list_elem_of_In; eapply list_elem_of_lookup_2; exact Hi
      |exact Hf]. }
  unfold plan_of in Hplan. injection Hplan as Ho Hr' Hsz.
  assert (Hh : hdr_of hdrs l = hdr_of hdrs c0)
    by (unfold hdr_of; rewrite He; reflexivity).
  destruct (region_by_plan hdrs (files w) c0 l He Hr') as (Ereg & Eread & _).
  change h with (hdr_of hdrs c0). rewrite <- Hh, <- Hr', <- Ereg, <- Eread.
  split; [|split; [exact Hriv | exact Hread]].
  rewrite Hb, <- Hp. unfold part_of.
  change (hdr_of hdrs (finish hdrs c0)) with (hdr_of hdrs c0).
  change (records_in_viewbuf (finish hdrs c0)) with (records_in_viewbuf c0).
  change (viewbufoffset (finish hdrs c0)) with (viewbufoffset c0).
  rewrite Hh, Ho, Hr'. reflexivity.
Qed.

Lemma file_bytes_none (fs : gmap Z stream) (hdl pos : Z) :
  file_bytes fs hdl pos 0 = [].
Proof. unfold file_bytes. destruct (fs !! hdl); reflexivity. Qed.

(** C6, as the code has it.  In a completed frame a composition whose page
    ends after the last record of its recording has, in its part of the
    buffer, the bytes of the records the file has from the first record of
    the page on, all of them read, followed by zeros up to the end of the
    part; [sample_stop] is those records in samples less
    [sample_timeoffset], plus [sample_start], when the page starts before
    the end of the recording, and [sample_start] when it starts at or
    after the end (the part is all zeros then). *)
Theorem page_past_end_zero_filled (w w' : window) (i : nat) (c : signalcompblock) :
  sound_page w -> handles_distinct (edfheaderlist w) ->
  materialize w = Next w' ->
  signalcomp w' !! i = Some c ->
  let hdrs := edfheaderlist w in
  let h := hdr_of hdrs c in
  page_past_end h (pagetime w) ->
  let got := available_records h * recordsize h in
  let whole := records_in_viewbuf c * recordsize h in
  available_records h < records_in_viewbuf c
  /\ part_of hdrs c (buffer_of w')
     = map Byte (file_bytes (files w) (file_hdl h) (read_pos h) got)
       ++ replicate (Z.to_nat (whole - got)) (Byte 0)
  /\ Z.of_nat (length (file_bytes (files w) (file_hdl h) (read_pos h) got)) = got
  /\ sample_stop c
     = (if records_left h <=? 0 then 0
        else records_left h * smp_per_record (edfparam_0 c) - sample_timeoffset c)
       + sample_start c.
Proof.
  intros Hs Hd Hw Hi hdrs h Hpast got whole. subst got whole h hdrs.
  destruct (part_is_region w w' i c Hs Hd Hw Hi)
    as (c0 & Hi0 & -> & Hpart & Hriv & Hread).
  pose proof (Forall_lookup_1 _ _ _ _ (planned_sound w Hs) Hi0) as Sc.
  cbv beta in Sc.
  set (hdrs := edfheaderlist w) in *.
  change (hdr_of hdrs (finish hdrs c0)) with (hdr_of hdrs c0) in *.
  change (records_in_viewbuf (finish hdrs c0)) with (records_in_viewbuf c0) in *.
  set (h := hdr_of hdrs c0) in *.
  pose proof (past_end_records h (pagetime w) Sc (proj1 Hs) Hpast) as Hlt.
  rewrite <- Hriv in Hlt.
  split; [exact Hlt|].
  rewrite Hpart.
  unfold region, readable, read_size in *. fold h in Hread |- *.
  cbn [finish set_sample_stop sample_stop sample_start edfparam_0
       sample_timeoffset]. unfold last_sample. fold h.
  unfold available_records in *.
  destruct (Z.leb_spec (records_left h) 0) as [Hrl|Hrl].
  - rewrite Z.max_l by lia. cbn [Z.mul]. rewrite file_bytes_none, Z.sub_0_r.
    repeat split.
  - rewrite Z.max_r in * by lia.
    destruct (Z.ltb_spec (records_left h) (records_in_viewbuf c0)); [|lia].
    cbn [orb] in Hread. apply andb_prop in Hread as [_ Hlen].
    apply Z.eqb_eq in Hlen. repeat split. exact Hlen.
Qed.


Lemma handles_distinct_one (h : edfhdrblock) : handles_distinct [h].
Proof.
  intros [|i] [|j] hi hj Hi Hj _; cbn in Hi, Hj; try discriminate; reflexivity.
Defined.

(** *** The ECG filter in the warm-up *)






(** *** The sample at which the Z-ratio filter is reset *)

Lemma wrap_int_small (n : Z) : - 2 ^ 31 <= n < 2 ^ 31 -> wrap_int n = n.
Proof. intros H. unfold wrap_int. rewrite Z.mod_small; lia. Qed.

(** The first composition on a file is given the start of its warm-up
    buffer. *)
Lemma read_prefilter_step_first (done : list signalcompblock)
    (c c' : signalcompblock) (w w' : window) :
  let h := hdr_of (edfheaderlist w) c in
  seen_file (edfheaderlist w) (map edfhdr done) (edfhdr c) = false ->
  read_prefilter_step done c w = Next (c', w') ->
  prefilter_starttime c'
    = Z.quot (viewtime h - prefiltertime h) (long_data_record_duration h)
      * long_data_record_duration h
  /\ zratio_filter c' = zratio_filter c
  /\ edfhdr c' = edfhdr c
  /\ edfparam_0 c' = edfparam_0 c.
Proof.
  intros h Hseen. unfold read_prefilter_step. fold h.
  assert (Hfirst : match done with
                   | [] => true
                   | _ => negb (nonnull (earlier_on_file (edfheaderlist w) done c))
                   end = true).
  { destruct done; [reflexivity|]. rewrite earlier_seen, Hseen. reflexivity. }
  rewrite Hfirst. cbv zeta.
  destruct (_ && _).
  - destruct (fread _ _ _ _) as [[|] w1]; intros H; [|discriminate].
    injection H as <- <-. destruct (_ <? _); repeat split.
  - intros H. injection H as <- <-. repeat split.
Qed.



(** A composition that is not the first on its file is passed over by the
    loop that reads the warm-up records, and keeps the
    [prefilter_starttime] it came with. *)
Lemma read_prefilter_step_shared (done : list signalcompblock)
    (c : signalcompblock) (w : window) :
  seen_file (edfheaderlist w) (map edfhdr done) (edfhdr c) = true ->
  read_prefilter_step done c w = Next (c, w).
Proof.
  intros Hseen. unfold read_prefilter_step.
  destruct done as [|d0 done]; [discriminate|].
  rewrite earlier_seen, Hseen. reflexivity.
Qed.

(** *** The records a page touches *)

(** X2.  The records of the page (lines 568-569 and 702-709) are the ones the
    page needs: the page starts in the first of them and ends before the
    end of the last; from a view time that is not negative no record
    beyond the one the page ends in is taken. *)
Theorem page_records_cover_page (h : edfhdrblock) (pt : Z) :
  sound_header h -> 0 <= pt ->
  let d := long_data_record_duration h in
  let first := first_record h in
  let riv := records_of_page pt (viewtime h) d in
  first * d <= Z.max 0 (viewtime h) < (first + 1) * d
  /\ viewtime h + pt < (first + riv) * d
  /\ (0 <= viewtime h -> (first + riv - 1) * d <= viewtime h + pt).
Proof.
  intros (Hd & _) Hpt d first riv. subst first riv.
  unfold first_record, records_of_page. fold d.
  destruct (Z.leb_spec 0 (viewtime h)) as [Hv|Hv].
  - pose proof (Z.quot_rem' (viewtime h) d) as Hq.
    pose proof (Z.rem_bound_pos (viewtime h) d Hv Hd) as Hr.
    pose proof (Z.quot_rem' (pt + Z.rem (viewtime h) d) d) as Hq2.
    pose proof (Z.rem_bound_pos (pt + Z.rem (viewtime h) d) d ltac:(lia) Hd) as Hr2.
    rewrite Z.max_r by lia. repeat split; try nia.
  - pose proof (Z.rem_bound_pos (- viewtime h) d ltac:(lia) Hd) as Hr.
    pose proof (Z.quot_rem' (pt + Z.rem (- viewtime h) d) d) as Hq2.
    pose proof (Z.rem_bound_pos (pt + Z.rem (- viewtime h) d) d ltac:(lia) Hd) as Hr2.
    rewrite Z.max_l by lia. repeat split; try nia.
Qed.

(** *** How a call ends *)

Lemma went_quietly_refl (w : window) : went_quietly w w.
Proof.
  repeat split. exists []. rewrite app_nil_r. auto.
Qed.

Lemma went_quietly_call (w s s' : window) (e : event) :
  went_quietly w s ->
  events s' = events s ++ [e] -> is_file_call e = true ->
  live_stream_active s' = live_stream_active s -> pagetime s' = pagetime s ->
  went_quietly w s'.
Proof.
  intros ((calls & He & Hc) & Hl & Hp) He' Hf Hl' Hp'.
  split; [|split; congruence].
  exists (calls ++ [e]). rewrite He', He, <- app_assoc. split; [reflexivity|].
  rewrite forallb_app, Hc. cbn. rewrite Hf. reflexivity.
Qed.

Lemma went_quietly_same (w s s' : window) :
  went_quietly w s ->
  events s' = events s -> live_stream_active s' = live_stream_active s ->
  pagetime s' = pagetime s ->
  went_quietly w s'.
Proof.
  intros ((calls & He & Hc) & Hl & Hp) He' Hl' Hp'.
  split; [|split; congruence]. exists calls. rewrite He'. auto.
Qed.

Lemma report_error_reported (w s : window) (m : message) :
  went_quietly w s -> reported w (report_error m s).
Proof.
  intros ((calls & He & Hc) & Hl & Hp). split; [|split].
  - exists calls, m. cbn. rewrite He, <- !app_assoc. auto.
  - reflexivity.
  - left. exact Hp.
Qed.

Lemma clamp_pagetime_reported (w s : window) :
  reported w s -> pagetime s = pagetime w -> reported w (clamp_pagetime s).
Proof.
  intros (He & Hl & _) Hp. unfold clamp_pagetime.
  destruct (Z.ltb_spec TIME_FIXP_SCALING (pagetime s)).
  - split; [exact He|]. split; [exact Hl|]. right. cbn. split; [reflexivity | lia].
  - split; [exact He|]. split; [exact Hl|]. left. exact Hp.
Qed.

Lemma allocate_ends (w s : window) (m : message) (n : Z) :
  went_quietly w s ->
  match allocate m n s with
  | Next s' => went_quietly w s'
  | Return s' => reported w s'
  end.
Proof.
  intros Hs. pose proof Hs as (_ & _ & Hp). unfold ViewBuf.allocate.
  destruct (_ <=? _).
  { apply clamp_pagetime_reported; [apply report_error_reported, Hs | exact Hp]. }
  destruct (malloc_fails n).
  { apply clamp_pagetime_reported; [|exact Hp].
    destruct (report_error_reported w s m Hs) as (He & Hl & Hq).
    split; [exact He|]. split; [exact Hl | exact Hq]. }
  apply (went_quietly_same w s); [exact Hs | reflexivity..].
Qed.

Lemma seek_read_ends (w s : window) (off size hdl pos : Z) :
  went_quietly w s ->
  went_quietly w (fread off size hdl (fseeko hdl pos s)).2.
Proof.
  intros Hs.
  destruct (fseeko_frame hdl pos s) as (E1 & P1 & L1 & _).
  destruct (fread_frame off size hdl (fseeko hdl pos s)) as (E2 & P2 & L2).
  eapply went_quietly_call; [|exact E2 | reflexivity | exact L2 | exact P2].
  eapply went_quietly_call; [exact Hs | exact E1 | reflexivity | exact L1 | exact P1].
Qed.

Lemma memset0_ends (w s : window) (off n : Z) :
  went_quietly w s -> went_quietly w (memset0 off n s).
Proof.
  intros Hs. unfold memset0.
  destruct (store_viewbuf_frame off (replicate (Z.to_nat n) (Byte 0)) s)
    as (E & P & L & _).
  apply (went_quietly_same w s); assumption.
Qed.

Lemma read_view_step_ends (w : window) (done : list signalcompblock)
    (c : signalcompblock) (s : window) :
  went_quietly w s ->
  match read_view_step done c s with
  | Next (_, s') => went_quietly w s'
  | Return (_, s') => reported w s'
  end.
Proof.
  intros Hs. unfold read_view_step.
  set (skip := match done with [] => false | _ => _ end). clearbody skip.
  destruct (_ <=? 0).
  { destruct skip; [exact Hs | apply memset0_ends, Hs]. }
  set (s1 := if _ && negb skip then _ else s).
  assert (H1 : went_quietly w s1).
  { subst s1. destruct (_ && _); [apply memset0_ends, Hs | exact Hs]. }
  clearbody s1. destruct skip; [exact H1|].
  match goal with |- context [fread ?a ?b ?x (fseeko ?x ?y s1)] =>
    pose proof (seek_read_ends w s1 a b x y H1) as Hr;
    destruct (fread a b x (fseeko x y s1)) as [ok s2] end.
  cbn [snd] in Hr. destruct ok; [exact Hr | apply report_error_reported, Hr].
Qed.

Lemma read_prefilter_step_ends (w : window) (done : list signalcompblock)
    (c : signalcompblock) (s : window) :
  went_quietly w s ->
  match read_prefilter_step done c s with
  | Next (_, s') => went_quietly w s'
  | Return (_, s') => reported w s'
  end.
Proof.
  intros Hs. unfold read_prefilter_step.
  destruct (match done with [] => true | _ => _ end); [|exact Hs].
  destruct (_ && _); [|exact Hs].
  match goal with |- context [fread ?a ?b ?x (fseeko ?x ?y s)] =>
    pose proof (seek_read_ends w s a b x y Hs) as Hr;
    destruct (fread a b x (fseeko x y s)) as [ok s2] end.
  cbn [snd] in Hr. destruct ok; [exact Hr | apply report_error_reported, Hr].
Qed.

Lemma free_viewbuf_ends (w s : window) :
  went_quietly w s -> went_quietly w (free_viewbuf s).
Proof.
  intros Hs. destruct (free_viewbuf_fields s) as (_ & _ & _ & _ & E & P & L).
  apply (went_quietly_same w s); assumption.
Qed.

Lemma materialize_ends (w s : window) :
  went_quietly w s ->
  match materialize s with
  | Next s' => went_quietly w s'
  | Return s' => reported w s'
  end.
Proof.
  intros Hs. unfold ViewBuf.materialize.
  destruct (for_comps _ _ _ _) as [comps totalsize].
  set (s1 := free_viewbuf (set_signalcomp comps s)).
  assert (H1 : went_quietly w s1).
  { apply free_viewbuf_ends. apply (went_quietly_same w s); auto. }
  clearbody s1.
  assert (H2 : match (if totalsize =? 0 then Next s1
                      else allocate msg_alloc_resources totalsize s1) with
               | Next s' => went_quietly w s'
               | Return s' => reported w s'
               end).
  { destruct (_ =? 0); [exact H1 | apply allocate_ends, H1]. }
  destruct (if totalsize =? 0 then _ else _) as [s2|s2]; cbn [and_then id];
    [|exact H2].
  pose proof (for_comps_return_inv2 (went_quietly w) (reported w)
                read_view_step [] (signalcomp s2) s2
                (read_view_step_ends w) H2) as H3.
  destruct (for_comps_return _ _ _ _) as [[cs s3]|[cs s3]]; cbn; exact H3.
Qed.

Lemma warm_up_ends (w s : window) (pre_time : double) :
  went_quietly w s ->
  match warm_up pre_time s with
  | Next s' => went_quietly w s'
  | Return s' => reported w s'
  end.
Proof.
  intros Hs. unfold ViewBuf.warm_up.
  destruct (for_comps _ _ _ _) as [comps totalsize].
  match goal with |- context [free_viewbuf ?x] =>
    set (s1 := free_viewbuf x);
    assert (H1 : went_quietly w s1)
      by (apply free_viewbuf_ends; apply (went_quietly_same w s); auto)
  end.
  clearbody s1.
  pose proof (allocate_ends w s1 msg_alloc_prefilterbuf totalsize H1) as H2.
  destruct (allocate _ _ _) as [s2|s2]; cbn [and_then id]; [|exact H2].
  pose proof (for_comps_return_inv2 (went_quietly w) (reported w)
                read_prefilter_step [] (signalcomp s2) s2
                (read_prefilter_step_ends w) H2) as H3.
  destruct (for_comps_return _ _ _ _) as [[cs s3]|[cs s3]]; cbn.
  - destruct (for_comps _ _ _ _) as [cs' d]. exact H3.
  - exact H3.
Qed.

(** X1.  [setup_viewbuf] ends in one of two ways.  When it reaches the end
    of the second phase it has only called [fseeko] and [fread]: no dialog
    was shown, [remove_all_signals] was not called, and
    [live_stream_active] and the page time are unchanged.  When it returns
    before, its last two calls are one dialog and [remove_all_signals],
    [live_stream_active] is cleared, and the page time is unchanged or
    was above one second and is now one second: it never returns early
    without telling the user. *)
Theorem setup_viewbuf_ends_quietly_or_reports (w : window) :
  match setup_viewbuf w with
  | Next w' => went_quietly w w'
  | Return w' => reported w w'
  end.
Proof.
  unfold ViewBuf.setup_viewbuf.
  destruct (pre_time_loop _) as [comps [pre_time hasprefilter]].
  set (w0 := set_signalcomp comps _).
  assert (H0 : went_quietly w w0)
    by (apply (went_quietly_same w w); [apply went_quietly_refl | reflexivity..]).
  clearbody w0.
  assert (H1 : match (if hasprefilter then warm_up pre_time w0 else Next w0) with
               | Next s' => went_quietly w s'
               | Return s' => reported w s'
               end).
  { destruct hasprefilter; [apply warm_up_ends, H0 | exact H0]. }
  destruct (if hasprefilter then _ else _) as [w1|w1]; cbn [and_then id].
  - apply materialize_ends, H1.
  - exact H1.
Qed.

(** *** The parts of the buffer *)

(** The second planning loop gives every composition the bytes of its
    records, counted with the record size of the first composition on the
    file. *)
Lemma plan_view_loop_sizes (hdrs : list edfhdrblock) (pt : Z)
    (todo done : list signalcompblock) (total : Z) :
  let sized L c :=
    exists l, In l L
              /\ file_hdl (hdr_of hdrs l) = file_hdl (hdr_of hdrs c)
              /\ plan_of c = plan_of l
              /\ viewbufsize l = records_in_viewbuf l * recordsize (hdr_of hdrs l) in
  (forall c, In c done -> sized done c) ->
  forall c, In c (for_comps (plan_view_step hdrs pt) done todo total).1 ->
            sized (for_comps (plan_view_step hdrs pt) done todo total).1 c.
Proof.
  intros sized. revert done total.
  induction todo as [|c todo IH]; intros done total Hinv; cbn [for_comps];
    [exact Hinv|].
  destruct (plan_view_step hdrs pt done c total) as [c' total'] eqn:E.
  apply IH. intros x Hx.
  assert (Hmono : forall y, sized done y -> sized (done ++ [c']) y).
  { intros y (l & Hl & Hrest). exists l. split; [|exact Hrest].
    apply in_or_app. left. exact Hl. }
  assert (Hlast : In c' (done ++ [c'])) by (apply in_or_app; right; left; reflexivity).
  apply in_app_or in Hx as [Hx|[<-|[]]]; [apply Hmono, Hinv, Hx|].
  unfold plan_view_step in E. destruct (time_offset _ _ _) as [toff tpart].
  destruct done as [|d0 done0].
  - injection E as <- _. eexists. split; [exact Hlast|].
    split; [reflexivity|]. split; reflexivity.
  - destruct (earlier_on_file hdrs (d0 :: done0) c) as [e|] eqn:Ee.
    + injection E as <- _. apply find_some in Ee as [He1 He2].
      unfold shares_file in He2. apply Z.eqb_eq in He2.
      destruct (Hmono e (Hinv e He1)) as (l & Hl0 & Hl1 & Hl2 & Hl3).
      exists l. split; [exact Hl0|]. split; [|split; [|exact Hl3]].
      * change (hdr_of hdrs (set_view_plan _ _ _ _ _ _ _ c)) with (hdr_of hdrs c).
        congruence.
      * rewrite <- Hl2. reflexivity.
    + injection E as <- _. eexists. split; [exact Hlast|].
      split; [reflexivity|]. split; reflexivity.
Qed.

(** Every composition of the plan has a first composition on its file, on
    the same header and with the same part of the buffer. *)
Lemma own_leader (w : window) (i : nat) (c0 : signalcompblock) :
  sound_page w -> handles_distinct (edfheaderlist w) ->
  planned w !! i = Some c0 ->
  let hdrs := edfheaderlist w in
  exists k l,
    planned w !! k = Some l
    /\ seen_file hdrs (map edfhdr (take k (planned w))) (edfhdr l) = false
    /\ edfhdr l = edfhdr c0
    /\ plan_of l = plan_of c0.
Proof.
  intros Hs Hd Hi hdrs.
  destruct (first_on_file_exists hdrs (planned w) i c0 Hi)
    as (k & l & Hk & Hf & Hfirst).
  pose proof (planned_sound w Hs) as Hsound. fold hdrs in Hsound.
  pose proof (Forall_lookup_1 _ _ _ _ Hsound Hk) as Sl.
  pose proof (Forall_lookup_1 _ _ _ _ Hsound Hi) as Sc. cbv beta in Sl, Sc.
  exists k, l. repeat split; [exact Hk | exact Hfirst | |].
  - apply (Hd _ _ _ _ (sound_is_listed hdrs l Sl) (sound_is_listed hdrs c0 Sc) Hf).
  - apply (planned_shared w);
      [apply list_elem_of_In; eapply list_elem_of_lookup_2; exact Hk
      |apply list_elem_of_In; eapply list_elem_of_lookup_2; exact Hi
      |exact Hf].
Qed.

Lemma leader_extent (hdrs : list edfhdrblock) (pt : Z)
    (cs : list signalcompblock) (k : nat) (l : signalcompblock) :
  0 <= pt ->
  Forall (fun c => sound_header (hdr_of hdrs c)) cs ->
  laid_out hdrs pt [] 0 cs ->
  cs !! k = Some l ->
  seen_file hdrs (map edfhdr (take k cs)) (edfhdr l) = false ->
  0 <= viewbufoffset l
  /\ 0 <= records_in_viewbuf l * recordsize (hdr_of hdrs l)
  /\ viewbufoffset l + records_in_viewbuf l * recordsize (hdr_of hdrs l)
     <= bytes_from hdrs [] cs.
Proof.
  intros Hpt Hs Hl Hk Hseen.
  pose proof (take_drop_middle cs k l Hk) as Hcs.
  assert (Hs1 : Forall (fun c => sound_header (hdr_of hdrs c)) (take k cs))
    by (apply Forall_take, Hs).
  assert (Hs2 : Forall (fun c => sound_header (hdr_of hdrs c)) (drop (S k) cs))
    by (apply Forall_drop, Hs).
  pose proof (Forall_lookup_1 _ _ _ _ Hs Hk) as (Hd & Hrs & _).
  rewrite <- Hcs in Hl. rewrite <- Hcs at 1.
  apply laid_out_app in Hl as [L1 L2].
  rewrite bytes_from_app. cbn [app laid_out bytes_from] in *.
  rewrite Hseen in *. destruct L2 as (Ho & Hriv & L2).
  pose proof (bytes_from_nonneg hdrs pt _ _ _ Hpt Hs1 L1) as N1.
  pose proof (bytes_from_nonneg hdrs pt _ _ _ Hpt Hs2 L2) as N2.
  pose proof (records_of_page_pos pt (viewtime (hdr_of hdrs l)) _ Hpt Hd) as Hp.
  split; [lia|]. split; [nia | lia].
Qed.

(** X3.  In a completed frame every composition points inside the buffer:
    its offset is not negative, its size is that of its records, and
    offset plus size is at most the length of the buffer; and no byte of
    the buffer is left as [malloc] delivered it. *)
Theorem parts_inside_buffer (w w' : window) (i : nat) (c : signalcompblock) :
  sound_page w -> handles_distinct (edfheaderlist w) ->
  materialize w = Next w' ->
  signalcomp w' !! i = Some c ->
  let h := hdr_of (edfheaderlist w) c in
  0 <= viewbufoffset c
  /\ 0 <= viewbufsize c
  /\ viewbufsize c = records_in_viewbuf c * recordsize h
  /\ viewbufoffset c + viewbufsize c <= Z.of_nat (length (buffer_of w'))
  /\ Forall (fun x => is_stored x = true) (buffer_of w').
Proof.
  intros Hs Hd Hw Hi h. subst h.
  destruct (materialize_next w w' Hs Hw) as (Hr & Hc & Hb & _).
  set (hdrs := edfheaderlist w) in *.
  rewrite Hc in Hi. apply finished_lookup in Hi as (c0 & Hi & ->).
  change (hdr_of hdrs (finish hdrs c0)) with (hdr_of hdrs c0).
  change (viewbufoffset (finish hdrs c0)) with (viewbufoffset c0).
  change (viewbufsize (finish hdrs c0)) with (viewbufsize c0).
  change (records_in_viewbuf (finish hdrs c0)) with (records_in_viewbuf c0).
  destruct (own_leader w i c0 Hs Hd Hi) as (k & l & Hk & Hfirst & He & Hplan).
  fold hdrs in Hfirst.
  pose proof (planned_sound w Hs) as Hsound. fold hdrs in Hsound.
  destruct (planned_laid_out w) as (Hl & Hbytes). fold hdrs in Hl, Hbytes.
  destruct (leader_extent hdrs (pagetime w) (planned w) k l (proj1 Hs) Hsound Hl
              Hk Hfirst) as (E1 & E2 & E3).
  assert (Hh : hdr_of hdrs l = hdr_of hdrs c0)
    by (unfold hdr_of; rewrite He; reflexivity).
  assert (I0 : In c0 (planned w))
    by (apply list_elem_of_In; eapply list_elem_of_lookup_2; exact Hi).
  destruct (plan_view_loop_sizes hdrs (pagetime w) (signalcomp w) [] 0
              ltac:(intros ? []) c0 I0) as (l' & Il' & Hl1 & Hl2 & Hl3).
  apply list_elem_of_In, list_elem_of_lookup in Il' as (k' & Hk').
  pose proof (Forall_lookup_1 _ _ _ _ Hsound Hk') as Sl'.
  pose proof (Forall_lookup_1 _ _ _ _ Hsound Hi) as Sc. cbv beta in Sl', Sc.
  assert (He' : edfhdr l' = edfhdr c0)
    by (apply (Hd _ _ _ _ (sound_is_listed hdrs l' Sl')
                 (sound_is_listed hdrs c0 Sc) Hl1)).
  assert (Hh' : hdr_of hdrs l' = hdr_of hdrs c0)
    by (unfold hdr_of; rewrite He'; reflexivity).
  unfold plan_of in Hplan, Hl2.
  injection Hplan as Po Pr Ps. injection Hl2 as Qo Qr Qs.
  assert (Hsize : viewbufsize c0 = records_in_viewbuf c0 * recordsize (hdr_of hdrs c0))
    by (rewrite Qs, Hl3, <- Qr, Hh'; reflexivity).
  pose proof (page_bytes_length w (files w) Hs Hr) as Hlen. fold hdrs in Hlen.
  rewrite Hb, Hlen, Hbytes, Hsize, <- Po, <- Pr, <- Hh.
  repeat split; first [assumption | apply image_stored | idtac].
Qed.

(** X4.  In a completed frame a composition whose page lies in the
    recording (the last record the page touches is a record of the file)
    has, in its part of the buffer, the bytes of the file from the first
    record of the page on, as many as its records take and nothing else;
    [sample_stop] is the samples of the page plus [sample_start]. *)
Theorem page_inside_recording (w w' : window) (i : nat) (c : signalcompblock) :
  sound_page w -> handles_distinct (edfheaderlist w) ->
  materialize w = Next w' ->
  signalcomp w' !! i = Some c ->
  let hdrs := edfheaderlist w in
  let h := hdr_of hdrs c in
  first_record h + records_in_viewbuf c <= datarecords h ->
  let whole := records_in_viewbuf c * recordsize h in
  part_of hdrs c (buffer_of w')
    = map Byte (file_bytes (files w) (file_hdl h) (read_pos h) whole)
  /\ Z.of_nat (length (file_bytes (files w) (file_hdl h) (read_pos h) whole))
     = whole
  /\ sample_stop c = samples_on_screen c + sample_start c.
Proof.
  intros Hs Hd Hw Hi hdrs h Hin whole. subst whole h hdrs.
  destruct (part_is_region w w' i c Hs Hd Hw Hi)
    as (c0 & Hi0 & -> & Hpart & Hriv & Hread).
  pose proof (Forall_lookup_1 _ _ _ _ (planned_sound w Hs) Hi0) as Sc.
  cbv beta in Sc. destruct Sc as (Hd0 & _).
  set (hdrs := edfheaderlist w) in *.
  change (hdr_of hdrs (finish hdrs c0)) with (hdr_of hdrs c0) in *.
  change (records_in_viewbuf (finish hdrs c0)) with (records_in_viewbuf c0) in *.
  set (h := hdr_of hdrs c0) in *.
  pose proof (records_of_page_pos (pagetime w) (viewtime h) _ (proj1 Hs) Hd0) as Hp.
  rewrite <- Hriv in Hp.
  rewrite Hpart.
  unfold region, readable, read_size in *. fold h in Hread |- *.
  cbn [finish set_sample_stop sample_stop sample_start samples_on_screen].
  unfold last_sample. fold h. unfold records_left in *.
  destruct (Z.leb_spec (datarecords h - first_record h) 0); [lia|].
  destruct (Z.ltb_spec (datarecords h - first_record h) (records_in_viewbuf c0));
    [lia|].
  cbn [orb] in Hread. apply andb_prop in Hread as [_ Hlen].
  apply Z.eqb_eq in Hlen.
  rewrite Z.sub_diag. cbn [Z.to_nat replicate]. rewrite app_nil_r.
  repeat split. exact Hlen.
Qed.

(** *** Where the page is read *)

Lemma calls_in_records (hdrs : list edfhdrblock) (fs : gmap Z stream) (pt : Z)
    (cs : list signalcompblock) (seen : list nat) (total : Z) :
  0 <= pt ->
  Forall (fun c => sound_header (hdr_of hdrs c)) cs ->
  laid_out hdrs pt seen total cs ->
  all_readable hdrs fs seen cs = true ->
  reads_in_records hdrs (calls_from hdrs seen cs).
Proof.
  intros Hpt Hs. revert seen total.
  induction Hs as [|c cs Hc _ IH]; intros seen total Hl Hr;
    cbn [laid_out all_readable calls_from] in *; [exact I|].
  apply andb_prop in Hr as [Hr1 Hr2].
  destruct (seen_file hdrs seen (edfhdr c)); cbn [orb app].
  - apply (IH _ _ Hl Hr2).
  - destruct Hl as (_ & Hriv & Hl). cbn [orb] in Hr1.
    destruct (Z.leb_spec (records_left (hdr_of hdrs c)) 0) as [Hrl|Hrl];
      cbn [app]; [apply (IH _ _ Hl Hr2)|].
    cbn [reads_in_records]. split; [reflexivity|]. split; [reflexivity|].
    split; [|apply (IH _ _ Hl Hr2)].
    exists (hdr_of hdrs c).
    pose proof Hc as (Hd & Hrs & Hhs).
    pose proof (records_of_page_pos pt (viewtime (hdr_of hdrs c)) _ Hpt Hd) as Hp.
    pose proof (first_record_nonneg (hdr_of hdrs c) Hd) as Hf.
    unfold readable in Hr1.
    destruct (Z.leb_spec (records_left (hdr_of hdrs c)) 0); [lia|].
    cbn [orb] in Hr1. apply andb_prop in Hr1 as [Hpos _].
    apply Z.ltb_lt in Hpos.
    split; [eapply list_elem_of_lookup_2, sound_is_listed, Hc|].
    split; [reflexivity|]. unfold read_pos, read_size, records_left in *.
    split; [nia|]. split; [exact Hpos|].
    destruct (Z.ltb_spec (datarecords (hdr_of hdrs c) - first_record (hdr_of hdrs c))
                (records_in_viewbuf c)); nia.
Qed.

(** What a completed second phase asks of the files: pairs of a seek
    and a read that delivers, on the same stream, each read lying in the
    data records of its file (not in the header, not past the last
    record). *)
Lemma page_reads_in_records (w w' : window) :
  sound_page w -> materialize w = Next w' ->
  reads_in_records (edfheaderlist w) (new_calls w w').
Proof.
  intros Hs Hw.
  destruct (materialize_next w w' Hs Hw) as (Hr & _ & _ & ->).
  destruct (planned_laid_out w) as (Hl & _).
  exact (calls_in_records _ (files w) (pagetime w) _ [] 0 (proj1 Hs)
           (planned_sound w Hs) Hl Hr).
Qed.

(** *** What the function does to the headers *)

Lemma set_prefiltertime_twice (a b : Z) (h : edfhdrblock) :
  set_prefiltertime a (set_prefiltertime b h) = set_prefiltertime a h.
Proof. reflexivity. Qed.

Lemma clamp_prefiltertime_le (pre_time : double) (viewtime : Z) :
  clamp_prefiltertime pre_time viewtime <= Z.max 0 viewtime.
Proof.
  unfold clamp_prefiltertime.
  destruct (Z.ltb_spec viewtime (Dbl.cast_ll (Dbl.mul pre_time (Dbl.of_Z TIME_FIXP_SCALING))));
    [destruct (Z.ltb_spec viewtime 0)|]; lia.
Qed.

Lemma map_insert_same {A B : Type} (f : A -> B) (l : list A) (k : nat) (x : A) :
  (forall y, l !! k = Some y -> f x = f y) ->
  map f (<[k := x]> l) = map f l.
Proof.
  revert k. induction l as [|a l IH]; intros [|k] H; cbn; try reflexivity.
  - rewrite (H a eq_refl). reflexivity.
  - rewrite IH; [reflexivity | exact H].
Qed.

(** The loop of lines 173-186 writes nothing but warm-up times, none of
    them beyond the view time, and only in headers of compositions with
    filters. *)
Lemma set_prefiltertimes_inv (pre_time : double) (comps : list signalcompblock)
    (hdrs : list edfhdrblock) :
  map (set_prefiltertime 0) (set_prefiltertimes pre_time comps hdrs)
    = map (set_prefiltertime 0) hdrs
  /\ (Forall (fun h => prefiltertime h <= Z.max 0 (viewtime h)) hdrs ->
      Forall (fun h => prefiltertime h <= Z.max 0 (viewtime h))
        (set_prefiltertimes pre_time comps hdrs))
  /\ (forall k,
        Forall (fun c => has_filters c = true -> edfhdr c <> k) comps ->
        set_prefiltertimes pre_time comps hdrs !! k = hdrs !! k).
Proof.
  unfold set_prefiltertimes. revert hdrs.
  induction comps as [|c comps IH]; intros hdrs; cbn [fold_left];
    [repeat split; auto|].
  set (hdrs1 := if has_filters c then _ else hdrs).
  destruct (IH hdrs1) as (I1 & I2 & I3).
  assert (H1 : map (set_prefiltertime 0) hdrs1 = map (set_prefiltertime 0) hdrs).
  { subst hdrs1. destruct (has_filters c); [|reflexivity].
    apply map_insert_same. intros y Hy. unfold hdr_of. rewrite Hy. reflexivity. }
  split; [rewrite I1; exact H1|]. split.
  - intros Hb. apply I2. subst hdrs1. destruct (has_filters c); [|exact Hb].
    destruct (hdrs !! edfhdr c) as [h|] eqn:Eh.
    + apply Forall_insert; [exact Hb|]. unfold hdr_of. rewrite Eh.
      cbn [default set_prefiltertime prefiltertime viewtime].
      apply clamp_prefiltertime_le.
    + rewrite list_insert_ge; [exact Hb|]. apply lookup_ge_None. exact Eh.
  - intros k Hk. inversion Hk as [|? ? Hc Hk']; subst.
    rewrite (I3 k Hk'). subst hdrs1.
    destruct (has_filters c); [|reflexivity].
    apply list_lookup_insert_ne. apply Hc. reflexivity.
Qed.

Lemma pre_time_loop_keeps (comps : list signalcompblock) :
  Forall2 (fun c' c => edfhdr c' = edfhdr c /\ has_filters c' = has_filters c)
    (pre_time_loop comps).1 comps.
Proof.
  unfold pre_time_loop.
  destruct (for_comps_keeps
              (fun c' c => edfhdr c' = edfhdr c /\ has_filters c' = has_filters c)
              (fun _ c acc => let '(acc, c) := pre_time_step acc c in (c, acc))
              [] comps (Dbl.zero, false)) as (cs & -> & H); [|exact H].
  intros _ c [pt has]. unfold pre_time_step. cbn [fst].
  split; [reflexivity|]. unfold has_filters. cbn [set_ravg_filter filter
    spike_filter ravg_filter fidfilter fir_filter plif_ecg_filter
    plif_eeg_filter ecg_filter zratio_filter].
  destruct (ravg_filter c); reflexivity.
Qed.

Lemma setup_viewbuf_final_headers (w : window) :
  edfheaderlist (final (setup_viewbuf w))
  = let '(comps, (pre_time, hasprefilter)) := pre_time_loop (signalcomp w) in
    if hasprefilter
    then set_prefiltertimes pre_time comps
           (map (set_prefiltertime 0) (edfheaderlist w))
    else map (set_prefiltertime 0) (edfheaderlist w).
Proof.
  unfold ViewBuf.setup_viewbuf. cbn [signalcomp set_edfheaderlist].
  destruct (pre_time_loop (signalcomp w)) as [comps [pre_time hasprefilter]].
  rewrite final_and_then.
  set (w0 := set_signalcomp _ _).
  assert (Hw0 : edfheaderlist w0 = map (set_prefiltertime 0) (edfheaderlist w))
    by reflexivity.
  assert (Hc0 : signalcomp w0 = comps) by reflexivity.
  clearbody w0. destruct hasprefilter.
  - pose proof (warm_up_headers pre_time w0) as Hwarm.
    rewrite Hc0, Hw0 in Hwarm.
    destruct (warm_up pre_time w0) as [w1|w1]; cbn [final id] in *.
    + rewrite materialize_headers. exact Hwarm.
    + exact Hwarm.
  - rewrite materialize_headers. exact Hw0.
Qed.

(** X6.  Whatever way [setup_viewbuf] ends, its assignments changed nothing of the
    headers but the warm-up times; no warm-up time is beyond the view
    time (it is at most 0 for a view time before the start of the
    recording), and the warm-up time of a header no composition with
    filters is on is 0. *)
Theorem setup_viewbuf_headers (w : window) :
  let hdrs' := edfheaderlist (final (setup_viewbuf w)) in
  map (set_prefiltertime 0) hdrs' = map (set_prefiltertime 0) (edfheaderlist w)
  /\ Forall (fun h => prefiltertime h <= Z.max 0 (viewtime h)) hdrs'
  /\ forall k h,
       hdrs' !! k = Some h ->
       Forall (fun c => has_filters c = true -> edfhdr c <> k) (signalcomp w) ->
       prefiltertime h = 0.
Proof.
  intros hdrs'. subst hdrs'. rewrite setup_viewbuf_final_headers.
  pose proof (pre_time_loop_keeps (signalcomp w)) as Hk.
  destruct (pre_time_loop (signalcomp w)) as [comps [pre_time hasprefilter]].
  cbn [fst] in Hk.
  set (hdrs0 := map (set_prefiltertime 0) (edfheaderlist w)).
  assert (H0 : map (set_prefiltertime 0) hdrs0
               = map (set_prefiltertime 0) (edfheaderlist w)).
  { subst hdrs0. rewrite map_map. apply map_ext. intros h. reflexivity. }
  assert (B0 : Forall (fun h => prefiltertime h <= Z.max 0 (viewtime h)) hdrs0).
  { subst hdrs0. apply Forall_forall. intros h Hh.
    apply list_elem_of_In, in_map_iff in Hh as (h0 & <- & _). cbn. lia. }
  assert (Z0 : forall k h, hdrs0 !! k = Some h -> prefiltertime h = 0).
  { subst hdrs0. intros k h Hh.
    apply list_elem_of_lookup_2, list_elem_of_In, in_map_iff in Hh
      as (h0 & <- & _). reflexivity. }
  destruct hasprefilter; [|repeat split; [exact H0 | exact B0 | ]].
  - destruct (set_prefiltertimes_inv pre_time comps hdrs0) as (I1 & I2 & I3).
    split; [rewrite I1; exact H0|]. split; [exact (I2 B0)|].
    intros k h Hh Hnone. rewrite I3 in Hh; [exact (Z0 k h Hh)|].
    clear - Hk Hnone. induction Hk as [|c' c cs' cs (He & Hf) _ IH];
      [constructor|].
    inversion Hnone; subst. constructor; [|apply IH; assumption].
    rewrite He, Hf. assumption.
  - intros k h Hh _. exact (Z0 k h Hh).
Qed.

(** *** The warm-up buffer *)

Lemma plan_prefilter_step_plan (hdrs : list edfhdrblock)
    (done : list signalcompblock) (c : signalcompblock) (total : Z) :
  let c' := (plan_prefilter_step hdrs done c total).1 in
  edfhdr c' = edfhdr c
  /\ match done with
     | [] => True
     | _ => forall e, earlier_on_file hdrs done c = Some e -> plan_of c' = plan_of e
     end.
Proof.
  unfold plan_prefilter_step.
  destruct done as [|d done]; [cbn; auto|].
  destruct (earlier_on_file hdrs (d :: done) c) as [e|]; cbn [fst]; split;
    try reflexivity; intros e' He; [|discriminate].
  injection He as <-. reflexivity.
Qed.

(** X5.  The first planning loop (lines 190-238) gives the compositions on
    one open file the same offset, records and bytes of the warm-up
    buffer. *)
Theorem warmup_plan_shared (hdrs : list edfhdrblock)
    (comps : list signalcompblock) (c1 c2 : signalcompblock) :
  In c1 (for_comps (plan_prefilter_step hdrs) [] comps 0).1 ->
  In c2 (for_comps (plan_prefilter_step hdrs) [] comps 0).1 ->
  file_hdl (hdr_of hdrs c1) = file_hdl (hdr_of hdrs c2) ->
  plan_of c1 = plan_of c2.
Proof.
  assert (H : forall todo done total,
             (forall c1 c2, In c1 done -> In c2 done ->
                file_hdl (hdr_of hdrs c1) = file_hdl (hdr_of hdrs c2) ->
                plan_of c1 = plan_of c2) ->
             forall c1 c2,
               In c1 (for_comps (plan_prefilter_step hdrs) done todo total).1 ->
               In c2 (for_comps (plan_prefilter_step hdrs) done todo total).1 ->
               file_hdl (hdr_of hdrs c1) = file_hdl (hdr_of hdrs c2) ->
               plan_of c1 = plan_of c2).
  { induction todo as [|c todo IH]; intros done total Hinv; cbn [for_comps];
      [exact Hinv|].
    pose proof (plan_prefilter_step_plan hdrs done c total) as (He & Hp).
    destruct (plan_prefilter_step hdrs done c total) as [c' total'].
    cbn [fst] in *. apply IH. clear IH.
    assert (Hnew : forall d, In d done ->
              file_hdl (hdr_of hdrs c') = file_hdl (hdr_of hdrs d) ->
              plan_of c' = plan_of d).
    { intros d Hd Hf. destruct done as [|d0 done0]; [destruct Hd|].
      assert (Hh : hdr_of hdrs c' = hdr_of hdrs c)
        by (unfold hdr_of; rewrite He; reflexivity).
      destruct (earlier_on_file hdrs (d0 :: done0) c) as [e|] eqn:E.
      - rewrite (Hp e eq_refl). apply find_some in E as [He1 He2].
        apply Hinv; [exact He1 | exact Hd|].
        unfold shares_file in He2. apply Z.eqb_eq in He2. congruence.
      - pose proof (find_none _ _ E d Hd) as Hn. unfold shares_file in Hn.
        apply Z.eqb_neq in Hn. congruence. }
    intros x y H1 H2 Hf.
    apply in_app_or in H1 as [H1|[<-|[]]], H2 as [H2|[<-|[]]].
    - apply Hinv; assumption.
    - symmetry. apply Hnew; [assumption | congruence].
    - apply Hnew; assumption.
    - reflexivity. }
  apply H. intros ? ? [].
Qed.

(** X7.  For the first composition on a file with a warm-up time that is
    positive and not beyond the view time, the records of the warm-up
    buffer (lines 192 and 287-289) are the ones between the start of the
    warm-up and the view time: the buffer starts on the record the
    warm-up starts in, and its last record is the one the view time is
    in. *)
Theorem warmup_records_cover (done done' : list signalcompblock)
    (c c2 : signalcompblock) (total : Z) (w w' : window) :
  let hdrs := edfheaderlist w in
  let h := hdr_of hdrs c in
  let d := long_data_record_duration h in
  0 < d -> 0 < prefiltertime h <= viewtime h ->
  seen_file hdrs (map edfhdr done) (edfhdr c) = false ->
  seen_file hdrs (map edfhdr done') (edfhdr c) = false ->
  read_prefilter_step done' (plan_prefilter_step hdrs done c total).1 w
    = Next (c2, w') ->
  prefilter_starttime c2 <= viewtime h - prefiltertime h < prefilter_starttime c2 + d
  /\ prefilter_starttime c2 + (records_in_viewbuf c2 - 1) * d <= viewtime h
  /\ viewtime h < prefilter_starttime c2 + records_in_viewbuf c2 * d.
Proof.
  intros hdrs h d Hd Hp Hseen Hseen' Hread.
  set (c1 := (plan_prefilter_step hdrs done c total).1) in *.
  assert (He : edfhdr c1 = edfhdr c)
    by apply (proj1 (plan_prefilter_step_plan hdrs done c total)).
  assert (Hh : hdr_of hdrs c1 = h) by (unfold hdr_of; rewrite He; reflexivity).
  assert (Hriv : records_in_viewbuf c1
                 = Z.quot (viewtime h) d - Z.quot (viewtime h - prefiltertime h) d + 1).
  { subst c1. unfold plan_prefilter_step. fold h d.
    destruct (Z.eqb_spec (prefiltertime h) 0); [lia|].
    destruct done as [|d0 done0]; [reflexivity|].
    rewrite <- earlier_seen in Hseen.
    destruct (earlier_on_file hdrs (d0 :: done0) c); [discriminate | reflexivity]. }
  rewrite <- He in Hseen'.
  destruct (read_prefilter_step_first done' c1 c2 w w' Hseen' Hread)
    as (Hstart & _). fold hdrs in Hstart. rewrite Hh in Hstart. fold d in Hstart.
  assert (Hriv2 : records_in_viewbuf c2 = records_in_viewbuf c1).
  { clear - Hread. unfold read_prefilter_step in Hread.
    destruct (match done' with [] => true | _ => _ end);
      [|injection Hread as <- _; reflexivity].
    destruct (_ && _); [|injection Hread as <- _; reflexivity].
    destruct (fread _ _ _ _) as [[|] w1]; [|discriminate].
    injection Hread as <- _. destruct (_ <? _); reflexivity. }
  rewrite Hriv2, Hriv, Hstart.
  pose proof (Z.quot_rem' (viewtime h) d) as Q1.
  pose proof (Z.rem_bound_pos (viewtime h) d ltac:(lia) Hd) as R1.
  pose proof (Z.quot_rem' (viewtime h - prefiltertime h) d) as Q2.
  pose proof (Z.rem_bound_pos (viewtime h - prefiltertime h) d ltac:(lia) Hd) as R2.
  repeat split; nia.
Qed.

(** *** What the function does to the compositions *)

Lemma for_comps_map {S B : Type} (g : signalcompblock -> B)
    (body : list signalcompblock -> signalcompblock -> S -> signalcompblock * S)
    (done todo : list signalcompblock) (s : S) :
  (forall done c s, g (body done c s).1 = g c) ->
  map g (for_comps body done todo s).1 = map g done ++ map g todo.
Proof.
  intros Hb. revert done s. induction todo as [|c todo IH]; intros done s;
    cbn [for_comps map].
  - rewrite app_nil_r. reflexivity.
  - specialize (Hb done c s). destruct (body done c s) as [c' s'].
    cbn [fst] in Hb. rewrite IH, map_app, <- app_assoc. cbn [map app].
    rewrite Hb. reflexivity.
Qed.

Lemma for_comps_return_map {S B : Type} (g : signalcompblock -> B)
    (body : list signalcompblock -> signalcompblock -> S
            -> flow (signalcompblock * S))
    (done todo : list signalcompblock) (s : S) :
  (forall done c s, g (final (body done c s)).1 = g c) ->
  map g (final (for_comps_return body done todo s)).1 = map g done ++ map g todo.
Proof.
  intros Hb. revert done s. induction todo as [|c todo IH]; intros done s;
    cbn [for_comps_return map].
  - cbn. rewrite app_nil_r. reflexivity.
  - specialize (Hb done c s). destruct (body done c s) as [[c' s']|[c' s']];
      cbn [final fst] in Hb.
    + rewrite IH, map_app, <- app_assoc. cbn [map app]. rewrite Hb. reflexivity.
    + cbn [final fst]. rewrite map_app. cbn [map]. rewrite Hb. reflexivity.
Qed.

Lemma front_stage_signal (w : window) (c : signalcompblock) (d_temp : double)
    (s : Z) :
  signal_of (front_stage w c d_temp s).1.2 = signal_of c.
Proof.
  unfold front_stage.
  destruct (fold_left _ _ _) as [dig dt].
  destruct (run_opt run_spike_filter _ _) as [v1 sp].
  destruct (run_chain MathFunc.run_math_func (math_func_before c) _) as [v2 mb].
  destruct (run_chain first_order_filter _ _) as [v3 fo].
  destruct (run_chain run_ravg_filter _ _) as [v4 ra].
  destruct (run_chain run_fidfilter _ _) as [v5 fi].
  destruct (run_chain run_fir_filter _ _) as [v6 fr].
  destruct (run_chain MathFunc.run_math_func (math_func_after c) _) as [v7 ma].
  destruct (run_opt plif_ecg_run_subtract_filter _ _) as [v8 pe].
  destruct (run_opt plif_eeg_run_subtract_filter _ _) as [v9 pg].
  reflexivity.
Qed.

Lemma warmup_sample_signal (w : window) (acc : signalcompblock * double) (s : Z) :
  signal_of (warmup_sample w acc s).1 = signal_of acc.1.
Proof.
  destruct acc as [c d]. unfold warmup_sample.
  pose proof (front_stage_signal w c d s) as H.
  destruct (front_stage w c d s) as [[v c1] d1]. cbn [fst snd] in H.
  unfold ecg_stage, zratio_stage.
  destruct (ecg_filter c1) as [e|].
  - destruct (run_ecg_filter v _) as [v1 e1].
    cbn [set_ecg_filter zratio_filter prefilter_reset_sample].
    destruct (zratio_filter c1) as [z|].
    + destruct (ZRatio.run_zratio_filter _ _ _ _) as [v2 z2]. exact H.
    + exact H.
  - destruct (zratio_filter c1) as [z|].
    + destruct (ZRatio.run_zratio_filter _ _ _ _) as [v2 z2]. exact H.
    + exact H.
Qed.

Lemma warmup_comp_signal (w : window) (c : signalcompblock) (d_temp : double) :
  signal_of (warmup_comp w c d_temp).1 = signal_of c.
Proof.
  unfold warmup_comp. destruct (has_filters c); [|reflexivity].
  generalize (upto (samples_in_prefilterbuf c)) as l.
  change c with (c, d_temp).1 at 2. generalize (c, d_temp) as acc.
  intros acc l. revert acc. induction l as [|s l IH]; intros acc; cbn [fold_left].
  - reflexivity.
  - rewrite IH. apply warmup_sample_signal.
Qed.

Lemma read_prefilter_step_signal (done : list signalcompblock)
    (c : signalcompblock) (w : window) :
  signal_of (final (read_prefilter_step done c w)).1 = signal_of c.
Proof.
  unfold read_prefilter_step.
  destruct (match done with [] => true | _ => _ end); [|reflexivity].
  destruct (_ && _); [|reflexivity].
  destruct (fread _ _ _ _) as [[|] w1]; cbn [final fst];
    destruct (_ <? _); reflexivity.
Qed.

Lemma read_view_step_signal (done : list signalcompblock)
    (c : signalcompblock) (w : window) :
  signal_of (final (read_view_step done c w)).1 = signal_of c.
Proof.
  unfold read_view_step.
  set (skip := match done with [] => false | _ => _ end). clearbody skip.
  destruct (_ <=? 0); [reflexivity|].
  destruct skip; [destruct (_ <? _); reflexivity|].
  destruct (fread _ _ _ _) as [[|] w1]; cbn [final fst];
    destruct (_ <? _); reflexivity.
Qed.

Lemma allocate_signals (m : message) (n : Z) (w : window) :
  signalcomp (final (allocate m n w)) = signalcomp w.
Proof.
  unfold ViewBuf.allocate, clamp_pagetime.
  destruct (_ <=? _); [cbn; destruct (_ <? _); reflexivity|].
  destruct (malloc_fails n); [cbn; destruct (_ <? _); reflexivity | reflexivity].
Qed.

Lemma free_viewbuf_signals (w : window) :
  signalcomp (free_viewbuf w) = signalcomp w.
Proof. apply (free_viewbuf_fields w). Qed.

Lemma materialize_signals (w : window) :
  map signal_of (signalcomp (final (materialize w))) = map signal_of (signalcomp w).
Proof.
  unfold ViewBuf.materialize.
  pose proof (for_comps_map signal_of (plan_view_step (edfheaderlist w) (pagetime w))
                [] (signalcomp w) 0) as Hplan.
  destruct (for_comps _ _ _ _) as [comps totalsize]. cbn [fst app map] in Hplan.
  rewrite <- Hplan.
  2: { intros done c s. unfold plan_view_step.
       destruct (time_offset _ _ _) as [toff tpart].
       destruct done; [|destruct (earlier_on_file _ _ _)]; reflexivity. }
  set (w1 := free_viewbuf (set_signalcomp comps w)).
  assert (H1 : signalcomp w1 = comps) by apply free_viewbuf_signals.
  clearbody w1. rewrite final_and_then.
  assert (H2 : signalcomp (final (if totalsize =? 0 then Next w1
                                  else allocate msg_alloc_resources totalsize w1))
               = comps).
  { destruct (_ =? 0); [exact H1 | rewrite allocate_signals; exact H1]. }
  destruct (if totalsize =? 0 then _ else _) as [w2|w2]; cbn [final id] in *;
    [|rewrite H2; reflexivity].
  rewrite final_and_then.
  pose proof (for_comps_return_map signal_of read_view_step [] (signalcomp w2) w2
                read_view_step_signal) as H3.
  rewrite H2 in H3 |- *. cbn [map app] in H3.
  destruct (for_comps_return _ _ _ _) as [[cs w3]|[cs w3]]; cbn in *; exact H3.
Qed.

Lemma warm_up_signals (pre_time : double) (w : window) :
  map signal_of (signalcomp (final (warm_up pre_time w)))
  = map signal_of (signalcomp w).
Proof.
  unfold ViewBuf.warm_up. cbn [signalcomp set_edfheaderlist edfheaderlist].
  match goal with |- context [for_comps (plan_prefilter_step ?h) [] ?l 0] =>
    pose proof (for_comps_map signal_of (plan_prefilter_step h) [] l 0) as Hplan;
    destruct (for_comps (plan_prefilter_step h) [] l 0) as [comps totalsize]
  end.
  cbn [fst app map] in Hplan. rewrite <- Hplan.
  2: { intros done c s. unfold plan_prefilter_step.
       destruct done; [|destruct (earlier_on_file _ _ _)]; reflexivity. }
  match goal with |- context [free_viewbuf ?x] =>
    set (w1 := free_viewbuf x);
    assert (H1 : signalcomp w1 = comps) by apply free_viewbuf_signals
  end.
  clearbody w1. rewrite final_and_then.
  pose proof (allocate_signals msg_alloc_prefilterbuf totalsize w1) as H2.
  rewrite H1 in H2.
  destruct (allocate _ _ _) as [w2|w2]; cbn [final id] in *;
    [|rewrite H2; reflexivity].
  rewrite final_and_then.
  pose proof (for_comps_return_map signal_of read_prefilter_step [] (signalcomp w2)
                w2 read_prefilter_step_signal) as H3.
  rewrite H2 in H3 |- *. cbn [map app] in H3.
  destruct (for_comps_return _ _ _ _) as [[cs w3]|[cs w3]]; cbn [final fst] in *;
    [|exact H3].
  pose proof (for_comps_map signal_of (fun _ => warmup_comp w3) []
                (map (reset_sample_step (edfheaderlist w3)) cs) Dbl.zero) as H4.
  destruct (for_comps _ _ _ _) as [cs' d]. cbn [fst app map final signalcomp
    set_signalcomp] in *.
  rewrite map_map.
  rewrite (map_ext (fun c => signal_of (save_step c)) signal_of).
  2: { intros c. unfold save_step. destruct (_ <? _); reflexivity. }
  rewrite H4 by (intros; apply warmup_comp_signal).
  rewrite map_map, <- H3. apply map_ext. intros c. unfold reset_sample_step.
  destruct (nonnull _); reflexivity.
Qed.

(** [setup_viewbuf] itself assigns no composition its header, signals or
    factors, whatever way it ends. *)
Lemma setup_viewbuf_signals (w : window) :
  map signal_of (signalcomp (final (setup_viewbuf w)))
  = map signal_of (signalcomp w).
Proof.
  unfold ViewBuf.setup_viewbuf. cbn [signalcomp set_edfheaderlist].
  pose proof (for_comps_map signal_of
                (fun _ c acc => let '(acc, c) := pre_time_step acc c in (c, acc))
                [] (signalcomp w) (Dbl.zero, false)) as H0.
  fold (pre_time_loop (signalcomp w)) in H0.
  destruct (pre_time_loop (signalcomp w)) as [comps [pre_time hasprefilter]].
  cbn [fst app map] in H0. rewrite <- H0.
  2: { intros done c [pt has]. unfold pre_time_step. reflexivity. }
  rewrite final_and_then.
  set (w0 := set_signalcomp comps _).
  assert (Hc0 : signalcomp w0 = comps) by reflexivity. clearbody w0.
  destruct hasprefilter.
  - pose proof (warm_up_signals pre_time w0) as H1. rewrite Hc0 in H1.
    destruct (warm_up pre_time w0) as [w1|w1]; cbn [final id] in *;
      [|exact H1].
    rewrite materialize_signals. exact H1.
  - rewrite materialize_signals, Hc0. reflexivity.
Qed.

(** X8.  After a call of [setup_viewbuf] that is completed the compositions
    are the ones it was called with, as many and in the same order, each on
    the header, the signals and the factors it had: the function plans,
    reads and runs filters, and moves no trace to another signal or file. *)
Theorem setup_viewbuf_keeps_signals (w w' : window) :
  setup_viewbuf w = Next w' ->
  map signal_of (signalcomp w') = map signal_of (signalcomp w).
Proof.
  intros H. pose proof (setup_viewbuf_signals w) as K.
  rewrite H in K. exact K.
Qed.

(** *** Where the files are read *)

Lemma reads_in_records_app (hdrs : list edfhdrblock) (l1 l2 : list event) :
  reads_in_records hdrs l1 -> reads_in_records hdrs l2 ->
  reads_in_records hdrs (l1 ++ l2).
Proof.
  remember (length l1) as n eqn:Hn. revert l1 Hn.
  induction (lt_wf n) as [n _ IH]. intros l1 Hn H1 H2.
  destruct l1 as [|e1 l1]; [exact H2|].
  destruct e1; try (simpl in H1; contradiction).
  destruct l1 as [|e2 l1]; [simpl in H1; contradiction|].
  destruct e2; try (simpl in H1; contradiction).
  cbn [app reads_in_records] in *. destruct H1 as (Ha & Hb & Hc & Hd).
  repeat split; try assumption.
  apply (IH (length l1)); [subst n; cbn; lia | reflexivity | exact Hd | exact H2].
Qed.

Lemma fread_ok_pos (off size hdl : Z) (w : window) :
  (fread off size hdl w).1 = true -> 0 < size.
Proof.
  unfold fread. destruct (files w !! hdl); cbn [fst]; [|discriminate].
  intros H. apply andb_prop in H as [H _]. apply Z.ltb_lt, H.
Qed.

Lemma clamp_prefiltertime_in (pre_time : double) (viewtime : Z) :
  clamp_prefiltertime pre_time viewtime = 0
  \/ clamp_prefiltertime pre_time viewtime <= viewtime.
Proof.
  unfold clamp_prefiltertime.
  destruct (Z.ltb_spec viewtime (Dbl.cast_ll (Dbl.mul pre_time (Dbl.of_Z TIME_FIXP_SCALING))));
    [destruct (Z.ltb_spec viewtime 0)|]; lia.
Qed.

Lemma set_prefiltertimes_in (pre_time : double) (comps : list signalcompblock)
    (hdrs : list edfhdrblock) :
  Forall warmup_in_recording hdrs ->
  Forall warmup_in_recording (set_prefiltertimes pre_time comps hdrs).
Proof.
  unfold set_prefiltertimes. revert hdrs.
  induction comps as [|c comps IH]; intros hdrs Hb; cbn [fold_left]; [exact Hb|].
  apply IH. destruct (has_filters c); [|exact Hb].
  destruct (hdrs !! edfhdr c) as [h|] eqn:Eh.
  - apply Forall_insert; [exact Hb|]. unfold hdr_of. rewrite Eh.
    unfold warmup_in_recording.
    cbn [default set_prefiltertime prefiltertime viewtime].
    apply clamp_prefiltertime_in.
  - rewrite list_insert_ge; [exact Hb|]. apply lookup_ge_None. exact Eh.
Qed.

Lemma plan_prefilter_sized (hdrs : list edfhdrblock)
    (todo done : list signalcompblock) (total : Z) :
  exists todo',
    (for_comps (plan_prefilter_step hdrs) done todo total).1 = done ++ todo'
    /\ map edfhdr todo' = map edfhdr todo
    /\ warmup_sized hdrs (map edfhdr done) todo'.
Proof.
  revert done total. induction todo as [|c todo IH]; intros done total.
  - exists []. cbn. rewrite app_nil_r. auto.
  - cbn [for_comps].
    destruct (plan_prefilter_step hdrs done c total) as [c' total'] eqn:E.
    destruct (IH (done ++ [c']) total') as (todo' & H1 & H2 & H3).
    rewrite map_app in H3. cbn [map] in H3.
    exists (c' :: todo'). rewrite H1, <- app_assoc. cbn [app map warmup_sized].
    assert (He : edfhdr c' = edfhdr c)
      by (pose proof (plan_prefilter_step_plan hdrs done c total) as (He & _);
          rewrite E in He; exact He).
    rewrite He, H2. repeat split; [|rewrite <- He; exact H3].
    intros Hseen Hsize Hzero.
    assert (Hh : hdr_of hdrs c' = hdr_of hdrs c)
      by (unfold hdr_of; rewrite He; reflexivity).
    rewrite Hh in Hzero.
    unfold plan_prefilter_step in E. rewrite Hzero in E. cbn [Z.eqb] in E.
    rewrite <- earlier_seen in Hseen.
    destruct done as [|d0 done0].
    + injection E as <- _. cbn in Hsize. lia.
    + destruct (earlier_on_file hdrs (d0 :: done0) c); [discriminate|].
      injection E as <- _. cbn in Hsize. lia.
Qed.

(** One turn of the loop that reads the warm-up records, when it does not
    return. *)
Lemma read_prefilter_step_calls (done : list signalcompblock)
    (c c1 : signalcompblock) (s s1 : window) :
  let hdrs := edfheaderlist s in
  let h := hdr_of hdrs c in
  sound_header h -> warmup_in_recording h ->
  (seen_file hdrs (map edfhdr done) (edfhdr c) = false -> 0 < viewbufsize c ->
   prefiltertime h <> 0) ->
  read_prefilter_step done c s = Next (c1, s1) ->
  exists calls, events s1 = events s ++ calls /\ reads_in_records hdrs calls.
Proof.
  intros hdrs h Hsound Hin Hsz Hstep.
  assert (Hquiet : s1 = s ->
            exists calls, events s1 = events s ++ calls
                          /\ reads_in_records hdrs calls).
  { intros ->. exists []. rewrite app_nil_r. cbn. auto. }
  unfold read_prefilter_step in Hstep. fold hdrs h in Hstep.
  assert (Hfirst : match done with
                   | [] => true
                   | _ => negb (nonnull (earlier_on_file hdrs done c))
                   end = negb (seen_file hdrs (map edfhdr done) (edfhdr c))).
  { destruct done; [reflexivity|]. rewrite earlier_seen. reflexivity. }
  rewrite Hfirst in Hstep.
  destruct (seen_file hdrs (map edfhdr done) (edfhdr c)); cbn [negb] in Hstep;
    [injection Hstep as _ <-; apply Hquiet; reflexivity|].
  cbv zeta in Hstep.
  cbn [set_prefilter_starttime viewbufsize viewbufoffset] in Hstep.
  set (dr := Z.quot (viewtime h - prefiltertime h) (long_data_record_duration h))
    in *.
  destruct ((0 <? viewbufsize c) && (dr <? datarecords h)) eqn:C;
    [|injection Hstep as _ <-; apply Hquiet; reflexivity].
  apply andb_prop in C as [C1 C2]. apply Z.ltb_lt in C1, C2.
  set (pos := hdrsize h + dr * recordsize h) in *.
  set (c2 := if (datarecords h - dr) * recordsize h <? viewbufsize c then _ else _)
    in *.
  assert (Hsize : viewbufsize c2 <= (datarecords h - dr) * recordsize h).
  { subst c2. destruct (Z.ltb_spec ((datarecords h - dr) * recordsize h)
                          (viewbufsize c)); cbn; lia. }
  pose proof (fread_frame (viewbufoffset c2) (viewbufsize c2) (file_hdl h)
                (fseeko (file_hdl h) pos s)) as (E2 & _).
  pose proof (fread_ok_pos (viewbufoffset c2) (viewbufsize c2) (file_hdl h)
                (fseeko (file_hdl h) pos s)) as Hpos.
  destruct (fseeko_frame (file_hdl h) pos s) as (E1 & _).
  destruct (fread _ _ _ _) as [ok s2]. cbn [fst snd] in *.
  destruct ok; [|discriminate]. injection Hstep as _ <-.
  exists [fseeko_call (file_hdl h) pos; fread_call (file_hdl h) (viewbufsize c2) true].
  rewrite E2, E1, <- app_assoc. split; [reflexivity|].
  cbn [reads_in_records]. repeat split.
  exists h. destruct Hsound as (Hd & Hrs & Hhs).
  assert (Hdr : 0 <= dr).
  { subst dr. apply Z.quot_pos; [|lia].
    specialize (Hsz eq_refl C1). destruct Hin; lia. }
  split; [eapply list_elem_of_lookup_2, sound_is_listed; repeat split; assumption|].
  split; [reflexivity|]. subst pos.
  split; [nia|]. split; [apply Hpos; reflexivity | nia].
Qed.

(** The loop that reads the warm-up records, when it is left at its end. *)
Lemma read_prefilter_loop (hdrs : list edfhdrblock)
    (todo done : list signalcompblock) (s : window)
    (cs : list signalcompblock) (s' : window) :
  edfheaderlist s = hdrs ->
  Forall warmup_in_recording hdrs ->
  Forall (fun c => sound_header (hdr_of hdrs c)) todo ->
  warmup_sized hdrs (map edfhdr done) todo ->
  for_comps_return read_prefilter_step done todo s = Next (cs, s') ->
  exists calls,
    events s' = events s ++ calls /\ reads_in_records hdrs calls
    /\ edfheaderlist s' = hdrs.
Proof.
  intros Hh Hin Hsound. revert done s Hh.
  induction Hsound as [|c todo Hc _ IH]; intros done s Hh Hsized Hloop;
    cbn [for_comps_return warmup_sized] in *.
  - injection Hloop as _ <-. exists []. rewrite app_nil_r. cbn. auto.
  - destruct Hsized as (Hsz & Hsized).
    destruct (read_prefilter_step done c s) as [[c1 s1]|[c1 s1]] eqn:Estep;
      [|discriminate].
    assert (He : edfhdr c1 = edfhdr c).
    { pose proof (read_prefilter_step_signal done c s) as H.
      rewrite Estep in H. cbn [final fst] in H. unfold signal_of in H.
      congruence. }
    assert (Hh1 : edfheaderlist s1 = hdrs).
    { pose proof (read_prefilter_step_headers done c s) as H.
      rewrite Estep in H. cbn [final snd] in H. congruence. }
    assert (Hinc : warmup_in_recording (hdr_of hdrs c)).
    { eapply Forall_lookup_1; [exact Hin | apply sound_is_listed, Hc]. }
    destruct (read_prefilter_step_calls done c c1 s s1) as (calls1 & E1 & R1);
      try rewrite Hh; try assumption.
    rewrite Hh in R1.
    destruct (IH (done ++ [c1]) s1 Hh1) as (calls2 & E2 & R2 & Hh2);
      [rewrite map_app; cbn [map]; rewrite He; exact Hsized | exact Hloop |].
    exists (calls1 ++ calls2). rewrite E2, E1, <- app_assoc.
    split; [reflexivity|]. split; [apply reads_in_records_app; assumption | exact Hh2].
Qed.

(** Headers that agree but for the warm-up time. *)
Lemma same_but_warmup (hdrs1 hdrs2 : list edfhdrblock) (k : nat) (h1 : edfhdrblock) :
  map (set_prefiltertime 0) hdrs1 = map (set_prefiltertime 0) hdrs2 ->
  hdrs1 !! k = Some h1 ->
  exists h2, hdrs2 !! k = Some h2
             /\ set_prefiltertime 0 h2 = set_prefiltertime 0 h1.
Proof.
  revert hdrs2 k. induction hdrs1 as [|a hdrs1 IH]; intros [|b hdrs2] [|k] Hm Hk;
    cbn in *; try discriminate.
  - injection Hk as <-. exists b. split; [reflexivity|].
    apply (f_equal (hd null_hdr)) in Hm. symmetry. exact Hm.
  - apply (f_equal (@tl _)) in Hm. apply (IH _ _ Hm Hk).
Qed.

Lemma hdr_of_same (hdrs1 hdrs2 : list edfhdrblock) (c : signalcompblock) :
  map (set_prefiltertime 0) hdrs1 = map (set_prefiltertime 0) hdrs2 ->
  set_prefiltertime 0 (hdr_of hdrs1 c) = set_prefiltertime 0 (hdr_of hdrs2 c).
Proof. intros H. rewrite <- !hdr_of_at_entry, H. reflexivity. Qed.

Lemma sound_same (hdrs1 hdrs2 : list edfhdrblock) (cs : list signalcompblock) :
  map (set_prefiltertime 0) hdrs1 = map (set_prefiltertime 0) hdrs2 ->
  Forall (fun c => sound_header (hdr_of hdrs1 c)) cs ->
  Forall (fun c => sound_header (hdr_of hdrs2 c)) cs.
Proof.
  intros Hm Hs. eapply Forall_impl; [exact Hs|]. intros c Hc. cbv beta in *.
  change (sound_header (set_prefiltertime 0 (hdr_of hdrs2 c))).
  rewrite <- (hdr_of_same hdrs1 hdrs2 c Hm). exact Hc.
Qed.

Lemma reads_in_records_headers (hdrs1 hdrs2 : list edfhdrblock) (l : list event) :
  map (set_prefiltertime 0) hdrs1 = map (set_prefiltertime 0) hdrs2 ->
  reads_in_records hdrs1 l -> reads_in_records hdrs2 l.
Proof.
  intros Hm. remember (length l) as n eqn:Hn. revert l Hn.
  induction (lt_wf n) as [n _ IH]. intros l Hn H1.
  destruct l as [|e1 l]; [exact I|].
  destruct e1; try (simpl in H1; contradiction).
  destruct l as [|e2 l]; [simpl in H1; contradiction|].
  destruct e2; try (simpl in H1; contradiction).
  cbn [reads_in_records] in *.
  destruct H1 as (Ha & Hb & (h & Hh & Hf & Hrest) & Hd).
  split; [exact Ha|]. split; [exact Hb|]. split.
  - apply list_elem_of_lookup in Hh as (k & Hk).
    destruct (same_but_warmup hdrs1 hdrs2 k h Hm Hk) as (h2 & Hk2 & E).
    exists h2. split; [eapply list_elem_of_lookup_2; exact Hk2|].
    assert (E1 : file_hdl h2 = file_hdl h)
      by (change (file_hdl (set_prefiltertime 0 h2) = file_hdl (set_prefiltertime 0 h));
          rewrite E; reflexivity).
    assert (E2 : hdrsize h2 = hdrsize h)
      by (change (hdrsize (set_prefiltertime 0 h2) = hdrsize (set_prefiltertime 0 h));
          rewrite E; reflexivity).
    assert (E3 : datarecords h2 = datarecords h)
      by (change (datarecords (set_prefiltertime 0 h2)
                  = datarecords (set_prefiltertime 0 h)); rewrite E; reflexivity).
    assert (E4 : recordsize h2 = recordsize h)
      by (change (recordsize (set_prefiltertime 0 h2)
                  = recordsize (set_prefiltertime 0 h)); rewrite E; reflexivity).
    rewrite E1, E2, E3, E4. split; [exact Hf | exact Hrest].
  - apply (IH (length l)); [subst n; cbn; lia | reflexivity | exact Hd].
Qed.

(** The reads of a warm-up that is completed. *)
Lemma warm_up_reads (pre_time : double) (w0 w1 : window) :
  Forall warmup_in_recording (edfheaderlist w0) ->
  Forall (fun c => sound_header (hdr_of (edfheaderlist w0) c)) (signalcomp w0) ->
  warm_up pre_time w0 = Next w1 ->
  exists calls,
    events w1 = events w0 ++ calls
    /\ reads_in_records (edfheaderlist w0) calls.
Proof.
  intros Hin Hsound Hw. unfold ViewBuf.warm_up in Hw.
  cbn [signalcomp set_edfheaderlist edfheaderlist] in Hw.
  set (hdrs1 := set_prefiltertimes pre_time (signalcomp w0) (edfheaderlist w0)) in *.
  assert (Hm : map (set_prefiltertime 0) hdrs1
               = map (set_prefiltertime 0) (edfheaderlist w0))
    by apply set_prefiltertimes_inv.
  destruct (plan_prefilter_sized hdrs1 (signalcomp w0) [] 0)
    as (comps & Hc & He & Hsized).
  destruct (for_comps _ _ _ _) as [comps' totalsize]. cbn [fst app map] in *.
  subst comps'.
  set (wa := free_viewbuf _) in Hw.
  destruct (free_viewbuf_fields
              (set_signalcomp comps (set_edfheaderlist hdrs1 w0)))
    as (_ & Fc & Fh & _ & Fe & _). fold wa in Fc, Fh, Fe.
  cbn [set_signalcomp set_edfheaderlist signalcomp edfheaderlist events] in Fc, Fh, Fe.
  clearbody wa.
  destruct (allocate msg_alloc_prefilterbuf totalsize wa) as [w2|w2] eqn:Ea;
    cbn [and_then] in Hw; [|discriminate].
  assert (H2 : signalcomp w2 = comps /\ edfheaderlist w2 = hdrs1
               /\ events w2 = events w0).
  { unfold ViewBuf.allocate in Ea. destruct (_ <=? _); [discriminate|].
    destruct (malloc_fails _); [discriminate|]. injection Ea as <-. cbn. auto. }
  destruct H2 as (Gc & Gh & Ge). rewrite Gc in Hw.
  destruct (for_comps_return read_prefilter_step [] comps w2) as [[cs w3]|[cs w3]]
    eqn:El; cbn [and_then] in Hw; [|discriminate].
  destruct (read_prefilter_loop hdrs1 comps [] w2 cs w3 Gh) as (calls & E & R & _).
  - apply set_prefiltertimes_in, Hin.
  - apply (sound_same (edfheaderlist w0)); [symmetry; exact Hm|].
    apply (sound_by_pointers _ (signalcomp w0)); [exact He | exact Hsound].
  - exact Hsized.
  - exact El.
  - destruct (for_comps _ _ _ _) as [cs' d] in Hw. injection Hw as <-.
    exists calls. cbn [set_signalcomp events]. rewrite E, Ge.
    split; [reflexivity|]. apply (reads_in_records_headers hdrs1); assumption.
Qed.

Lemma new_calls_app (w s : window) (calls : list event) :
  events s = events w ++ calls -> new_calls w s = calls.
Proof. intros H. unfold new_calls. rewrite H, drop_app_length. reflexivity. Qed.

Lemma signals_pointers (l1 l2 : list signalcompblock) :
  map signal_of l1 = map signal_of l2 -> map edfhdr l1 = map edfhdr l2.
Proof.
  intros H. apply (f_equal (map (fun x => x.1.1.1))) in H.
  rewrite !map_map in H. exact H.
Qed.

(** The reads of a second phase that is completed, from a window whose
    headers are those of [hdrs] but for the warm-up times. *)
Lemma materialize_reads (hdrs : list edfhdrblock) (w w' : window) :
  map (set_prefiltertime 0) (edfheaderlist w) = map (set_prefiltertime 0) hdrs ->
  sound_page w -> materialize w = Next w' ->
  exists calls,
    events w' = events w ++ calls /\ reads_in_records hdrs calls.
Proof.
  intros Hm Hs Hw.
  pose proof (page_reads_in_records w w' Hs Hw) as R.
  pose proof (materialize_ends w w (went_quietly_refl w)) as Q.
  rewrite Hw in Q. destruct Q as ((calls & E & _) & _).
  rewrite (new_calls_app w w' calls E) in R.
  exists calls. split; [exact E|].
  apply (reads_in_records_headers (edfheaderlist w)); assumption.
Qed.

(** X9.  A call of [setup_viewbuf] that is completed, warm-up included,
    has asked of the files nothing but pairs of a seek and a read that
    delivered, on the same stream, each read lying in the data records of
    its file: not in the header and not beyond the last record. *)
Theorem setup_viewbuf_reads_in_records (w w' : window) :
  sound_page w -> setup_viewbuf w = Next w' ->
  reads_in_records (edfheaderlist w) (new_calls w w').
Proof.
  intros (Hpt & Hsound) Hw. unfold ViewBuf.setup_viewbuf in Hw.
  cbn [signalcomp set_edfheaderlist] in Hw.
  pose proof (for_comps_map edfhdr
                (fun _ c acc => let '(acc, c) := pre_time_step acc c in (c, acc))
                [] (signalcomp w) (Dbl.zero, false)) as Hk.
  fold (pre_time_loop (signalcomp w)) in Hk.
  destruct (pre_time_loop (signalcomp w)) as [comps [pre_time hasprefilter]].
  cbn [fst app map] in Hk.
  assert (Hptr : map edfhdr comps = map edfhdr (signalcomp w)).
  { apply Hk. intros done c [pt has]. unfold pre_time_step. reflexivity. }
  clear Hk.
  set (hdrs := edfheaderlist w) in *.
  set (hdrs0 := map (set_prefiltertime 0) hdrs) in *.
  set (w0 := set_signalcomp comps _) in Hw.
  assert (Hh0 : edfheaderlist w0 = hdrs0) by reflexivity.
  assert (Hc0 : signalcomp w0 = comps) by reflexivity.
  assert (He0 : events w0 = events w) by reflexivity.
  assert (Hp0 : pagetime w0 = pagetime w) by reflexivity.
  clearbody w0.
  assert (Hm0 : map (set_prefiltertime 0) hdrs0 = map (set_prefiltertime 0) hdrs).
  { subst hdrs0. rewrite map_map. apply map_ext. intros h. reflexivity. }
  assert (Hs0 : Forall (fun c => sound_header (hdr_of hdrs0 c)) comps).
  { apply (sound_same hdrs); [symmetry; exact Hm0|].
    apply (sound_by_pointers _ (signalcomp w)); assumption. }
  destruct hasprefilter.
  - destruct (warm_up pre_time w0) as [w1|w1] eqn:Ew; cbn [and_then] in Hw;
      [|discriminate].
    destruct (warm_up_reads pre_time w0 w1) as (calls1 & E1 & R1);
      [rewrite Hh0; subst hdrs0; apply Forall_forall; intros h Hh;
       apply list_elem_of_In, in_map_iff in Hh as (h0 & <- & _); left; reflexivity
      |rewrite Hh0, Hc0; exact Hs0 | exact Ew |].
    rewrite Hh0 in R1.
    pose proof (warm_up_headers pre_time w0) as Hh1.
    pose proof (warm_up_signals pre_time w0) as Hc1.
    pose proof (warm_up_ends w0 w0 pre_time (went_quietly_refl w0)) as Q1.
    rewrite Ew in Hh1, Hc1, Q1. cbn [final] in Hh1, Hc1.
    destruct Q1 as (_ & _ & Hp1).
    assert (Hm1 : map (set_prefiltertime 0) (edfheaderlist w1)
                  = map (set_prefiltertime 0) hdrs).
    { rewrite Hh1, Hh0, <- Hm0. apply set_prefiltertimes_inv. }
    destruct (materialize_reads hdrs w1 w' Hm1) as (calls2 & E2 & R2);
      [|exact Hw|].
    { split; [lia|].
      apply (sound_same hdrs0); [rewrite Hm1; exact Hm0|].
      apply (sound_by_pointers _ comps); [|exact Hs0].
      rewrite <- Hc0. apply signals_pointers, Hc1. }
    rewrite (new_calls_app w w' (calls1 ++ calls2))
      by (rewrite E2, E1, He0, <- app_assoc; reflexivity).
    apply reads_in_records_app; [|exact R2].
    apply (reads_in_records_headers hdrs0); assumption.
  - cbn [and_then] in Hw.
    destruct (materialize_reads hdrs w0 w') as (calls & E & R);
      [rewrite Hh0; exact Hm0 | | exact Hw |].
    { split; [lia|]. rewrite Hh0, Hc0. exact Hs0. }
    rewrite (new_calls_app w w' calls) by (rewrite E, He0; reflexivity).
    exact R.
Qed.

(** *** The samples in the buffer *)

Lemma holds_at_byte (w : window) (buf : list cell) (pos : Z) (data : list Z)
    (i : nat) (b : Z) :
  viewbuf w = Some buf -> 0 <= pos -> holds_at buf pos data ->
  data !! i = Some b ->
  byte_at w (pos + Z.of_nat i) = b.
Proof.
  intros Hv Hpos Hd Hi. unfold byte_at. rewrite Hv.
  destruct (Z.ltb_spec (pos + Z.of_nat i) 0); [lia|].
  assert (Hl : (take (length data) (drop (Z.to_nat pos) buf)) !! i = Some (Byte b)).
  { rewrite Hd. change (map Byte data) with (Byte <$> data).
    rewrite list_lookup_fmap, Hi. reflexivity. }
  apply lookup_take_Some in Hl as [Hl _]. rewrite lookup_drop in Hl.
  replace (Z.to_nat (pos + Z.of_nat i)) with (Z.to_nat pos + i)%nat by lia.
  rewrite Hl. reflexivity.
Qed.

Lemma sign_bit (b : Z) : 0 <= b < 256 -> (Z.land b 128 =? 0) = (b <? 128).
Proof.
  intros Hb.
  assert (H : forallb (fun b => Bool.eqb (Z.land b 128 =? 0) (b <? 128)) (upto 256)
              = true) by (vm_compute; reflexivity).
  rewrite forallb_forall in H. apply eqb_prop, H. unfold upto.
  apply in_map_iff. exists (Z.to_nat b). split; [lia|].
  apply in_seq. lia.
Qed.

(** X10.  Decoding is the inverse of the encoding of the file formats: a
    16-bit sample whose two bytes lie in the buffer, the least significant
    first and in two's complement, is read as its value, and so is a
    24-bit sample from its three bytes (lines 398-434). *)
Theorem samples_decode (w : window) (buf : list cell) (pos v : Z) :
  viewbuf w = Some buf -> 0 <= pos ->
  (- 32768 <= v < 32768 -> holds_at buf pos (le_bytes 2 v) ->
   edf_sample w pos = v)
  /\ (- 8388608 <= v < 8388608 -> holds_at buf pos (le_bytes 3 v) ->
      bdf_sample w pos = v).
Proof.
  intros Hv Hpos. split; intros Hr Hd.
  - unfold edf_sample.
    pose proof (holds_at_byte w buf pos _ 0 _ Hv Hpos Hd eq_refl) as H0.
    pose proof (holds_at_byte w buf pos _ 1 _ Hv Hpos Hd eq_refl) as H1.
    rewrite Z.add_0_r in H0. change (Z.of_nat 1) with 1 in H1.
    rewrite H0, H1. cbn [Z.of_nat Z.pow]. change (256 ^ 1) with 256.
    rewrite Z.div_1_r.
    pose proof (Z.div_mod v 256 ltac:(lia)) as D0.
    pose proof (Z.mod_pos_bound v 256 ltac:(lia)) as B0.
    pose proof (Z.div_mod (v / 256) 256 ltac:(lia)) as D1.
    pose proof (Z.mod_pos_bound (v / 256) 256 ltac:(lia)) as B1.
    destruct (Z.ltb_spec (v mod 256 + 256 * ((v / 256) mod 256)) 32768); lia.
  - unfold bdf_sample.
    pose proof (holds_at_byte w buf pos _ 0 _ Hv Hpos Hd eq_refl) as H0.
    pose proof (holds_at_byte w buf pos _ 1 _ Hv Hpos Hd eq_refl) as H1.
    pose proof (holds_at_byte w buf pos _ 2 _ Hv Hpos Hd eq_refl) as H2.
    rewrite Z.add_0_r in H0. change (Z.of_nat 1) with 1 in H1.
    change (Z.of_nat 2) with 2 in H2.
    rewrite H0, H1, H2. cbn [Z.of_nat Z.pow].
    change (256 ^ 1) with 256. change (256 ^ 2) with 65536.
    rewrite Z.div_1_r.
    pose proof (Z.div_mod v 256 ltac:(lia)) as D0.
    pose proof (Z.mod_pos_bound v 256 ltac:(lia)) as B0.
    pose proof (Z.div_mod (v / 256) 256 ltac:(lia)) as D1.
    pose proof (Z.mod_pos_bound (v / 256) 256 ltac:(lia)) as B1.
    pose proof (Z.mod_pos_bound (v / 65536) 256 ltac:(lia)) as B2.
    pose proof (Z.div_mod (v / 65536) 256 ltac:(lia)) as D2.
    assert (E : v / 65536 = v / 256 / 256)
      by (rewrite Z.div_div by lia; reflexivity).
    rewrite (sign_bit _ B2).
    destruct (Z.ltb_spec ((v / 65536) mod 256) 128); lia.
Qed.

(** *** The ceiling of the buffer, for the function as a whole *)

Local Abbreviation before_page := (before_page lp64 malloc_fails).

Lemma setup_viewbuf_phases (w : window) :
  setup_viewbuf w = and_then (before_page w) materialize id.
Proof.
  unfold ViewBuf.setup_viewbuf, ViewBuf.before_page.
  destruct (pre_time_loop _) as [comps [pre_time hasprefilter]]. reflexivity.
Qed.

Lemma for_comps_ext {S : Type}
    (f g : list signalcompblock -> signalcompblock -> S -> signalcompblock * S)
    (done todo : list signalcompblock) (s : S) :
  (forall done c s, f done c s = g done c s) ->
  for_comps f done todo s = for_comps g done todo s.
Proof.
  intros H. revert done s. induction todo as [|c todo IH]; intros done s;
    [reflexivity|].
  cbn [for_comps]. rewrite H. destruct (g done c s) as [c' s']. apply IH.
Qed.

Lemma find_ext_bool {A : Type} (p q : A -> bool) (l : list A) :
  (forall a, p a = q a) -> List.find p l = List.find q l.
Proof.
  intros H. induction l as [|a l IH]; [reflexivity|].
  cbn. rewrite H, IH. reflexivity.
Qed.

(** The second planning loop does not look at the warm-up times. *)
Lemma plan_view_step_at_entry (hdrs : list edfhdrblock) (pt : Z)
    (done : list signalcompblock) (c : signalcompblock) (total : Z) :
  plan_view_step (map (set_prefiltertime 0) hdrs) pt done c total
  = plan_view_step hdrs pt done c total.
Proof.
  unfold plan_view_step. rewrite hdr_of_at_entry.
  cbn [set_prefiltertime long_data_record_duration viewtime recordsize].
  assert (E : earlier_on_file (map (set_prefiltertime 0) hdrs) done c
              = earlier_on_file hdrs done c).
  { unfold earlier_on_file. apply find_ext_bool. intros e.
    unfold shares_file. rewrite !hdr_of_at_entry. reflexivity. }
  rewrite E. reflexivity.
Qed.

Lemma page_bytes_at_entry (w : window) : page_bytes (at_entry w) = page_bytes w.
Proof.
  unfold page_bytes, at_entry.
  cbn [set_edfheaderlist edfheaderlist pagetime signalcomp].
  rewrite (for_comps_ext _ (plan_view_step (edfheaderlist w) (pagetime w)));
    [reflexivity|].
  intros done c s. apply plan_view_step_at_entry.
Qed.

(** The bytes of the page are those of any window on the same page. *)
Lemma page_bytes_same_page (w1 w2 : window) :
  map (set_prefiltertime 0) (edfheaderlist w1)
    = map (set_prefiltertime 0) (edfheaderlist w2) ->
  pagetime w1 = pagetime w2 ->
  map edfhdr (signalcomp w1) = map edfhdr (signalcomp w2) ->
  page_bytes w1 = page_bytes w2.
Proof.
  intros Hh Hp Hc.
  rewrite <- (page_bytes_at_entry w1), <- (page_bytes_at_entry w2).
  destruct (planned_same (at_entry w2) (at_entry w1) ∅) as (_ & _ & E & _);
    [symmetry; exact Hh | symmetry; exact Hp | symmetry; exact Hc | exact E].
Qed.

Lemma signal_of_pointers (l1 l2 : list signalcompblock) :
  map signal_of l1 = map signal_of l2 -> map edfhdr l1 = map edfhdr l2.
Proof.
  intros H.
  apply (f_equal (map (fun t : nat * edfparamblock * list Z * list double =>
                         t.1.1.1))) in H.
  rewrite !map_map in H. exact H.
Qed.

(** What the function has done when it comes to the second planning loop:
    calls on streams only, and the page is the one it was called with. *)
Lemma before_page_ends (w : window) :
  match before_page w with
  | Next w1 => went_quietly w w1 /\ page_bytes w1 = page_bytes w
  | Return w1 => reported w w1
  end
  /\ (unfiltered w ->
      exists w1, before_page w = Next w1 /\ events w1 = events w
                 /\ files w1 = files w /\ pagetime w1 = pagetime w).
Proof.
  unfold ViewBuf.before_page. cbn [signalcomp set_edfheaderlist].
  pose proof (pre_time_loop_keeps (signalcomp w)) as Hk.
  pose proof (fun H => pre_time_loop_plain [] (signalcomp w) (Dbl.zero, false) H)
    as Hplain.
  unfold pre_time_loop in Hplain. fold (pre_time_loop (signalcomp w)) in Hplain.
  destruct (pre_time_loop (signalcomp w)) as [comps [pre_time hasprefilter]].
  cbn [fst] in Hk.
  assert (Hm : map edfhdr comps = map edfhdr (signalcomp w)).
  { clear Hplain. induction Hk as [|c' c cs' cs (H & _) _ IH]; cbn;
      [reflexivity | rewrite H, IH; reflexivity]. }
  set (w0 := set_signalcomp comps _).
  assert (H0 : went_quietly w w0)
    by (apply (went_quietly_same w w); [apply went_quietly_refl | reflexivity..]).
  assert (Hh0 : edfheaderlist w0 = map (set_prefiltertime 0) (edfheaderlist w))
    by reflexivity.
  assert (Hc0 : signalcomp w0 = comps) by reflexivity.
  assert (He0 : events w0 = events w /\ files w0 = files w
                /\ pagetime w0 = pagetime w) by (repeat split).
  assert (Hb0 : page_bytes w0 = page_bytes w).
  { apply page_bytes_same_page.
    - rewrite Hh0, map_map. apply map_ext. intros h. apply set_prefiltertime_twice.
    - reflexivity.
    - rewrite Hc0. exact Hm. }
  clearbody w0. split.
  - destruct hasprefilter; [|split; assumption].
    pose proof (warm_up_ends w w0 pre_time H0) as H1.
    pose proof (warm_up_headers pre_time w0) as H2.
    pose proof (warm_up_signals pre_time w0) as H3.
    destruct (warm_up pre_time w0) as [w1|w1]; cbn [final] in *; [|exact H1].
    split; [exact H1|]. rewrite <- Hb0.
    apply page_bytes_same_page.
    + rewrite H2. apply set_prefiltertimes_inv.
    + destruct H1 as (_ & _ & ->), H0 as (_ & _ & ->). reflexivity.
    + apply signal_of_pointers, H3.
  - intros Hu. apply Hplain in Hu. injection Hu as _ _ ->.
    exists w0. split; [reflexivity | exact He0].
Qed.

(** C3, as the code has it.  When a planning loop asks for bytes at or
    above the ceiling of the platform, [setup_viewbuf] gives up and does
    not try again: it shows the dialog about the memory limit, calls
    [remove_all_signals], sets the page time to at most one second and
    returns without a buffer.  When it is the warm-up buffer that reaches
    the ceiling, or the buffer of the page in a frame without filters, it
    does so at once: nothing is allocated and no stream is touched.  When
    it is the buffer of the page in a frame with filters, the warm-up comes
    first, with its calls on the streams; if the warm-up itself gives up,
    the function returns there. *)
Theorem over_ceiling_gives_up (w : window) :
  (forall n, warmup_request w = Some n -> capacity_ceiling lp64 <= n ->
     gave_up_on_memory w (setup_viewbuf w))
  /\ (capacity_ceiling lp64 <= page_bytes w ->
      match before_page w with
      | Next w1 => went_quietly w w1 /\ gave_up_on_memory w1 (setup_viewbuf w)
      | Return w1 => setup_viewbuf w = Return w1 /\ reported w w1
      end
      /\ (unfiltered w -> gave_up_on_memory w (setup_viewbuf w))).
Proof.
  split.
  - intros n Hn Hc. rewrite setup_viewbuf_phases.
    unfold ViewBuf.warmup_request in Hn. unfold ViewBuf.before_page.
    cbn [signalcomp set_edfheaderlist] in *.
    destruct (pre_time_loop (signalcomp w)) as [comps [pre_time hasprefilter]].
    destruct hasprefilter; [|discriminate]. injection Hn as <-.
    destruct (warm_up_over_ceiling pre_time _ Hc)
      as (w' & -> & He & Hv & Hp & Hl & Hf).
    exists w'. cbn [and_then id]. repeat split; assumption.
  - intros Hc. rewrite setup_viewbuf_phases.
    destruct (before_page_ends w) as (H1 & H2). split.
    + destruct (before_page w) as [w1|w1]; cbn [and_then id].
      * destruct H1 as (Hq & Hb). split; [exact Hq|].
        apply materialize_over_ceiling. rewrite Hb. exact Hc.
      * split; [reflexivity | exact H1].
    + intros Hu. destruct (H2 Hu) as (w1 & E & He & Hf & Hp).
      rewrite E in H1 |- *. cbn [and_then]. destruct H1 as (_ & Hb).
      destruct (materialize_over_ceiling w1 ltac:(rewrite Hb; exact Hc))
        as (w' & -> & He' & Hv' & Hp' & Hl' & Hf').
      exists w'. rewrite <- He, <- Hp, <- Hf. repeat split; assumption.
Qed.
End Window.


Section TwoCalls.

Context {FL : FilterLib}.
Variable lp64 : bool.
Variables mf1 mf2 : Z -> bool.

(** Two calls on windows on the same page, without filters: when the first
    is completed and [malloc] delivers a block of that size to the second,
    the second is completed with the same buffer. *)
Lemma same_frame_same_buffer (w1 w2 w1' : window) :
  sound_page w1 -> unfiltered w1 -> unfiltered w2 -> same_frame w1 w2 ->
  setup_viewbuf lp64 mf1 w1 = Next w1' ->
  mf2 (Z.of_nat (length (buffer_of w1'))) = false ->
  exists w2', setup_viewbuf lp64 mf2 w2 = Next w2' /\ viewbuf w2' = viewbuf w1'.
Proof.
  intros S1 U1 U2 (Fh & Fp & Ff & Fm) H1 Hm.
  pose proof (plain_call_spec lp64 mf1 w1 (files w1) S1 U1 (fun _ => eq_refl)) as P1.
  cbv zeta in P1.
  destruct (granted lp64 mf1 (at_entry w1)
            && all_readable (edfheaderlist (at_entry w1)) (files w1) []
                 (planned (at_entry w1))) eqn:E1.
  2: { destruct P1 as (x & Hx). congruence. }
  destruct P1 as (x & Hx & _ & Hb1 & Hn1 & _). rewrite H1 in Hx. injection Hx as <-.
  apply andb_prop in E1 as [G1 R1].
  assert (Ea : edfheaderlist (at_entry w2) = edfheaderlist (at_entry w1))
    by (symmetry; exact Fh).
  assert (S2 : sound_page w2).
  { apply sound_page_at_entry. apply sound_page_at_entry in S1.
    destruct S1 as (Sp & Sc). split.
    - change (pagetime (at_entry w2)) with (pagetime w2). rewrite <- Fp. exact Sp.
    - rewrite Ea. apply (sound_by_pointers _ (signalcomp w1));
        [symmetry; exact Fm | exact Sc]. }
  assert (Ff' : same_contents (files w2) (files w1))
    by (intros hdl; symmetry; apply Ff).
  pose proof (plain_call_spec lp64 mf2 w2 (files w1) S2 U2 Ff') as P2.
  cbv zeta in P2. rewrite Ea in P2.
  destruct (planned_same (at_entry w1) (at_entry w2) (files w1) Fh Fp Fm)
    as (Ei & Er & Eb & _).
  rewrite Ei, Er, Eb, R1 in P2.
  pose proof (page_bytes_length (at_entry w1) (files w1)
                (proj1 (sound_page_at_entry w1) S1) R1) as Hlen.
  rewrite Hb1, Hlen in Hm.
  assert (G2 : granted lp64 mf2 (at_entry w2) = true).
  { unfold granted in *. rewrite Eb.
    destruct (page_bytes (at_entry w1) =? 0); [reflexivity|].
    cbn [orb] in *.
    destruct (capacity_ceiling lp64 <=? page_bytes (at_entry w1));
      [discriminate|]. cbn [orb]. rewrite Hm. reflexivity. }
  rewrite G2 in P2. cbn [andb] in P2.
  destruct P2 as (w2' & Hw2 & _ & Hb2 & Hn2 & _).
  exists w2'. split; [exact Hw2|].
  apply viewbuf_by_buffer; congruence.
Qed.

(** C8.  For compositions without filters with a state the buffer of the
    page is a function of the headers (view times), the page time and the
    contents of the files.  When a call is completed, every byte of its
    buffer was written; every call on a window on the same page, whatever
    the positions of the streams, the buffer and the fields earlier calls
    left, is completed with the same buffer as soon as [malloc] delivers a
    block of that size again; and the call that follows immediately is such
    a call. *)
Theorem unfiltered_page_is_a_function_of_the_files (w1 w1' : window) :
  sound_page w1 -> unfiltered w1 ->
  setup_viewbuf lp64 mf1 w1 = Next w1' ->
  Forall (fun x => is_stored x = true) (buffer_of w1')
  /\ (forall w2,
        unfiltered w2 -> same_frame w1 w2 ->
        mf2 (Z.of_nat (length (buffer_of w1'))) = false ->
        exists w2',
          setup_viewbuf lp64 mf2 w2 = Next w2' /\ viewbuf w2' = viewbuf w1')
  /\ (mf2 (Z.of_nat (length (buffer_of w1'))) = false ->
      exists w1'',
        setup_viewbuf lp64 mf2 w1' = Next w1'' /\ viewbuf w1'' = viewbuf w1').
Proof.
  intros S1 U1 H1. split; [|split].
  - pose proof (plain_call_spec lp64 mf1 w1 (files w1) S1 U1 (fun _ => eq_refl)) as P.
    cbv zeta in P. destruct (_ && _).
    2: { destruct P as (x & Hx). congruence. }
    destruct P as (x & Hx & _ & Hb & _). rewrite H1 in Hx. injection Hx as <-.
    rewrite Hb. apply image_stored.
  - intros w2 U2 F Hm. exact (same_frame_same_buffer w1 w2 w1' S1 U1 U2 F H1 Hm).
  - intros Hm.
    destruct (plain_call_closed lp64 mf1 w1 w1' S1 U1 H1) as (U' & F).
    exact (same_frame_same_buffer w1 w1' w1' S1 U1 U' F H1 Hm).
Qed.

End TwoCalls.

(** *** The view-time indicator *)

Lemma clock_elapsed_spec (t ps : Z) :
  0 <= t < 2 ^ 62 -> ps = 10 \/ ps = 10000 ->
  let c := clock_elapsed t ps in
  0 <= hours c /\ 0 <= minutes c < 60 /\ 0 <= seconds c < 60
  /\ 0 <= fraction c /\ fraction c * ps < TIME_FIXP_SCALING
  /\ shown_time c ps <= t < shown_time c ps + ps.
Proof.
  intros Ht Hps c. subst c. unfold shown_time, clock_elapsed.
  cbn [hours minutes seconds fraction]. unfold TIME_FIXP_SCALING in *.
  rewrite !wrap_int_small.
  - destruct Hps; subst ps; Z.to_euclidean_division_equations; lia.
  - destruct Hps; subst ps; Z.to_euclidean_division_equations; lia.
  - Z.to_euclidean_division_equations; lia.
  - Z.to_euclidean_division_equations; lia.
  - Z.to_euclidean_division_equations; lia.
Qed.

Lemma clock_of_day_spec (t ps : Z) :
  0 <= t < 2 ^ 63 -> ps = 10 \/ ps = 10000 ->
  let c := clock_of_day t ps in
  0 <= hours c < 24 /\ 0 <= minutes c < 60 /\ 0 <= seconds c < 60
  /\ 0 <= fraction c /\ fraction c * ps < TIME_FIXP_SCALING
  /\ shown_time c ps <= t mod (86400 * TIME_FIXP_SCALING)
     < shown_time c ps + ps.
Proof.
  intros Ht Hps c. subst c. unfold shown_time, clock_of_day.
  cbn [hours minutes seconds fraction]. unfold TIME_FIXP_SCALING in *.
  rewrite !wrap_int_small.
  - destruct Hps; subst ps; Z.to_euclidean_division_equations; lia.
  - destruct Hps; subst ps; Z.to_euclidean_division_equations; lia.
  - Z.to_euclidean_division_equations; lia.
  - Z.to_euclidean_division_equations; lia.
  - Z.to_euclidean_division_equations; lia.
Qed.

(** X19.  The times printed for the page: with a file that starts at a time
    of day and a view time within 2^62 ticks, the time of day printed is a
    clock time (hours below 24, minutes and seconds below 60, a fraction that
    fits the digits it is printed with) and is the start of the page modulo a
    day, cut to the precision, also for a page before the start of the file;
    the time since the start printed is the distance of the page from the
    start, cut to the precision, with a minus sign exactly for a page before
    the start. *)
Theorem viewtime_indicator_fields (starttime_hr vt : Z)
    (annot_editor_highres : bool) :
  0 <= starttime_hr < 86400 * TIME_FIXP_SCALING ->
  - 2 ^ 62 < vt < 2 ^ 62 ->
  let precision := fst (indicator_precision annot_editor_highres) in
  let prec_scale := snd (indicator_precision annot_editor_highres) in
  let day := viewtime_of_day starttime_hr vt prec_scale in
  let since := snd (viewtime_elapsed vt prec_scale) in
  (0 <= hours day < 24 /\ 0 <= minutes day < 60 /\ 0 <= seconds day < 60
   /\ 0 <= fraction day < 10 ^ precision
   /\ shown_time day prec_scale
      <= (starttime_hr + vt) mod (86400 * TIME_FIXP_SCALING)
      < shown_time day prec_scale + prec_scale)
  /\ (fst (viewtime_elapsed vt prec_scale) = (vt <? 0)
      /\ 0 <= hours since /\ 0 <= minutes since < 60
      /\ 0 <= seconds since < 60 /\ 0 <= fraction since < 10 ^ precision
      /\ shown_time since prec_scale <= Z.abs vt
         < shown_time since prec_scale + prec_scale).
Proof.
  intros Hs Hv precision prec_scale day since.
  assert (Hps : prec_scale = 10 \/ prec_scale = 10000).
  { subst prec_scale. destruct annot_editor_highres; cbn; auto. }
  assert (Hpr : forall f, 0 <= f -> f * prec_scale < TIME_FIXP_SCALING ->
                          0 <= f < 10 ^ precision).
  { subst prec_scale precision. unfold TIME_FIXP_SCALING.
    destruct annot_editor_highres; cbn [indicator_precision fst snd];
      intros f H0 H1; lia. }
  unfold TIME_FIXP_SCALING in Hs.
  split.
  - subst day. unfold viewtime_of_day.
    destruct (Z.leb_spec 0 vt) as [H0|H0].
    + destruct (clock_of_day_spec (starttime_hr + vt) prec_scale
                  ltac:(lia) Hps) as (A & B & C & D & E & F).
      auto 10.
    + set (r := Z.rem (starttime_hr + vt) (86400 * TIME_FIXP_SCALING)).
      set (l := if r <=? 0 then r + 86400 * TIME_FIXP_SCALING else r).
      assert (Hl : 0 < l <= 86400 * TIME_FIXP_SCALING
                   /\ l mod (86400 * TIME_FIXP_SCALING)
                      = (starttime_hr + vt) mod (86400 * TIME_FIXP_SCALING)).
      { subst l r. unfold TIME_FIXP_SCALING.
        destruct (Z.leb_spec (Z.rem (starttime_hr + vt) (86400 * 10000000)) 0);
          Z.to_euclidean_division_equations; lia. }
      destruct Hl as (Hl & Hm).
      destruct (clock_of_day_spec l prec_scale
                  ltac:(unfold TIME_FIXP_SCALING in Hl; lia) Hps)
        as (A & B & C & D & E & F).
      rewrite Hm in F. auto 10.
  - subst since. unfold viewtime_elapsed.
    destruct (Z.leb_spec 0 vt) as [H0|H0]; cbn [fst snd].
    + destruct (clock_elapsed_spec vt prec_scale ltac:(lia) Hps)
        as (A & B & C & D & E & F).
      rewrite Z.abs_eq by lia.
      split; [symmetry; apply Z.ltb_ge; lia|]. auto 10.
    + destruct (clock_elapsed_spec (- vt) prec_scale ltac:(lia) Hps)
        as (A & B & C & D & E & F).
      rewrite Z.abs_neq by lia.
      split; [symmetry; apply Z.ltb_lt; lia|]. auto 10.
Qed.
(** *** The properties at concrete inputs *)

Import StandIn.

(** C4 for the lowpass filter of 3 Hz at a view time of 5 s: 3333333 ticks. *)
Lemma lowpass_prefiltertime_witness :
  edfheaderlist (final (setup_viewbuf false (fun _ => false) lowpass3_window))
    !! edfhdr lowpass3_comp
  = Some (set_prefiltertime 3333333 (small_edf 50000000)).
Proof.
  refine (lowpass_prefiltertime false (fun _ => false) lowpass3_window [] []
            lowpass3_comp (Dbl.of_Z 3, Dbl.zero, Dbl.zero) (small_edf 50000000)
            eq_refl _ _ eq_refl _ _).
  - constructor.
  - repeat split.
  - vm_compute. reflexivity.
  - vm_compute. discriminate.
Defined.

(** C4 as the specification words it fails there: the code truncates where
    the specification rounds up. *)
Lemma lowpass_prefiltertime_is_not_ceil :
  prefiltertime
    (hdr_of (edfheaderlist
               (final (setup_viewbuf false (fun _ => false) lowpass3_window)))
       lowpass3_comp) = 3333333
  /\ specified_prefiltertime (cutoff_frequency (Dbl.of_Z 3, Dbl.zero, Dbl.zero))
       (viewtime (small_edf 50000000)) = 3333334.
Proof. split; vm_compute; reflexivity. Qed.

(** C3 at 5 s of the small recording under a lowpass filter on a 32-bit
    build, with a page of 4294967304 bytes: the warm-up reads two records
    (16 bytes at byte 48) before the function gives up; and at a page of
    68720 seconds of a recording with records of 2000000 bytes on a 64-bit
    build, without filters, where the function gives up at once. *)
Lemma over_ceiling_gives_up_witness :
  (capacity_ceiling false <= page_bytes wide_lowpass_window
   /\ new_calls wide_lowpass_window
        (final (before_page false (fun _ => false) wide_lowpass_window))
      = [fseeko_call 7 48; fread_call 7 16 true]
   /\ went_quietly wide_lowpass_window
        (final (before_page false (fun _ => false) wide_lowpass_window))
   /\ gave_up_on_memory
        (final (before_page false (fun _ => false) wide_lowpass_window))
        (setup_viewbuf false (fun _ => false) wide_lowpass_window))
  /\ (capacity_ceiling true <= page_bytes big_window
      /\ gave_up_on_memory big_window
           (setup_viewbuf true (fun _ => false) big_window)).
Proof.
  split.
  - assert (H : capacity_ceiling false <= page_bytes wide_lowpass_window)
      by (vm_compute; discriminate).
    split; [exact H|]. split; [vm_compute; reflexivity|].
    pose proof (over_ceiling_gives_up false (fun _ => false) wide_lowpass_window)
      as K.
    destruct K as [_ K]. specialize (K H). destruct K as [K _].
    destruct (before_page false (fun _ => false) wide_lowpass_window)
      as [w1|w1] eqn:E.
    + exact K.
    + vm_compute in E. discriminate E.
  - assert (H : capacity_ceiling true <= page_bytes big_window)
      by (vm_compute; discriminate).
    split; [exact H|].
    pose proof (over_ceiling_gives_up true (fun _ => false) big_window) as K.
    destruct K as [_ K]. specialize (K H). destruct K as [_ K].
    apply K. repeat constructor.
Defined.

(** C3 as the specification words it fails there: the dialog is shown and
    [remove_all_signals] is called although the page cut to one second
    would need 4000000 bytes, and the function returns without the buffer
    of that page. *)
Lemma over_ceiling_no_second_try :
  (exists w',
     setup_viewbuf true (fun _ => false) big_window = Return w'
     /\ events w' = [QMessageBox_critical msg_memory_limit; remove_all_signals]
     /\ pagetime w' = TIME_FIXP_SCALING
     /\ viewbuf w' = None)
  /\ page_bytes (set_pagetime TIME_FIXP_SCALING big_window) = 4000000
  /\ 4000000 < capacity_ceiling true.
Proof.
  split; [|split; vm_compute; reflexivity].
  eexists. split; [vm_compute; reflexivity|].
  repeat split.
Qed.

(** C2 where the file ends inside the page: the read of 16 bytes at byte 96
    of a file of 100 bytes. *)
Lemma failed_read_gives_up_witness :
  gave_up_on_read moved_to_10s (setup_viewbuf false (fun _ => false) moved_to_10s).
Proof.
  apply failed_read_gives_up.
  - apply no_failed_read_forallb. vm_compute. reflexivity.
  - rewrite no_failed_read_forallb. vm_compute. discriminate.
Defined.

(** C2 as the specification words it fails there: after the failed read
    the page that was shown is gone.  Its buffer was freed and the new one
    holds the four bytes the file still had and twelve that were never
    written; [live_stream_active] is cleared and [remove_all_signals] was
    called. *)
Lemma failed_read_does_not_keep_the_page :
  viewbuf moved_to_10s = Some (map Byte (map (fun i => 56 + i) (upto 16)))
  /\ live_stream_active moved_to_10s = true
  /\ exists w',
       setup_viewbuf false (fun _ => false) moved_to_10s = Return w'
       /\ viewbuf w' = Some (map Byte [96; 97; 98; 99] ++ replicate 12 Undef)
       /\ live_stream_active w' = false
       /\ events w' = events moved_to_10s
                        ++ [fseeko_call 7 96; fread_call 7 16 false;
                            QMessageBox_critical (msg_read_error 5);
                            remove_all_signals].
Proof.
  split; [vm_compute; reflexivity|]. split; [reflexivity|].
  eexists. split; [vm_compute; reflexivity|].
  repeat split.
Qed.


Lemma two_signals_sound (viewtime : Z) : sound_page (two_signals_at viewtime).
Proof.
  split; [vm_compute; discriminate|].
  repeat constructor; vm_compute; discriminate.
Defined.

(** C6 at 19.5 s of the small recording, whose last record ends at 20 s:
    the page touches records 19 and 20, the file has record 19 (bytes 168
    to 175), and the second composition, which shares the file, is left
    with [sample_stop] 1 * 4 - 2 + 0. *)
Lemma page_past_end_zero_filled_witness :
  part_of [small_edf 195000000]
    (comp_at 1 (page_of (two_signals_at 195000000)))
    (buffer_of (page_of (two_signals_at 195000000)))
  = map Byte [168; 169; 170; 171; 172; 173; 174; 175] ++ replicate 8 (Byte 0)
  /\ sample_stop (comp_at 1 (page_of (two_signals_at 195000000))) = 2.
Proof.
  destruct (page_past_end_zero_filled false (fun _ => false)
              (two_signals_at 195000000) (page_of (two_signals_at 195000000)) 1
              (comp_at 1 (page_of (two_signals_at 195000000)))
              (two_signals_sound 195000000) (handles_distinct_one _))
    as (_ & Hp & _ & Hs).
  - vm_compute. reflexivity.
  - vm_compute. reflexivity.
  - vm_compute. reflexivity.
  - split.
    + etransitivity; [exact Hp|]. vm_compute. reflexivity.
    + etransitivity; [exact Hs|]. vm_compute. reflexivity.
Defined.

(** C6 as the specification words it fails at 20.5 s, where the page starts
    after the last record: no record is left, the sample time offset is 2,
    and [sample_stop] is 0 where the specified value is 0 * 4 - 2 + 0. *)
Lemma page_after_end_sample_stop_not_as_specified :
  exists w' c,
    setup_viewbuf false (fun _ => false) (two_signals_at 205000000) = Next w'
    /\ signalcomp w' !! 0%nat = Some c
    /\ page_past_end (hdr_of [small_edf 205000000] c) 10000000
    /\ viewbuf w' = Some (replicate 16 (Byte 0))
    /\ sample_timeoffset c = 2
    /\ sample_start c = 0
    /\ sample_stop c = 0
    /\ specified_sample_stop [small_edf 205000000] c = -2.
Proof.
  eexists _, _. split; [vm_compute; reflexivity|].
  split; [reflexivity|]. repeat split.
Qed.



(** C8 at 5 s of the small recording: the call that follows a completed
    call is completed with the same buffer. *)
Lemma unfiltered_page_is_a_function_of_the_files_witness :
  exists w'',
    setup_viewbuf false (fun _ => false) (shown (two_signals_at 50000000))
      = Next w''
    /\ viewbuf w'' = viewbuf (shown (two_signals_at 50000000)).
Proof.
  refine (proj2 (proj2 (unfiltered_page_is_a_function_of_the_files false
                          (fun _ => false) (fun _ => false)
                          (two_signals_at 50000000)
                          (shown (two_signals_at 50000000))
                          (two_signals_sound 50000000) _ _)) eq_refl).
  - repeat constructor.
  - vm_compute. reflexivity.
Defined.




(** The count in doubles can also fall short of a sample that is on the
    multiple of 2 seconds.  In records of 0.44 s with 110 samples, from a
    warm-up buffer that starts at 0.44 s, the sample 390 is at 2 s; the
    rest of 0.24 s is 60 samples, the doubles give 59.99999999999999, and
    the filter is reset at the sample 389. *)
Lemma zratio_reset_before_sample_on_epoch :
  zratio_reset_sample 4400000 4400000 110 = 389
  /\ at_next_epoch 4400000 4400000 110 390
  /\ ~ on_epoch_boundary 4400000 4400000 110 389.
Proof.
  split; [vm_compute; reflexivity|]. split; [vm_compute; reflexivity|].
  vm_compute. discriminate.
Qed.

(** *** Further properties at concrete inputs *)

(** X2 for a page of one second at 5.5 s of the small recording: records 5
    and 6. *)
Lemma page_records_cover_page_witness :
  (first_record (small_edf 55000000)
     * long_data_record_duration (small_edf 55000000)
   <= Z.max 0 (viewtime (small_edf 55000000))
   < (first_record (small_edf 55000000) + 1)
     * long_data_record_duration (small_edf 55000000))
  /\ viewtime (small_edf 55000000) + 10000000
     < (first_record (small_edf 55000000)
        + records_of_page 10000000 (viewtime (small_edf 55000000))
            (long_data_record_duration (small_edf 55000000)))
       * long_data_record_duration (small_edf 55000000)
  /\ (0 <= viewtime (small_edf 55000000) ->
      (first_record (small_edf 55000000)
       + records_of_page 10000000 (viewtime (small_edf 55000000))
           (long_data_record_duration (small_edf 55000000)) - 1)
      * long_data_record_duration (small_edf 55000000)
      <= viewtime (small_edf 55000000) + 10000000).
Proof.
  apply (page_records_cover_page (small_edf 55000000) 10000000).
  - repeat split; vm_compute; congruence.
  - lia.
Defined.

Lemma page_of_two_signals :
  materialize false (fun _ => false) (two_signals_at 50000000)
  = Next (page_of (two_signals_at 50000000)).
Proof. vm_compute. reflexivity. Defined.

(** X3 for the second of two compositions at 5 s of the small recording. *)
Lemma parts_inside_buffer_witness :
  0 <= viewbufoffset (comp_at 1 (page_of (two_signals_at 50000000)))
  /\ 0 <= viewbufsize (comp_at 1 (page_of (two_signals_at 50000000)))
  /\ viewbufsize (comp_at 1 (page_of (two_signals_at 50000000)))
     = records_in_viewbuf (comp_at 1 (page_of (two_signals_at 50000000)))
       * recordsize (hdr_of (edfheaderlist (two_signals_at 50000000))
                       (comp_at 1 (page_of (two_signals_at 50000000))))
  /\ viewbufoffset (comp_at 1 (page_of (two_signals_at 50000000)))
     + viewbufsize (comp_at 1 (page_of (two_signals_at 50000000)))
     <= Z.of_nat (length (buffer_of (page_of (two_signals_at 50000000))))
  /\ Forall (fun x => is_stored x = true)
       (buffer_of (page_of (two_signals_at 50000000))).
Proof.
  refine (parts_inside_buffer false (fun _ => false) (two_signals_at 50000000)
            (page_of (two_signals_at 50000000)) 1
            (comp_at 1 (page_of (two_signals_at 50000000)))
            (two_signals_sound 50000000) (handles_distinct_one _)
            page_of_two_signals _).
  vm_compute. reflexivity.
Defined.

(** X4 for the same composition: its part of the buffer is the 16 bytes of
    the records 5 and 6, which are at byte 56 of the file. *)
Lemma page_inside_recording_witness :
  part_of [small_edf 50000000] (comp_at 1 (page_of (two_signals_at 50000000)))
    (buffer_of (page_of (two_signals_at 50000000)))
  = map Byte (map (fun i => 56 + i) (upto 16))
  /\ sample_stop (comp_at 1 (page_of (two_signals_at 50000000)))
     = samples_on_screen (comp_at 1 (page_of (two_signals_at 50000000)))
       + sample_start (comp_at 1 (page_of (two_signals_at 50000000))).
Proof.
  destruct (page_inside_recording false (fun _ => false)
              (two_signals_at 50000000) (page_of (two_signals_at 50000000)) 1
              (comp_at 1 (page_of (two_signals_at 50000000)))
              (two_signals_sound 50000000) (handles_distinct_one _)
              page_of_two_signals)
    as (Hp & _ & Hs).
  - vm_compute. reflexivity.
  - vm_compute. discriminate.
  - split; [|exact Hs].
    etransitivity; [exact Hp|]. vm_compute. reflexivity.
Defined.

(** X5 for two compositions on the small recording with a warm-up of 4 s:
    both are given the offset 0, 5 records and 40 bytes. *)
Lemma warmup_plan_shared_witness :
  plan_of (nth 0 planned_warmup warming_comp)
  = plan_of (nth 1 planned_warmup warming_comp).
Proof.
  apply (warmup_plan_shared [warming_edf]
           [warming_comp; plain_comp 0 small_param]).
  - left. vm_compute. reflexivity.
  - right. left. vm_compute. reflexivity.
  - vm_compute. reflexivity.
Defined.

(** X7 for the warm-up of 4 s at 5 s of the small recording: the buffer
    starts at 1 s and has the records 1 to 5. *)
Lemma warmup_records_cover_witness :
  (prefilter_starttime (fst warmup_read)
   <= viewtime (hdr_of (edfheaderlist warming_window) warming_comp)
      - prefiltertime (hdr_of (edfheaderlist warming_window) warming_comp)
   < prefilter_starttime (fst warmup_read)
     + long_data_record_duration
         (hdr_of (edfheaderlist warming_window) warming_comp))
  /\ prefilter_starttime (fst warmup_read)
     + (records_in_viewbuf (fst warmup_read) - 1)
       * long_data_record_duration
           (hdr_of (edfheaderlist warming_window) warming_comp)
     <= viewtime (hdr_of (edfheaderlist warming_window) warming_comp)
  /\ viewtime (hdr_of (edfheaderlist warming_window) warming_comp)
     < prefilter_starttime (fst warmup_read)
       + records_in_viewbuf (fst warmup_read)
         * long_data_record_duration
             (hdr_of (edfheaderlist warming_window) warming_comp).
Proof.
  apply (warmup_records_cover [] [] warming_comp (fst warmup_read) 0
           warming_window (snd warmup_read)).
  - vm_compute. reflexivity.
  - split; vm_compute; congruence.
  - reflexivity.
  - reflexivity.
  - vm_compute. reflexivity.
Defined.

Lemma warming_window_sound : sound_page warming_window.
Proof.
  split; [vm_compute; discriminate|].
  repeat constructor; vm_compute; discriminate.
Defined.

(** X9 for the same call: the warm-up reads 40 bytes at byte 24, the page
    16 bytes at byte 56, both inside the records of the file. *)
Lemma setup_viewbuf_reads_in_records_witness :
  reads_in_records (edfheaderlist warming_window)
    (new_calls warming_window (shown warming_window)).
Proof.
  apply (setup_viewbuf_reads_in_records false (fun _ => false)).
  - exact warming_window_sound.
  - vm_compute. reflexivity.
Defined.

(** X8 for the same call. *)
Lemma setup_viewbuf_keeps_signals_witness :
  map signal_of (signalcomp (shown warming_window))
  = map signal_of (signalcomp warming_window).
Proof.
  apply (setup_viewbuf_keeps_signals false (fun _ => false)).
  vm_compute. reflexivity.
Defined.

(** X10 at the start of the buffer of the page at 5 s, whose first bytes
    are 56, 57 and 58: the 16-bit sample is 56 + 57 * 256 and the 24-bit
    sample 56 + 57 * 256 + 58 * 65536. *)
Lemma samples_decode_witness :
  edf_sample (page_of (two_signals_at 50000000)) 0 = 14648
  /\ bdf_sample (page_of (two_signals_at 50000000)) 0 = 3815736.
Proof.
  split.
  - refine (proj1 (samples_decode (page_of (two_signals_at 50000000))
                     (map Byte (map (fun i => 56 + i) (upto 16))) 0 14648
                     _ _) _ _).
    + vm_compute. reflexivity.
    + lia.
    + lia.
    + vm_compute. reflexivity.
  - refine (proj2 (samples_decode (page_of (two_signals_at 50000000))
                     (map Byte (map (fun i => 56 + i) (upto 16))) 0 3815736
                     _ _) _ _).
    + vm_compute. reflexivity.
    + lia.
    + lia.
    + vm_compute. reflexivity.
Defined.

(** X19 for a file that starts at 9:00:00 and a page 1.5 s before: the time
    of day is 8:59:58.500 and the time since the start -0:00:01.500. *)
Lemma viewtime_indicator_fields_witness :
  (0 <= hours (viewtime_of_day nine_o_clock before_start
                 (snd (indicator_precision false))) < 24
   /\ 0 <= minutes (viewtime_of_day nine_o_clock before_start
                      (snd (indicator_precision false))) < 60
   /\ 0 <= seconds (viewtime_of_day nine_o_clock before_start
                      (snd (indicator_precision false))) < 60
   /\ 0 <= fraction (viewtime_of_day nine_o_clock before_start
                       (snd (indicator_precision false)))
      < 10 ^ fst (indicator_precision false)
   /\ shown_time (viewtime_of_day nine_o_clock before_start
                    (snd (indicator_precision false)))
        (snd (indicator_precision false))
      <= (nine_o_clock + before_start) mod (86400 * TIME_FIXP_SCALING)
      < shown_time (viewtime_of_day nine_o_clock before_start
                      (snd (indicator_precision false)))
          (snd (indicator_precision false))
        + snd (indicator_precision false))
  /\ (fst (viewtime_elapsed before_start (snd (indicator_precision false)))
      = (before_start <? 0)
      /\ 0 <= hours (snd (viewtime_elapsed before_start
                            (snd (indicator_precision false))))
      /\ 0 <= minutes (snd (viewtime_elapsed before_start
                              (snd (indicator_precision false)))) < 60
      /\ 0 <= seconds (snd (viewtime_elapsed before_start
                              (snd (indicator_precision false)))) < 60
      /\ 0 <= fraction (snd (viewtime_elapsed before_start
                               (snd (indicator_precision false))))
         < 10 ^ fst (indicator_precision false)
      /\ shown_time (snd (viewtime_elapsed before_start
                            (snd (indicator_precision false))))
           (snd (indicator_precision false))
         <= Z.abs before_start
         < shown_time (snd (viewtime_elapsed before_start
                              (snd (indicator_precision false))))
             (snd (indicator_precision false))
           + snd (indicator_precision false)).
Proof.
  apply (viewtime_indicator_fields nine_o_clock before_start false).
  - vm_compute. split; congruence.
  - vm_compute. split; congruence.
Defined.
End ViewBufFacts.
